(** * SketchQuest room server (src/index.js): a shallow embedding

    The server keeps one mutable registry [rooms] of room objects and reacts
    to socket events, to the ticks of [setInterval] timers and to the
    resumption of the asynchronous [startGame].  The embedding is explicit
    state passing:

    - a room object lives in a heap and is named by its allocation index, so
      that a timer closure or a suspended [startGame] keeps its room alive
      after [delete rooms[code]] or after the registry entry is overwritten;
    - a player object is named by its position in [room.players]; a write
      through a reference found with [Array.prototype.find] is an update at
      the index of the first match;
    - [setInterval] appends a timer to a table and returns its index as the
      handle, [clearInterval] switches the entry off;
    - [Math.random] is an oracle carried by the event;
    - an uncaught exception is the result [Throw];
    - every [emit] and the webhook request are appended to an output log.

    Socket ids, usernames, room codes and vote targets are strings; the
    model covers their ASCII characters: [toUpperCase], [toLowerCase] and
    [trim] map the letters a-z and A-Z and strip TAB, LF, VT, FF, CR and
    SPACE, and leave every other character alone.  The payload of an event
    has the type its handler expects (a string where the handler calls a
    string method).  Scores and timers are integers.

    [rooms] and the tally object [votes] are plain objects, so a key that
    names a member of [Object.prototype] reads as that member unless the
    object has an own property of the name; [proto_key], [rooms_get] and
    [tally_step] spell this out.

    The art pairs ([matchArtCache], [artPair], the image URLs of
    [round_init] and [game_over]), [state.turn], [state.totalRounds] and the
    console logs take no part in any decision of the game logic and are
    left out; the payloads of the list and state broadcasts are cut down to
    a few fields. *)

From Stdlib Require Import ZArith String Ascii.
From stdpp Require Import gmap strings list.

Open Scope string_scope.
Open Scope Z_scope.

(** ** JavaScript strings *)

Definition is_lower (c : ascii) : bool :=
  ((97 <=? nat_of_ascii c)%nat && (nat_of_ascii c <=? 122)%nat)%bool.

Definition is_upper (c : ascii) : bool :=
  ((65 <=? nat_of_ascii c)%nat && (nat_of_ascii c <=? 90)%nat)%bool.

Definition upper_char (c : ascii) : ascii :=
  if is_lower c then ascii_of_nat (nat_of_ascii c - 32) else c.

Definition lower_char (c : ascii) : ascii :=
  if is_upper c then ascii_of_nat (nat_of_ascii c + 32) else c.

Fixpoint toUpperCase (s : string) : string :=
  match s with
  | EmptyString => EmptyString
  | String c s' => String (upper_char c) (toUpperCase s')
  end.

Fixpoint toLowerCase (s : string) : string :=
  match s with
  | EmptyString => EmptyString
  | String c s' => String (lower_char c) (toLowerCase s')
  end.

(** White space of [String.prototype.trim] below code point 128:
    TAB, LF, VT, FF, CR and SPACE. *)
Definition is_space (c : ascii) : bool :=
  let n := nat_of_ascii c in
  (((9 <=? n)%nat && (n <=? 13)%nat) || (n =? 32)%nat)%bool.

Fixpoint trimStart (s : string) : string :=
  match s with
  | EmptyString => EmptyString
  | String c s' => if is_space c then trimStart s' else s
  end.

Fixpoint trimEnd (s : string) : string :=
  match s with
  | EmptyString => EmptyString
  | String c s' =>
      match trimEnd s' with
      | EmptyString => if is_space c then EmptyString else String c EmptyString
      | t => String c t
      end
  end.

Definition trim (s : string) : string := trimEnd (trimStart s).

(** Truthiness of a string: only the empty string is falsy. *)
Definition truthy (s : string) : bool := negb (String.eqb s "").

(** The names every plain object [{}] inherits from [Object.prototype].
    Reading one of them from an object that has no own property of that
    name yields the inherited member, which is truthy and is not a number. *)
Definition proto_keys : list string :=
  [ "constructor"; "__proto__"; "hasOwnProperty"; "isPrototypeOf";
    "propertyIsEnumerable"; "toLocaleString"; "toString"; "valueOf";
    "__defineGetter__"; "__defineSetter__"; "__lookupGetter__";
    "__lookupSetter__" ].

Definition proto_key (s : string) : bool := existsb (String.eqb s) proto_keys.

(** ** Constants and data (index.js 34-61) *)

Inductive Phase :=
  LOBBY | VIEWING | WRITING | DISCUSSING | VOTING | RESULTS | MATCH_END.

Definition phase_eqb (a b : Phase) : bool :=
  match a, b with
  | LOBBY, LOBBY | VIEWING, VIEWING | WRITING, WRITING
  | DISCUSSING, DISCUSSING | VOTING, VOTING | RESULTS, RESULTS
  | MATCH_END, MATCH_END => true
  | _, _ => false
  end.

Inductive Role := innocent | impostor.

Definition is_impostor (r : option Role) : bool :=
  match r with Some impostor => true | _ => false end.

(** A player object.  A field the code leaves [undefined] ([isReady],
    [isOwner], [isOffline], [hasSkipped], [hasSkippedDiscussion]) is
    [false]: the code only tests these fields for truthiness. *)
Record Player := mkPlayer {
  id : string;
  username : string;
  score : Z;
  role : option Role;
  word : option string;
  vote : option string;
  isReady : bool;
  isOwner : bool;
  isOffline : bool;
  hasSkipped : bool;
  hasSkippedDiscussion : bool
}.

Definition set_score (v : Z) (p : Player) : Player :=
  mkPlayer (id p) (username p) v (role p) (word p) (vote p) (isReady p)
    (isOwner p) (isOffline p) (hasSkipped p) (hasSkippedDiscussion p).
Definition set_role (v : option Role) (p : Player) : Player :=
  mkPlayer (id p) (username p) (score p) v (word p) (vote p) (isReady p)
    (isOwner p) (isOffline p) (hasSkipped p) (hasSkippedDiscussion p).
Definition set_word (v : option string) (p : Player) : Player :=
  mkPlayer (id p) (username p) (score p) (role p) v (vote p) (isReady p)
    (isOwner p) (isOffline p) (hasSkipped p) (hasSkippedDiscussion p).
Definition set_vote (v : option string) (p : Player) : Player :=
  mkPlayer (id p) (username p) (score p) (role p) (word p) v (isReady p)
    (isOwner p) (isOffline p) (hasSkipped p) (hasSkippedDiscussion p).
Definition set_isReady (v : bool) (p : Player) : Player :=
  mkPlayer (id p) (username p) (score p) (role p) (word p) (vote p) v
    (isOwner p) (isOffline p) (hasSkipped p) (hasSkippedDiscussion p).
Definition set_isOwner (v : bool) (p : Player) : Player :=
  mkPlayer (id p) (username p) (score p) (role p) (word p) (vote p) (isReady p)
    v (isOffline p) (hasSkipped p) (hasSkippedDiscussion p).
Definition set_isOffline (v : bool) (p : Player) : Player :=
  mkPlayer (id p) (username p) (score p) (role p) (word p) (vote p) (isReady p)
    (isOwner p) v (hasSkipped p) (hasSkippedDiscussion p).
Definition set_hasSkipped (v : bool) (p : Player) : Player :=
  mkPlayer (id p) (username p) (score p) (role p) (word p) (vote p) (isReady p)
    (isOwner p) (isOffline p) v (hasSkippedDiscussion p).
Definition set_hasSkippedDiscussion (v : bool) (p : Player) : Player :=
  mkPlayer (id p) (username p) (score p) (role p) (word p) (vote p) (isReady p)
    (isOwner p) (isOffline p) (hasSkipped p) v.

(** [room.state].  [currentRound] is [None] while the field is undefined
    (between [create_room] and the first [startGame]) or NaN. *)
Record State := mkState {
  phase : Phase;
  timer : Z;
  currentRound : option Z;
  turnOrder : option (list string);
  turnIndex : nat;
  winnerAwardSent : bool
}.

Definition set_phase (v : Phase) (s : State) : State :=
  mkState v (timer s) (currentRound s) (turnOrder s) (turnIndex s)
    (winnerAwardSent s).
Definition set_timer (v : Z) (s : State) : State :=
  mkState (phase s) v (currentRound s) (turnOrder s) (turnIndex s)
    (winnerAwardSent s).
Definition set_currentRound (v : option Z) (s : State) : State :=
  mkState (phase s) (timer s) v (turnOrder s) (turnIndex s)
    (winnerAwardSent s).
Definition set_turnOrder (v : option (list string)) (s : State) : State :=
  mkState (phase s) (timer s) (currentRound s) v (turnIndex s)
    (winnerAwardSent s).
Definition set_turnIndex (v : nat) (s : State) : State :=
  mkState (phase s) (timer s) (currentRound s) (turnOrder s) v
    (winnerAwardSent s).
Definition set_winnerAwardSent (v : bool) (s : State) : State :=
  mkState (phase s) (timer s) (currentRound s) (turnOrder s) (turnIndex s) v.

(** A room object.  [timerInterval] holds the handle of the last timer the
    room armed; [clearInterval] does not reset the field. *)
Record Room := mkRoom {
  code : string;
  players : list Player;
  ownerId : string;
  isPublic : bool;
  rounds : Z;
  state : State;
  timerInterval : option nat
}.

Definition set_players (v : list Player) (r : Room) : Room :=
  mkRoom (code r) v (ownerId r) (isPublic r) (rounds r) (state r)
    (timerInterval r).
Definition set_ownerId (v : string) (r : Room) : Room :=
  mkRoom (code r) (players r) v (isPublic r) (rounds r) (state r)
    (timerInterval r).
Definition set_state (v : State) (r : Room) : Room :=
  mkRoom (code r) (players r) (ownerId r) (isPublic r) (rounds r) v
    (timerInterval r).
Definition set_timerInterval (v : option nat) (r : Room) : Room :=
  mkRoom (code r) (players r) (ownerId r) (isPublic r) (rounds r) (state r) v.

(** ** Timers, outputs and the environment of a room *)

(** The two callbacks handed to [setInterval]: the one of [setPhase]
    (expiry calls [handlePhaseTimeout]) and the one of [startTurn] (expiry
    calls [advanceTurn]). *)
Inductive TimerKind := PhaseTimer | TurnTimer.

Record Timer := mkTimer {
  owner : nat;
  kind : TimerKind;
  live : bool
}.

Inductive Winner := innocents | impostor_wins.

Inductive ErrorMsg := ErrBadCode | ErrRoomFull | ErrNameTaken | ErrNoRoom.

Inductive Output :=
| EmitError (to : string) (e : ErrorMsg)
| RoomJoined (to room user : string) (roster : list Player) (owner_flag : bool)
| PlayerListUpdate (room : string) (roster : list (string * bool))
| PublicRoomsUpdate
| PublicRoomsReply (to : string)
| GameStateUpdate (room : string) (ph : Phase) (t : Z)
| TimerUpdate (room : string) (t : Z)
| RoundInit (to : string) (r : option Role)
| GameOver (room : string) (w : Winner) (impostorName : string)
| Kicked (to : string)
| ChatMessage (room user message : string)
| VecbotWin (user : string).

Record Env := mkEnv {
  timers : list Timer;
  pending : list nat;
  out : list Output
}.

(** What one call of a room function works on: the room object and the
    process-wide environment. *)
Definition St : Type := Room * Env.

Inductive Result (A : Type) :=
| Ok (a : A)
| Throw.
Arguments Ok {A} a.
Arguments Throw {A}.

Definition bind {A B : Type} (m : Result A) (k : A -> Result B) : Result B :=
  match m with
  | Ok a => k a
  | Throw => Throw
  end.

(** The random choices one event may consume: the order in which
    [sort(() => Math.random() - 0.5)] leaves the positions of
    [room.players] when roles are dealt, and when the turn order is drawn. *)
Record Oracle := mkOracle {
  rolePerm : list nat;
  turnPerm : list nat
}.

(** ** Small helpers on rooms and lists *)

Definition on_room (f : Room -> Room) (x : St) : St := (f x.1, x.2).

Definition on_players (f : list Player -> list Player) : St -> St :=
  on_room (fun r => set_players (f (players r)) r).

Definition on_state (f : State -> State) : St -> St :=
  on_room (fun r => set_state (f (state r)) r).

Definition emit (o : Output) (x : St) : St :=
  (x.1, mkEnv (timers x.2) (pending x.2) (out x.2 ++ [o])).

(** Position of the first element [Array.prototype.find] would return. *)
Fixpoint findIndex {A : Type} (f : A -> bool) (l : list A) : option nat :=
  match l with
  | [] => None
  | a :: l' => if f a then Some 0%nat else S <$> findIndex f l'
  end.

Definition has_id (i : string) (p : Player) : bool := String.eqb (id p) i.

(** [v === s] for a field [v] that is [null] or a string. *)
Definition is_string (v : option string) (s : string) : bool :=
  match v with
  | Some t => String.eqb t s
  | None => false
  end.

Definition vote_cast (p : Player) : bool :=
  match vote p with
  | Some t => truthy t
  | None => false
  end.

(** [clearInterval(h)] *)
Definition clearInterval (h : nat) (e : Env) : Env :=
  mkEnv (alter (fun t => mkTimer (owner t) (kind t) false) h (timers e))
    (pending e) (out e).

(** [if (room.timerInterval) clearInterval(room.timerInterval)] *)
Definition clearTimer (x : St) : St :=
  match timerInterval x.1 with
  | Some h => (x.1, clearInterval h x.2)
  | None => x
  end.

(** [room.timerInterval = setInterval(callback, 1000)] for the room object
    at heap position [self]. *)
Definition armTimer (self : nat) (k : TimerKind) (x : St) : St :=
  (set_timerInterval (Some (length (timers x.2))) x.1,
   mkEnv (timers x.2 ++ [mkTimer self k true]) (pending x.2) (out x.2)).

(** ** Broadcasts (index.js 118-147) *)

Definition broadcastState (x : St) : St :=
  emit (GameStateUpdate (code x.1) (phase (state x.1)) (timer (state x.1))) x.

(** The list is sent with every role masked to ['active'] or [null]. *)
Definition broadcastPlayerList (x : St) : St :=
  emit (PlayerListUpdate (code x.1)
          (map (fun p => (id p, bool_decide (role p <> None))) (players x.1))) x.

Definition broadcastPublicRooms (x : St) : St := emit PublicRoomsUpdate x.

(** ** Match winners (index.js 80-116) *)

(** [notifyVecbotWinner]: nothing is sent for an empty name; the request
    itself is issued before the first [await]. *)
Definition notifyVecbotWinner (user : string) (x : St) : St :=
  if truthy user then emit (VecbotWin user) x else x.

Definition awardMatchWinners (x : St) : St :=
  if winnerAwardSent (state x.1) then x
  else
    match players x.1 with
    | [] => x
    | p :: ps =>
        let maxScore := foldl Z.max (score p) (map score ps) in
        let winners :=
          List.filter (fun q => score q =? maxScore) (players x.1) in
        match winners with
        | [] => x
        | _ =>
            foldl (fun y winner => notifyVecbotWinner (trim (username winner)) y)
              (on_state (set_winnerAwardSent true) x) winners
        end
    end.

(** ** Phases and timers (index.js 150-176) *)

Definition setPhase (self : nat) (ph : Phase) (duration : Z) (x : St) : St :=
  let x := on_state (fun s => set_timer duration (set_phase ph s)) x in
  let x := clearTimer x in
  let x := broadcastState x in
  let x := if phase_eqb ph LOBBY then x else broadcastPublicRooms x in
  if 0 <? duration then armTimer self PhaseTimer x else x.

(** ** Turns (index.js 375-419)

    [startTurn] and [advanceTurn] call each other, each round trip moving
    [turnIndex] one step along [turnOrder]; [startTurn_loop] runs that
    recursion over the part of the turn order that is still ahead. *)
Fixpoint startTurn_loop (self : nat) (rest : list string) (x : St) : St :=
  match rest with
  | [] =>
      let x := setPhase self DISCUSSING 120 x in
      let x := on_players (map (set_hasSkippedDiscussion false)) x in
      broadcastPlayerList x
  | currentWriterId :: rest' =>
      let skip :=
        startTurn_loop self rest'
          (on_state (fun s => set_turnIndex (S (turnIndex s)) s) x) in
      match List.find (has_id currentWriterId) (players x.1) with
      | None => skip
      | Some currentWriter =>
          if isOffline currentWriter then skip
          else
            let x := on_state (set_timer 30) x in
            let x := broadcastState x in
            let x := clearTimer x in
            armTimer self TurnTimer x
      end
  end.

(** Reading [turnOrder.length] of [null] throws. *)
Definition startTurn (self : nat) (x : St) : Result St :=
  match turnOrder (state x.1) with
  | None => Throw
  | Some order => Ok (startTurn_loop self (drop (turnIndex (state x.1)) order) x)
  end.

Definition advanceTurn (self : nat) (x : St) : Result St :=
  startTurn self (on_state (fun s => set_turnIndex (S (turnIndex s)) s) x).

(** ** Vote resolution (index.js 421-468) *)

(** One iteration of the tally over [(votes, maxVotes, votedPlayerId)].
    [votes] starts as [{}]: for a target that names an inherited member,
    [(votes[t] || 0) + 1] is a string, never greater than [maxVotes]. *)
Definition tally_step (acc : gmap string nat * nat * option string)
    (p : Player) : gmap string nat * nat * option string :=
  let '(votes, maxVotes, votedPlayerId) := acc in
  match vote p with
  | None => acc
  | Some t =>
      if truthy t then
        if proto_key t then acc
        else
          let n := (default 0%nat (votes !! t) + 1)%nat in
          if (maxVotes <? n)%nat then (<[t := n]> votes, n, Some t)
          else (<[t := n]> votes, maxVotes, votedPlayerId)
      else acc
  end.

Definition tally (ps : list Player) : gmap string nat * nat * option string :=
  foldl tally_step (∅, 0%nat, None) ps.

Definition votedPlayerId (ps : list Player) : option string := (tally ps).2.

Definition votedPlayer (ps : list Player) : option Player :=
  match votedPlayerId ps with
  | Some t => List.find (has_id t) ps
  | None => None
  end.

(** [room.players.find(p => p.role === 'impostor')], as a position. *)
Definition impostorIndex (ps : list Player) : option nat :=
  findIndex (fun p => is_impostor (role p)) ps.

Definition theImpostor (ps : list Player) : option Player :=
  List.find (fun p => is_impostor (role p)) ps.

Definition caught (ps : list Player) : bool :=
  match votedPlayer ps with
  | Some vp => is_impostor (role vp)
  | None => false
  end.

Definition add_score (n : Z) (p : Player) : Player := set_score (score p + n) p.

Definition scoreRound (ps : list Player) : list Player :=
  if caught ps then
    map (fun p =>
           match theImpostor ps with
           | Some imp => if is_string (vote p) (id imp) then add_score 20 p else p
           | None => p
           end) ps
  else
    match impostorIndex ps with
    | Some i => alter (add_score (30 + Z.of_nat (length ps) * 10)) i ps
    | None => ps
    end.

Definition calculateResults (self : nat) (x : St) : St :=
  let ps := players x.1 in
  let winner := if caught ps then innocents else impostor_wins in
  let impostorName :=
    match theImpostor ps with
    | Some imp => username imp
    | None => "Unknown"
    end in
  let x := on_players scoreRound x in
  let x := emit (GameOver (code x.1) winner impostorName) x in
  let x := broadcastPlayerList x in
  setPhase self RESULTS 5 x.

(** ** Match reset and round rollover (index.js 264-373, 470-522) *)

Definition resetPlayer (p : Player) : Player :=
  mkPlayer (id p) (username p) 0 None None None false (isOwner p)
    (isOffline p) false (hasSkippedDiscussion p).

Definition resetMatch (x : St) : St :=
  let x := on_players (List.filter (fun p => negb (isOffline p))) x in
  let x := on_players (map resetPlayer) x in
  let x :=
    on_state (fun s => mkState (phase s) (timer s) (Some 0) None 0%nat false) x in
  let x := broadcastState x in
  let x := broadcastPlayerList x in
  broadcastPublicRooms x.

Definition newRoundPlayer (p : Player) : Player :=
  mkPlayer (id p) (username p) (score p) None None None true (isOwner p)
    (isOffline p) (hasSkipped p) (hasSkippedDiscussion p).

Definition startWritingPhase (self : nat) (orc : Oracle) (x : St) : Result St :=
  let x := on_state (set_phase WRITING) x in
  let x := broadcastPublicRooms x in
  let order := omap (fun j => id <$> players x.1 !! j) (turnPerm orc) in
  let x := on_state (fun s => set_turnIndex 0 (set_turnOrder (Some order) s)) x in
  let x := on_players (map (set_word None)) x in
  startTurn self x.

(** The loop [for (i = 0; i < impostorCount; i++)] over the shuffled copy:
    [shuffled] lists the positions of [room.players] in shuffled order. *)
Definition assignImpostors (impostorCount : nat) (shuffled : list nat)
    (ps : list Player) : list Player :=
  foldl (fun acc j => alter (set_role (Some impostor)) j acc) ps
    (take impostorCount shuffled).

Definition nextRound (self : nat) (orc : Oracle) (x : St) : Result St :=
  let x := on_players (List.filter (fun p => negb (isOffline p))) x in
  let x := broadcastPlayerList x in
  if (length (players x.1) <? 2)%nat then
    Ok (resetMatch (setPhase self LOBBY 0 x))
  else
    let x := on_state (fun s => set_currentRound (Z.succ <$> currentRound s) s) x in
    let x := on_players (map newRoundPlayer) x in
    let impostorCount := if (8 <=? length (players x.1))%nat then 2%nat else 1%nat in
    let x := on_players (map (set_role (Some innocent))) x in
    let x := on_players (assignImpostors impostorCount (rolePerm orc)) x in
    let x := foldl (fun y p => emit (RoundInit (id p) (role p)) y) x (players x.1) in
    let x := broadcastPlayerList x in
    startWritingPhase self orc x.

(** [startGame] is asynchronous: with at least one round to prefetch it
    suspends at the first [await] and calls [nextRound] when it is resumed;
    with no positive round count the loop body never runs and [nextRound]
    is called at once. *)
Definition suspend (self : nat) (x : St) : St :=
  (x.1, mkEnv (timers x.2) (pending x.2 ++ [self]) (out x.2)).

Definition startGame (self : nat) (orc : Oracle) (x : St) : Result St :=
  let x :=
    on_state (fun s => set_winnerAwardSent false (set_currentRound (Some 0) s)) x in
  let totalRounds := if rounds x.1 =? 0 then 5 else rounds x.1 in
  if 0 <? totalRounds then Ok (suspend self x) else nextRound self orc x.

(** ** Timeouts (index.js 178-210) *)

Definition round_lt (c : option Z) (n : Z) : bool :=
  match c with
  | Some k => k <? n
  | None => false
  end.

Definition handlePhaseTimeout (self : nat) (orc : Oracle) (x : St) : Result St :=
  match phase (state x.1) with
  | WRITING => advanceTurn self x
  | DISCUSSING => Ok (setPhase self VOTING 30 x)
  | VOTING => Ok (calculateResults self x)
  | RESULTS =>
      if round_lt (currentRound (state x.1)) (rounds x.1) then nextRound self orc x
      else
        let x := awardMatchWinners x in
        let x := setPhase self MATCH_END 30 x in
        Ok (on_players (map (set_hasSkipped false)) x)
  | MATCH_END => Ok (resetMatch (setPhase self LOBBY 0 x))
  | LOBBY => startGame self orc x
  | VIEWING => Ok x
  end.

(** ** The registry [rooms] and the server state *)

(** [rooms] is a plain object used as a map: own properties in insertion
    order, each code bound to a room object on the heap. *)
Record World := mkWorld {
  heap : list Room;
  rooms : list (string * nat);
  env : Env
}.

Definition reg_lookup (reg : list (string * nat)) (c : string) : option nat :=
  snd <$> List.find (fun e => String.eqb e.1 c) reg.

(** [rooms[c] = r]: an existing property keeps its place. *)
Fixpoint reg_set (c : string) (r : nat) (reg : list (string * nat))
    : list (string * nat) :=
  match reg with
  | [] => [(c, r)]
  | e :: reg' => if String.eqb e.1 c then (c, r) :: reg' else e :: reg_set c r reg'
  end.

(** [delete rooms[c]] *)
Definition reg_delete (c : string) (reg : list (string * nat))
    : list (string * nat) :=
  List.filter (fun e => negb (String.eqb e.1 c)) reg.

(** The value of the expression [rooms[c]]. *)
Inductive Lookup :=
| Own (r : nat)
| Inherited
| Absent.

Definition rooms_get (w : World) (c : string) : Lookup :=
  match reg_lookup (rooms w) c with
  | Some r => Own r
  | None => if proto_key c then Inherited else Absent
  end.

(** [Object.keys(rooms)]: the keys that are array indices come first, in
    ascending numeric order, the other keys follow in insertion order. *)
Definition is_digit (c : ascii) : bool :=
  ((48 <=? nat_of_ascii c)%nat && (nat_of_ascii c <=? 57)%nat)%bool.

Fixpoint digits_value (acc : N) (s : string) : option N :=
  match s with
  | EmptyString => Some acc
  | String c s' =>
      if is_digit c
      then digits_value (acc * 10 + N.of_nat (nat_of_ascii c - 48))%N s'
      else None
  end.

Definition array_index (s : string) : option N :=
  match s with
  | EmptyString => None
  | String c s' =>
      if (String.eqb s "0" || negb (Ascii.eqb c "0"))%bool then
        match digits_value 0%N s with
        | Some n => if (n <? 4294967295)%N then Some n else None
        | None => None
        end
      else None
  end.

Fixpoint insert_key (k : N * string) (l : list (N * string)) : list (N * string) :=
  match l with
  | [] => [k]
  | k' :: l' => if (k.1 <? k'.1)%N then k :: l else k' :: insert_key k l'
  end.

Definition object_keys (reg : list (string * nat)) : list string :=
  let ks := map fst reg in
  let indexed := omap (fun k => (fun n => (n, k)) <$> array_index k) ks in
  map snd (foldl (fun acc k => insert_key k acc) [] indexed)
  ++ List.filter (fun k => bool_decide (array_index k = None)) ks.

(** Run a room function on the room object [r] and store the result. *)
Definition with_room (r : nat) (f : St -> Result St) (w : World) : Result World :=
  match heap w !! r with
  | None => Ok w
  | Some room =>
      match f (room, env w) with
      | Ok x => Ok (mkWorld (<[r := x.1]> (heap w)) (rooms w) x.2)
      | Throw => Throw
      end
  end.

Definition emitW (o : Output) (w : World) : World :=
  mkWorld (heap w) (rooms w)
    (mkEnv (timers (env w)) (pending (env w)) (out (env w) ++ [o])).

(** ** Socket handlers (index.js 525-828) *)

(** [getMyRoom]: the first key of [rooms], in [Object.keys] order, whose
    room lists a player with the socket's id. *)
Definition getMyRoom (sock : string) (w : World) : option nat :=
  let member c :=
    match reg_lookup (rooms w) c ≫= (heap w !!.) with
    | Some room => existsb (has_id sock) (players room)
    | None => false
    end in
  List.find member (object_keys (rooms w)) ≫= reg_lookup (rooms w).

(** [generateRoomCode], reading [random] for the text
    [Math.random().toString(36)]. *)
Definition generateRoomCode (random : string) : string :=
  toUpperCase (substring 2 5 random).

Definition newPlayer (sock user : string) (owner_flag : bool) : Player :=
  mkPlayer sock user 0 None None None false owner_flag false false false.

(** [rounds] is the value [parseInt] gives for the payload field, [None]
    for a field that is missing or does not parse. *)
Definition create_room (sock user : string) (isPublic_in : option bool)
    (rounds_in : option Z) (random : string) (w : World) : Result World :=
  let c := generateRoomCode random in
  let isPublic := default true isPublic_in in
  let rounds :=
    match rounds_in with
    | Some n => if n =? 0 then 5 else n
    | None => 5
    end in
  let player := newPlayer sock user true in
  let room :=
    mkRoom c [player] sock isPublic rounds
      (mkState LOBBY 0 None (Some []) 0%nat false) None in
  let r := length (heap w) in
  let x : St := (room, env w) in
  let x := emit (RoomJoined sock c user (players room) true) x in
  let x := broadcastPlayerList x in
  let x := broadcastPublicRooms x in
  Ok (mkWorld (heap w ++ [x.1]) (reg_set c r (rooms w)) x.2).

Definition isTaken (user : string) (ps : list Player) : bool :=
  existsb (fun p => String.eqb (toLowerCase (username p))
                      (toLowerCase (trim user))) ps.

Definition join_room (sock user c : string) (w : World) : Result World :=
  if negb (truthy c) then Ok (emitW (EmitError sock ErrBadCode) w)
  else
    let c := toUpperCase c in
    match rooms_get w c with
    | Absent => Ok (emitW (EmitError sock ErrNoRoom) w)
    | Inherited => Throw
    | Own r =>
        with_room r (fun x =>
          if (12 <=? length (players x.1))%nat then
            Ok (emit (EmitError sock ErrRoomFull) x)
          else if isTaken user (players x.1) then
            Ok (emit (EmitError sock ErrNameTaken) x)
          else
            let x := on_players (fun ps => (ps ++ [newPlayer sock user false])%list) x in
            let x := emit (RoomJoined sock c user (players x.1) false) x in
            let x := broadcastPlayerList x in
            let x := broadcastPublicRooms x in
            Ok (broadcastState x)) w
    end.

Definition get_public_rooms (sock : string) (w : World) : Result World :=
  Ok (emitW (PublicRoomsReply sock) w).

Definition start_game (orc : Oracle) (c : string) (w : World) : Result World :=
  match rooms_get w c with
  | Absent => Ok w
  | Inherited => Throw
  | Own r => with_room r (startGame r orc) w
  end.

(** [room.state.turnOrder?.[room.state.turnIndex]] *)
Definition currentWriter (x : St) : option string :=
  turnOrder (state x.1) ≫= (.!! turnIndex (state x.1)).

Definition kick_player (sock c targetId : string) (w : World) : Result World :=
  match rooms_get w c with
  | Absent | Inherited => Ok w
  | Own r =>
      with_room r (fun x =>
        if negb (String.eqb (ownerId x.1) sock) then Ok x
        else if String.eqb targetId sock then Ok x
        else
          match List.find (has_id targetId) (players x.1) with
          | None => Ok x
          | Some targetPlayer =>
              let x := emit (Kicked targetId) x in
              let x :=
                on_players (List.filter (fun p => negb (has_id targetId p))) x in
              bind
                (if (phase_eqb (phase (state x.1)) WRITING
                     && is_string (currentWriter x) targetId)%bool
                 then advanceTurn r (clearTimer x)
                 else Ok x)
                (fun x => Ok (broadcastPublicRooms (broadcastPlayerList x)))
          end) w
  end.

Definition submit_word (sock c : string) (w_in : option string) (w : World)
    : Result World :=
  match rooms_get w c with
  | Absent => Ok w
  | Inherited => Throw
  | Own r =>
      with_room r (fun x =>
        if negb (phase_eqb (phase (state x.1)) WRITING) then Ok x
        else
          match turnOrder (state x.1) with
          | None => Throw
          | Some order =>
              if negb (is_string (order !! turnIndex (state x.1)) sock) then Ok x
              else
                match findIndex (has_id sock) (players x.1) with
                | None => Ok x
                | Some i =>
                    advanceTurn r (on_players (alter (set_word w_in) i) x)
                end
          end) w
  end.

(** [room.players.filter(p => p.role && !p.isOffline)] *)
Definition activeOnlinePlayers (ps : list Player) : list Player :=
  List.filter (fun p => (bool_decide (role p <> None) && negb (isOffline p))%bool) ps.

Definition submit_vote (sock c : string) (targetId : option string) (w : World)
    : Result World :=
  match rooms_get w c with
  | Absent => Ok w
  | Inherited => Throw
  | Own r =>
      with_room r (fun x =>
        if negb (phase_eqb (phase (state x.1)) VOTING) then Ok x
        else
          match findIndex (has_id sock) (players x.1) with
          | None => Throw
          | Some i =>
              let x := on_players (alter (set_vote targetId) i) x in
              let active := activeOnlinePlayers (players x.1) in
              if ((0 <? length active)%nat && forallb vote_cast active)%bool
              then Ok (calculateResults r x)
              else if (length active =? 0)%nat then Ok (calculateResults r x)
              else Ok x
          end) w
  end.

Definition skip_discussion (sock c : string) (w : World) : Result World :=
  match rooms_get w c with
  | Absent => Ok w
  | Inherited => Throw
  | Own r =>
      with_room r (fun x =>
        if negb (phase_eqb (phase (state x.1)) DISCUSSING) then Ok x
        else
          match findIndex (has_id sock) (players x.1) with
          | None => Ok x
          | Some i =>
              if (default false (hasSkippedDiscussion <$> players x.1 !! i))
              then Ok x
              else
                let x := on_players (alter (set_hasSkippedDiscussion true) i) x in
                let active := activeOnlinePlayers (players x.1) in
                let x := broadcastPlayerList x in
                if ((0 <? length active)%nat
                    && forallb hasSkippedDiscussion active)%bool
                then Ok (setPhase r VOTING 30 x)
                else if (length active =? 0)%nat then Ok (setPhase r VOTING 30 x)
                else Ok x
          end) w
  end.

Definition skip_match_end (sock c : string) (w : World) : Result World :=
  match rooms_get w c with
  | Absent => Ok w
  | Inherited => Throw
  | Own r =>
      with_room r (fun x =>
        if negb (phase_eqb (phase (state x.1)) MATCH_END) then Ok x
        else
          match findIndex (has_id sock) (players x.1) with
          | None => Ok x
          | Some i =>
              if (default false (hasSkipped <$> players x.1 !! i)) then Ok x
              else
                let x := on_players (alter (set_hasSkipped true) i) x in
                let active := activeOnlinePlayers (players x.1) in
                let x := broadcastPlayerList x in
                if ((0 <? length active)%nat && forallb hasSkipped active)%bool
                then Ok (resetMatch (setPhase r LOBBY 0 x))
                else if (length active =? 0)%nat
                then Ok (resetMatch (setPhase r LOBBY 0 x))
                else Ok x
          end) w
  end.

(** [room.players.length >= 2 && room.players.every(p => p.isReady)] *)
Definition allReady (ps : list Player) : bool :=
  ((2 <=? length ps)%nat && forallb isReady ps)%bool.

(** The readiness check shared by [toggle_ready] and the lobby branch of
    [disconnect]. *)
Definition checkCountdown (self : nat) (x : St) : St :=
  if allReady (players x.1) then setPhase self LOBBY 4 x
  else if 0 <? timer (state x.1) then setPhase self LOBBY 0 x
  else x.

Definition toggle_ready (sock c : string) (w : World) : Result World :=
  match rooms_get w c with
  | Absent => Ok w
  | Inherited => Throw
  | Own r =>
      with_room r (fun x =>
        if negb (phase_eqb (phase (state x.1)) LOBBY) then Ok x
        else
          match findIndex (has_id sock) (players x.1) with
          | None => Ok x
          | Some i =>
              let x :=
                on_players (alter (fun p => set_isReady (negb (isReady p)) p) i) x in
              let x := broadcastPlayerList x in
              Ok (checkCountdown r x)
          end) w
  end.

Definition chat_message (c message user : string) (w : World) : Result World :=
  if truthy c then Ok (emitW (ChatMessage c user message) w) else Ok w.

Definition admin_password : string := "Obi4amkebap4etatanamaykami".

Definition admin_skip_phase (orc : Oracle) (c password : string) (w : World)
    : Result World :=
  if negb (String.eqb password admin_password) then Ok w
  else
    match rooms_get w c with
    | Absent => Ok w
    | Inherited => Throw
    | Own r =>
        with_room r (fun x =>
          let x := clearTimer x in
          if phase_eqb (phase (state x.1)) LOBBY then startGame r orc x
          else handlePhaseTimeout r orc x) w
    end.

(** The part of the [disconnect] handler that works on the room object;
    [delete rooms[room.code]] is done by [disconnect] below. *)
Definition disconnect_room (self : nat) (sock : string) (x : St) : Result St :=
  let player := findIndex (has_id sock) (players x.1) in
  let lobby := phase_eqb (phase (state x.1)) LOBBY in
  bind
    (if lobby then
       let x := on_players (List.filter (fun p => negb (has_id sock p))) x in
       Ok (checkCountdown self x)
     else
       let x :=
         match player with
         | Some i => on_players (alter (set_isOffline true) i) x
         | None => x
         end in
       if (phase_eqb (phase (state x.1)) WRITING
           && is_string (currentWriter x) sock)%bool
       then advanceTurn self (clearTimer x)
       else Ok x)
    (fun x =>
       let x :=
         match findIndex (fun p => negb (isOffline p)) (players x.1) with
         | None => x
         | Some j =>
             let x :=
               if String.eqb (ownerId x.1) sock then
                 let newOwner := default "" (id <$> players x.1 !! j) in
                 let x := on_room (set_ownerId newOwner) x in
                 let x := on_players (alter (set_isOwner true) j) x in
                 match player with
                 | Some i =>
                     if lobby then x
                     else on_players (alter (set_isOwner false) i) x
                 | None => x
                 end
               else x in
             broadcastPlayerList x
         end in
       Ok (broadcastPublicRooms x)).

Definition disconnect (sock : string) (w : World) : Result World :=
  match getMyRoom sock w with
  | None => Ok w
  | Some r =>
      bind (with_room r (disconnect_room r sock) w) (fun w' =>
        match heap w' !! r with
        | Some room =>
            if forallb isOffline (players room)
            then Ok (mkWorld (heap w') (reg_delete (code room) (rooms w')) (env w'))
            else Ok w'
        | None => Ok w'
        end)
  end.

(** ** Timer ticks and the resumption of [startGame] *)

(** One run of the callback of the live timer [h]. *)
Definition tick (orc : Oracle) (h : nat) (w : World) : Result World :=
  match timers (env w) !! h with
  | None => Ok w
  | Some t =>
      if negb (live t) then Ok w
      else
        with_room (owner t) (fun x =>
          let x := on_state (fun s => set_timer (timer s - 1) s) x in
          if timer (state x.1) <=? 0 then
            let x := clearTimer x in
            match kind t with
            | PhaseTimer => handlePhaseTimeout (owner t) orc x
            | TurnTimer => advanceTurn (owner t) x
            end
          else Ok (emit (TimerUpdate (code x.1) (timer (state x.1))) x)) w
  end.

(** The [k]-th suspended [startGame] has prefetched its art and goes on
    with [nextRound]. *)
Definition resume (orc : Oracle) (k : nat) (w : World) : Result World :=
  match pending (env w) !! k with
  | None => Ok w
  | Some r =>
      let e := env w in
      let w :=
        mkWorld (heap w) (rooms w)
          (mkEnv (timers e) (delete k (pending e)) (out e)) in
      with_room r (nextRound r orc) w
  end.

(** ** Events and runs *)

Inductive Event :=
| EvCreateRoom (sock user : string) (isPublic_in : option bool)
    (rounds_in : option Z) (random : string)
| EvJoinRoom (sock user c : string)
| EvGetPublicRooms (sock : string)
| EvStartGame (c : string)
| EvKickPlayer (sock c targetId : string)
| EvSubmitWord (sock c : string) (w_in : option string)
| EvSubmitVote (sock c : string) (targetId : option string)
| EvSkipDiscussion (sock c : string)
| EvSkipMatchEnd (sock c : string)
| EvToggleReady (sock c : string)
| EvChatMessage (c message user : string)
| EvAdminSkipPhase (c password : string)
| EvDisconnect (sock : string)
| EvTick (h : nat)
| EvResume (k : nat).

Definition step (orc : Oracle) (ev : Event) (w : World) : Result World :=
  match ev with
  | EvCreateRoom sock user p r rnd => create_room sock user p r rnd w
  | EvJoinRoom sock user c => join_room sock user c w
  | EvGetPublicRooms sock => get_public_rooms sock w
  | EvStartGame c => start_game orc c w
  | EvKickPlayer sock c t => kick_player sock c t w
  | EvSubmitWord sock c v => submit_word sock c v w
  | EvSubmitVote sock c t => submit_vote sock c t w
  | EvSkipDiscussion sock c => skip_discussion sock c w
  | EvSkipMatchEnd sock c => skip_match_end sock c w
  | EvToggleReady sock c => toggle_ready sock c w
  | EvChatMessage c m u => chat_message c m u w
  | EvAdminSkipPhase c p => admin_skip_phase orc c p w
  | EvDisconnect sock => disconnect sock w
  | EvTick h => tick orc h w
  | EvResume k => resume orc k w
  end.

Definition initial : World := mkWorld [] [] (mkEnv [] [] []).

Fixpoint run (evs : list (Oracle * Event)) (w : World) : Result World :=
  match evs with
  | [] => Ok w
  | (orc, ev) :: evs' => bind (step orc ev w) (run evs')
  end.

Inductive reachable : World -> Prop :=
| reachable_initial : reachable initial
| reachable_step w orc ev w' :
    reachable w -> step orc ev w = Ok w' -> reachable w'.

(** * Vocabulary of the properties *)

(** ** Vote resolution *)




Definition gameOvers (l : list Output) : list Winner :=
  omap (fun o => match o with GameOver _ w _ => Some w | _ => None end) l.



(** ** Round rollover *)

Definition countImpostors (ps : list Player) : nat :=
  length (List.filter (fun p => is_impostor (role p)) ps).

(** The players left after the purge of offline players. *)
Definition survivors (ps : list Player) : list Player :=
  List.filter (fun p => negb (isOffline p)) ps.

(** ** Timers *)

(** Handles of the live timers whose callback closes over room [r]. *)
Definition liveTimersOf (r : nat) (w : World) : list nat :=
  List.filter
    (fun h => match timers (env w) !! h with
              | Some t => (live t && (owner t =? r)%nat)%bool
              | None => false
              end)
    (seq 0 (length (timers (env w)))).

(** The handle a room object stores names a timer of that room. *)
Definition owns_handle (r : nat) (x : St) : Prop :=
  forall h, timerInterval x.1 = Some h ->
    exists t, timers x.2 !! h = Some t /\ owner t = r.

(** Every live timer of room [r] is the one whose handle the room stores. *)
Definition tracks_live (r : nat) (x : St) : Prop :=
  forall h t, timers x.2 !! h = Some t -> live t = true -> owner t = r ->
    timerInterval x.1 = Some h.

Definition room_timers_ok (r : nat) (x : St) : Prop :=
  owns_handle r x /\ tracks_live r x.

(** Room [r] has no live timer. *)
Definition room_idle (r : nat) (x : St) : Prop :=
  owns_handle r x /\
  forall h t, timers x.2 !! h = Some t -> live t = true -> owner t <> r.

(** From [e] to [e'] the timer table only changed entries of room [r] and
    only gained entries of room [r]. *)
Definition table_grows (r : nat) (e e' : Env) : Prop :=
  (forall h t, timers e !! h = Some t ->
     exists t', timers e' !! h = Some t' /\ owner t' = owner t
                /\ (owner t <> r -> t' = t))
  /\ (forall h t', timers e' !! h = Some t' -> timers e !! h = None ->
        owner t' = r).

(** A call on room [r] that takes [x] to [x'] keeps the timers in order. *)
Definition keeps (r : nat) (x x' : St) : Prop :=
  room_timers_ok r x -> room_timers_ok r x' /\ table_grows r x.2 x'.2.

Definition timers_wf (w : World) : Prop :=
  (forall r room, heap w !! r = Some room -> owns_handle r (room, env w))
  /\ (forall h t, timers (env w) !! h = Some t -> live t = true ->
        exists room, heap w !! owner t = Some room
                     /\ timerInterval room = Some h).

(** ** Match winners *)

(** [p] has the highest score of the roster. *)
Definition tiedAtMax (ps : list Player) (p : Player) : bool :=
  forallb (fun q => score q <=? score p) ps.


(** The requests sent for the players of [l]. *)
Definition notified (l : list Player) : list Output :=
  map (fun p => VecbotWin (trim (username p)))
    (List.filter (fun p => truthy (trim (username p))) l).

(** ** Joining *)


Definition errorsOf (l : list Output) : list (string * ErrorMsg) :=
  omap (fun o => match o with EmitError to e => Some (to, e) | _ => None end) l.

(** Every player has been dealt a role. *)
Definition dealt (p : Player) : Prop :=
  role p = Some impostor \/ role p = Some innocent.

(** ** Sample runs *)

Definition after (evs : list (Oracle * Event)) : World :=
  match run evs initial with
  | Ok w => w
  | Throw => initial
  end.

(** Shuffles for a roster of two and of three players: the second player
    is dealt the impostor role, the players write in roster order. *)
Definition orc2 : Oracle := mkOracle [1; 0]%nat [0; 1]%nat.
Definition orc3 : Oracle := mkOracle [1; 0; 2]%nat [0; 1; 2]%nat.

(** Ann creates room ABCDE, Bob joins, both get ready: the 4-second
    countdown is armed. *)
Definition run_countdown : list (Oracle * Event) :=
  [ (orc2, EvCreateRoom "a" "Ann" None None "0.abcdefghij");
    (orc2, EvJoinRoom "b" "Bob" "abcde");
    (orc2, EvToggleReady "a" "ABCDE");
    (orc2, EvToggleReady "b" "ABCDE") ].

(** The countdown runs out and the match starts once the art is fetched. *)
Definition run_start : list (Oracle * Event) :=
  [ (orc3, EvTick 0%nat); (orc3, EvTick 0%nat); (orc3, EvTick 0%nat);
    (orc3, EvTick 0%nat); (orc3, EvResume 0%nat) ].

(** The countdown runs out, the art is fetched, both players write their
    word and skip the discussion: the room is in VOTING. *)
Definition run_voting : list (Oracle * Event) :=
  (run_countdown ++
   [ (orc2, EvTick 0%nat); (orc2, EvTick 0%nat); (orc2, EvTick 0%nat);
     (orc2, EvTick 0%nat); (orc2, EvResume 0%nat);
     (orc2, EvSubmitWord "a" "ABCDE" (Some "sky"));
     (orc2, EvSubmitWord "b" "ABCDE" (Some "sea"));
     (orc2, EvSkipDiscussion "a" "ABCDE");
     (orc2, EvSkipDiscussion "b" "ABCDE") ])%list.

(** Cem joins during VOTING; then Ann and Bob, the two players with a
    role, disconnect. *)
Definition run_voting_left : list (Oracle * Event) :=
  (run_voting ++
   [ (orc2, EvJoinRoom "c" "Cem" "abcde");
     (orc2, EvDisconnect "a");
     (orc2, EvDisconnect "b") ])%list.

(** A connection that is not in the room votes during VOTING. *)
Definition run_stranger_vote : list (Oracle * Event) :=
  (run_voting ++ [ (orc2, EvSubmitVote "z" "ABCDE" (Some "a")) ])%list.

(** Cem joins while the countdown runs. *)
Definition run_countdown_join : list (Oracle * Event) :=
  (run_countdown ++ [ (orc2, EvJoinRoom "c" "Cem" "abcde") ])%list.

(** Two players join under the very same name, which ends in a space. *)
Definition run_same_name : list (Oracle * Event) :=
  [ (orc2, EvCreateRoom "a" "Bob " None None "0.abcdefghij");
    (orc2, EvJoinRoom "b" "Bob " "abcde") ].

(** The generator returns the code of a room that exists. *)
Definition run_collision : list (Oracle * Event) :=
  [ (orc2, EvCreateRoom "a" "Ann" None None "0.abcdefghij");
    (orc2, EvJoinRoom "b" "Bob" "abcde");
    (orc2, EvCreateRoom "c" "Cem" None None "0.abcdefghij") ].

(** Three players in VOTING; the impostor votes for itself. *)
Definition self_vote_roster : list Player :=
  [ mkPlayer "a" "Ann" 0 (Some impostor) None (Some "a") true true false false false;
    mkPlayer "b" "Bob" 0 (Some innocent) None (Some "a") true false false false false;
    mkPlayer "c" "Cem" 0 (Some innocent) None None true false false false false ].

Definition sample_room (ps : list Player) (ph : Phase) : St :=
  (mkRoom "ABCDE" ps "a" true 5 (mkState ph 30 (Some 1) (Some []) 0%nat false) None,
   mkEnv [] [] []).

(** A player in VOTING with a role and a vote, score 0. *)
Definition voter (i : string) (r : Role) (v : option string) : Player :=
  mkPlayer i i 0 (Some r) None v true false false false false.

(** Five players, one impostor; four vote for the impostor, the impostor
    abstains. *)
Definition roster_five : list Player :=
  [ voter "p1" innocent (Some "p3"); voter "p2" innocent (Some "p3");
    voter "p3" impostor None; voter "p4" innocent (Some "p3");
    voter "p5" innocent (Some "p3") ].

(** Nine players, two impostors; the accused is the innocent p1. *)
Definition roster_nine : list Player :=
  [ voter "p1" innocent (Some "p4"); voter "p2" innocent (Some "p1");
    voter "p3" innocent (Some "p1"); voter "p4" impostor (Some "p1");
    voter "p5" innocent (Some "p4"); voter "p6" innocent (Some "p1");
    voter "p7" impostor (Some "p1"); voter "p8" innocent None;
    voter "p9" innocent (Some "p7") ].

(** A match ends with one player, whose name is blank. *)
Definition blank_roster : list Player :=
  [ mkPlayer "a" "  " 0 (Some innocent) None None true true false false false ].

(** * More of the server *)

(** ** The lobby listing (index.js 66-78) *)

Module PublicRoom.
Record t := mk {
  code : string;
  playerCount : nat;
  isPublic : bool;
  ownerName : string;
  phase : Phase
}.
End PublicRoom.

(** The entry that the callback of [.map] builds for one room.
    [isPublic] is never undefined on a room that [create_room] built. *)
Definition publicRoom (r : Room) : PublicRoom.t :=
  let owner := List.find (has_id (ownerId r)) (players r) in
  PublicRoom.mk (code r) (length (players r)) (isPublic r)
    (match owner with
     | Some o => username o
     | None => "Bilinmiyor"
     end)
    (phase (state r)).


(** ** Vocabulary of the further properties *)

(** The writer [w] is in the roster and online: [startTurn] gives such a
    writer a turn and skips every other. *)
Definition seated (ps : list Player) (w : string) : bool :=
  match List.find (has_id w) ps with
  | Some currentWriter => negb (isOffline currentWriter)
  | None => false
  end.

(** The configuration of a room that is fixed when the room is created. *)
Definition config (r : Room) : string * bool * Z := (code r, isPublic r, rounds r).

(** Every registered code is bound to a room object that carries this
    code, and no code is registered twice. *)
Definition registry_ok (w : World) : Prop :=
  NoDup (map fst (rooms w))
  /\ forall c r, reg_lookup (rooms w) c = Some r ->
       exists room, heap w !! r = Some room /\ code room = c.

Definition timerUpdates (l : list Output) : list Z :=
  omap (fun o => match o with TimerUpdate _ t => Some t | _ => None end) l.

(** All that [resetMatch] and a new round clear on a player. *)
Definition fresh (p : Player) : Prop :=
  role p = None /\ word p = None /\ vote p = None.

(** What a run of the turn sequencer over the turn order still ahead,
    [rest], has done when it took [x] to [x']: it passed [k] writers, none
    of them seated, and then either gave the next writer a 30-second turn
    or, with the order used up, opened the discussion. *)
Definition sequenced (self : nat) (rest : list string) (x x' : St) (k : nat) : Prop :=
  (k <= length rest)%nat
  /\ turnIndex (state x'.1) = (turnIndex (state x.1) + k)%nat
  /\ turnOrder (state x'.1) = turnOrder (state x.1)
  /\ (forall j w, (j < k)%nat -> rest !! j = Some w -> seated (players x.1) w = false)
  /\ timerInterval x'.1 = Some (length (timers x.2))
  /\ ((exists w, rest !! k = Some w /\ seated (players x.1) w = true
         /\ phase (state x'.1) = phase (state x.1)
         /\ timer (state x'.1) = 30
         /\ players x'.1 = players x.1
         /\ timers x'.2 !! length (timers x.2) = Some (mkTimer self TurnTimer true))
      \/ (k = length rest
          /\ phase (state x'.1) = DISCUSSING
          /\ timer (state x'.1) = 120
          /\ players x'.1 = map (set_hasSkippedDiscussion false) (players x.1)
          /\ timers x'.2 !! length (timers x.2) = Some (mkTimer self PhaseTimer true))).


(** ** Further sample runs *)

(** The countdown runs out and the art is fetched: the room is in WRITING
    and it is Ann's turn. *)
Definition run_writing : list (Oracle * Event) :=
  (run_countdown ++
   [ (orc2, EvTick 0%nat); (orc2, EvTick 0%nat); (orc2, EvTick 0%nat);
     (orc2, EvTick 0%nat); (orc2, EvResume 0%nat) ])%list.

(** ** The countdown *)

(** The interval whose handle the room stores is still running. *)
Definition stored_live (x : St) : bool :=
  match timerInterval x.1 with
  | Some h => default false (live <$> timers x.2 !! h)
  | None => false
  end.

(** The room's timer is never negative, and it is positive while the
    room's interval runs. *)
Definition countdown_ok (x : St) : Prop :=
  0 <= timer (state x.1) /\ (stored_live x = true -> 0 < timer (state x.1)).

Definition clock_wf (w : World) : Prop :=
  forall r room, heap w !! r = Some room -> countdown_ok (room, env w).

(** A call that takes [x] to [x'] keeps the countdown in order. *)
Definition settles (x x' : St) : Prop := countdown_ok x -> countdown_ok x'.

(** The values [t - 1], [t - 2], ..., [t - n]. *)
Fixpoint countdownFrom (t : Z) (n : nat) : list Z :=
  match n with
  | O => []
  | S n' => (t - 1) :: countdownFrom (t - 1) n'
  end.

(** Two players in RESULTS after the first round. *)
Definition roster_two : list Player :=
  [ mkPlayer "a" "Ann" 20 (Some innocent) (Some "sky") (Some "b") true true false
      false true;
    mkPlayer "b" "Bob" 0 (Some impostor) (Some "sea") (Some "a") true false false
      false true ].

(** What a player looks like in the lobby before a match. *)
Definition unplayed (p : Player) : Prop :=
  score p = 0 /\ fresh p /\ isReady p = false /\ hasSkipped p = false.

(** ** Membership *)

(** The room registered under the code [c] lists the socket [sock] as a
    player. *)
Definition member_of (w : World) (sock c : string) : Prop :=
  exists r room, reg_lookup (rooms w) c = Some r /\ heap w !! r = Some room
    /\ sock ∈ map id (players room).


(** ** What a call leaves alone *)

(** The ids of the players of a room that are online, in roster order. *)
Definition onlineIds (r : Room) : list string := map id (survivors (players r)).

(** A call that takes [x] to [x'] leaves the reading [proj] of the room
    as it was. *)
Definition framed {B : Type} (proj : Room -> B) (x x' : St) : Prop :=
  proj x'.1 = proj x.1.

(** The owner of the room is one of its online players. *)
Definition owner_seated (r : Room) : Prop := ownerId r ∈ onlineIds r.

Definition owners_seated (w : World) : Prop :=
  forall c r room, reg_lookup (rooms w) c = Some r -> heap w !! r = Some room ->
    owner_seated room.

(** The socket events that change who is in a room. *)
Definition roster_event (ev : Event) : bool :=
  match ev with
  | EvJoinRoom _ _ _ | EvKickPlayer _ _ _ | EvDisconnect _ => true
  | _ => false
  end.

(** A match of one round, played up to the last second of RESULTS. *)
Definition run_last_round : list (Oracle * Event) :=
  [ (orc2, EvCreateRoom "a" "Ann" None (Some 1) "0.abcdefghij");
    (orc2, EvJoinRoom "b" "Bob" "abcde");
    (orc2, EvToggleReady "a" "ABCDE");
    (orc2, EvToggleReady "b" "ABCDE");
    (orc2, EvTick 0%nat); (orc2, EvTick 0%nat); (orc2, EvTick 0%nat);
    (orc2, EvTick 0%nat); (orc2, EvResume 0%nat);
    (orc2, EvSubmitWord "a" "ABCDE" (Some "sky"));
    (orc2, EvSubmitWord "b" "ABCDE" (Some "sea"));
    (orc2, EvSkipDiscussion "a" "ABCDE");
    (orc2, EvSkipDiscussion "b" "ABCDE");
    (orc2, EvSubmitVote "a" "ABCDE" (Some "b"));
    (orc2, EvSubmitVote "b" "ABCDE" (Some "a"));
    (orc2, EvTick 5%nat); (orc2, EvTick 5%nat); (orc2, EvTick 5%nat);
    (orc2, EvTick 5%nat) ].


(** ** Capacity and scores *)

(** At most twelve players, and no negative score. *)
Definition sound (ps : list Player) : Prop :=
  (length ps <= 12)%nat /\ Forall (fun p => 0 <= score p) ps.

(** A call that takes [x] to [x'] keeps the roster sound. *)
Definition tames (x x' : St) : Prop := sound (players x.1) -> sound (players x'.1).

Definition rosters_sound (w : World) : Prop :=
  forall r room, heap w !! r = Some room -> sound (players room).
(** ** Evaluation hints *)

Arguments setPhase : simpl never.
Arguments resetMatch : simpl never.
Arguments calculateResults : simpl never.
Arguments awardMatchWinners : simpl never.
Arguments nextRound : simpl never.
Arguments startGame : simpl never.
Arguments handlePhaseTimeout : simpl never.

(** * Properties *)

(** ** What [setPhase] and the turn sequencer leave alone *)

Lemma setPhase_room self ph d x :
  (setPhase self ph d x).1 =
  mkRoom (code x.1) (players x.1) (ownerId x.1) (isPublic x.1) (rounds x.1)
    (set_timer d (set_phase ph (state x.1)))
    (if 0 <? d then Some (length (timers x.2)) else timerInterval x.1).
Proof.
  destruct x as [room e]. unfold setPhase, clearTimer, clearInterval. cbn.
  destruct (timerInterval room) eqn:Hh; destruct (phase_eqb ph LOBBY);
    destruct (0 <? d); cbn; unfold set_state, set_timerInterval; cbn;
    rewrite ?length_alter, ?Hh; reflexivity.
Qed.

Lemma setPhase_players self ph d x :
  players (setPhase self ph d x).1 = players x.1.
Proof. rewrite setPhase_room. reflexivity. Qed.

Lemma setPhase_phase self ph d x : phase (state (setPhase self ph d x).1) = ph.
Proof. rewrite setPhase_room. reflexivity. Qed.

Lemma startTurn_loop_players self rest : forall x,
  map (set_hasSkippedDiscussion false) (players (startTurn_loop self rest x).1)
  = map (set_hasSkippedDiscussion false) (players x.1).
Proof.
  induction rest as [|w rest IH]; intros x; cbn.
  - rewrite setPhase_players, <- list_fmap_compose.
    apply list_fmap_ext. intros _ p _. reflexivity.
  - destruct (List.find (has_id w) (players x.1)) as [cw|].
    + destruct (isOffline cw).
      * rewrite IH. reflexivity.
      * unfold clearTimer. cbn. destruct (timerInterval x.1); reflexivity.
    + rewrite IH. reflexivity.
Qed.

Lemma startTurn_loop_roles self rest x :
  map role (players (startTurn_loop self rest x).1) = map role (players x.1).
Proof.
  pose proof (startTurn_loop_players self rest x) as H.
  apply (f_equal (map role)) in H. rewrite <- !list_fmap_compose in H. exact H.
Qed.

Lemma startTurn_loop_ids self rest x :
  map id (players (startTurn_loop self rest x).1) = map id (players x.1).
Proof.
  pose proof (startTurn_loop_players self rest x) as H.
  apply (f_equal (map id)) in H. rewrite <- !list_fmap_compose in H. exact H.
Qed.

(** One step of [startTurn] as the source writes it: the test on
    [turnIndex], the look-up of the seated writer, the skip through
    [advanceTurn], the 30-second timer. *)
Lemma startTurn_unfold self x :
  startTurn self x =
  match turnOrder (state x.1) with
  | None => Throw
  | Some order =>
      match order !! turnIndex (state x.1) with
      | None =>
          Ok (broadcastPlayerList
                (on_players (map (set_hasSkippedDiscussion false))
                   (setPhase self DISCUSSING 120 x)))
      | Some currentWriterId =>
          match List.find (has_id currentWriterId) (players x.1) with
          | None => advanceTurn self x
          | Some currentWriter =>
              if isOffline currentWriter then advanceTurn self x
              else
                Ok (armTimer self TurnTimer
                      (clearTimer (broadcastState (on_state (set_timer 30) x))))
          end
      end
  end.
Proof.
  unfold advanceTurn, startTurn. cbn [on_state on_room fst state set_state
    turnOrder turnIndex set_turnIndex].
  destruct (turnOrder (state x.1)) as [order|]; [|reflexivity].
  destruct (order !! turnIndex (state x.1)) as [w|] eqn:Hw.
  - rewrite (drop_S _ _ _ Hw). cbn [startTurn_loop].
    destruct (List.find (has_id w) (players x.1)) as [cw|]; [|reflexivity].
    destruct (isOffline cw); reflexivity.
  - apply lookup_ge_None in Hw. rewrite drop_ge by exact Hw. reflexivity.
Qed.

(** ** Sanity checks of the string and registry helpers *)

Example trim_example : trim "  Bob " = "Bob" /\ trim "Bob" = "Bob" /\ trim "   " = "".
Proof. repeat split. Qed.

Example case_example :
  toLowerCase "Ahmet" = "ahmet" /\ toUpperCase "a1b2c" = "A1B2C".
Proof. repeat split. Qed.

Example generateRoomCode_example : generateRoomCode "0.4fzyo82mvyr" = "4FZYO".
Proof. reflexivity. Qed.

Example object_keys_example :
  object_keys [("B2", 0%nat); ("12", 1%nat); ("007", 2%nat); ("7", 3%nat)]
  = ["7"; "12"; "B2"; "007"].
Proof. reflexivity. Qed.

(** ** The vote tally *)

Lemma findIndex_Some {A} (f : A -> bool) l i :
  findIndex f l = Some i <->
  (exists a, l !! i = Some a /\ f a = true)
  /\ forall j b, (j < i)%nat -> l !! j = Some b -> f b = false.
Proof.
  revert i. induction l as [|a l IH]; intros i; cbn.
  - split; [discriminate|]. intros [(b & Hb & _) _]. discriminate.
  - destruct (f a) eqn:Hfa.
    + split.
      * intros [= <-]. split; [eauto|]. intros j b Hj. lia.
      * intros [(b & Hb & Hfb) Hmin]. destruct i as [|i]; [reflexivity|].
        specialize (Hmin 0%nat a (Nat.lt_0_succ i) eq_refl). congruence.
    + split.
      * intros H. destruct (findIndex f l) as [k|]; [|discriminate].
        cbn in H. injection H as <-.
        destruct (proj1 (IH k) eq_refl) as [Hex Hmin].
        split; [exact Hex|]. intros [|j] b Hj Hb; cbn in Hb; [congruence|].
        apply (Hmin j b); [lia|exact Hb].
      * intros [(b & Hb & Hfb) Hmin]. destruct i as [|i]; cbn in Hb; [congruence|].
        rewrite (proj2 (IH i)); [reflexivity|].
        split; [eauto|]. intros j c Hj Hc. apply (Hmin (S j) c); [lia|exact Hc].
Qed.





Lemma is_string_true v s : is_string v s = true <-> v = Some s.
Proof.
  destruct v as [t|]; cbn; [|split; discriminate].
  rewrite String.eqb_eq. split; congruence.
Qed.











Lemma setPhase_out self ph d x :
  out (setPhase self ph d x).2 =
  (out x.2 ++ GameStateUpdate (code x.1) ph d
     :: if phase_eqb ph LOBBY then [] else [PublicRoomsUpdate])%list.
Proof.
  destruct x as [room e]. unfold setPhase, clearTimer, clearInterval. cbn.
  destruct (timerInterval room); destruct (phase_eqb ph LOBBY);
    destruct (0 <? d); cbn; rewrite <- ?app_assoc; reflexivity.
Qed.

Lemma calculateResults_room self x :
  (calculateResults self x).1 =
  mkRoom (code x.1) (scoreRound (players x.1)) (ownerId x.1) (isPublic x.1)
    (rounds x.1) (set_timer 5 (set_phase RESULTS (state x.1)))
    (Some (length (timers x.2))).
Proof. unfold calculateResults. cbv zeta. rewrite setPhase_room. reflexivity. Qed.


(** The two scoring scenarios of the specification. *)
Example scenario_five_players :
  let x' := calculateResults 0 (sample_room roster_five VOTING) in
  votedPlayerId roster_five = Some "p3"
  /\ gameOvers (out x'.2) = [innocents]
  /\ map score (players x'.1) = [20; 20; 0; 20; 20]
  /\ phase (state x'.1) = RESULTS.
Proof. vm_compute. repeat split; reflexivity. Qed.

Example scenario_nine_players :
  let x' := calculateResults 0 (sample_room roster_nine VOTING) in
  votedPlayerId roster_nine = Some "p1"
  /\ gameOvers (out x'.2) = [impostor_wins]
  /\ map score (players x'.1) = [0; 0; 0; 120; 0; 0; 0; 0; 0]
  /\ phase (state x'.1) = RESULTS.
Proof. vm_compute. repeat split; reflexivity. Qed.

(** A tie: "p2" and "p1" both end with two votes; "p2" reaches two first
    in roster order and is the accused. *)
Example scenario_tie :
  votedPlayerId
    [ voter "p1" innocent (Some "p1"); voter "p2" innocent (Some "p2");
      voter "p3" impostor (Some "p2"); voter "p4" innocent (Some "p1") ]
  = Some "p2".
Proof. vm_compute. reflexivity. Qed.




(** ** Round rollover deals the impostor roles *)

Lemma countImpostors_roles ps qs :
  map role ps = map role qs -> countImpostors ps = countImpostors qs.
Proof.
  unfold countImpostors. revert qs.
  induction ps as [|p ps IH]; intros [|q qs] H; try discriminate; [reflexivity|].
  injection H as Hr Hrest. cbn. rewrite Hr.
  destruct (is_impostor (role q)); cbn; rewrite (IH _ Hrest); reflexivity.
Qed.

Lemma countImpostors_alter j ps p :
  ps !! j = Some p -> is_impostor (role p) = false ->
  countImpostors (alter (set_role (Some impostor)) j ps) = S (countImpostors ps).
Proof.
  unfold countImpostors. revert j.
  induction ps as [|q ps IH]; intros [|j] Hj Hp; simplify_eq/=.
  - rewrite Hp. reflexivity.
  - specialize (IH _ Hj Hp).
    destruct (is_impostor (role q)); cbn; rewrite IH; reflexivity.
Qed.

Lemma countImpostors_innocent ps :
  countImpostors (map (set_role (Some innocent)) ps) = 0%nat.
Proof. unfold countImpostors. induction ps as [|p ps IH]; cbn; auto. Qed.

Lemma deal_impostors js : forall ps,
  NoDup js ->
  (forall j, j ∈ js -> exists p, ps !! j = Some p /\ role p = Some innocent) ->
  Forall dealt ps ->
  countImpostors (foldl (fun acc j => alter (set_role (Some impostor)) j acc) ps js)
    = (length js + countImpostors ps)%nat
  /\ Forall dealt (foldl (fun acc j => alter (set_role (Some impostor)) j acc) ps js)
  /\ map id (foldl (fun acc j => alter (set_role (Some impostor)) j acc) ps js)
     = map id ps.
Proof.
  induction js as [|j js IH]; intros ps Hnd Hin Hall.
  - cbn. auto.
  - apply NoDup_cons in Hnd as [Hj Hnd].
    destruct (Hin j) as (p & Hp & Hrole); [apply elem_of_cons; auto|].
    destruct (IH (alter (set_role (Some impostor)) j ps)) as (Hc & Hd & Hi).
    + exact Hnd.
    + intros k Hk. destruct (Hin k) as (q & Hq & Hrq); [apply elem_of_cons; auto|].
      exists q. split; [|exact Hrq].
      rewrite list_lookup_alter_ne; [exact Hq|]. intros ->. contradiction.
    + apply Forall_alter; [exact Hall|]. intros q _. left. reflexivity.
    + change (foldl ?f ps (j :: js)) with (foldl f (alter (set_role (Some impostor)) j ps) js).
      rewrite Hc, (countImpostors_alter j ps p Hp) by (rewrite Hrole; reflexivity).
      split; [cbn; lia|]. split; [exact Hd|]. rewrite Hi.
      clear. revert j. induction ps as [|q ps IH]; intros [|j]; cbn; f_equal; auto.
Qed.

Lemma startWritingPhase_ok self orc x :
  exists x', startWritingPhase self orc x = Ok x'
    /\ map role (players x'.1) = map role (players x.1)
    /\ map id (players x'.1) = map id (players x.1).
Proof.
  unfold startWritingPhase, startTurn. cbn. eexists. split; [reflexivity|].
  rewrite startTurn_loop_roles, startTurn_loop_ids. cbn.
  rewrite <- !list_fmap_compose. split; reflexivity.
Qed.

Lemma emits_room {A} (f : A -> Output) (l : list A) : forall x : St,
  (foldl (fun y a => emit (f a) y) x l).1 = x.1.
Proof. induction l as [|a l IH]; intros x; cbn; [reflexivity|]. rewrite IH. reflexivity. Qed.

Lemma dealt_roles ps qs : map role ps = map role qs -> Forall dealt qs -> Forall dealt ps.
Proof.
  revert qs. induction ps as [|p ps IH]; intros [|q qs] H Hq; simplify_eq/=; [constructor|].
  apply Forall_cons in Hq as [Hq Hqs]. constructor; [|eauto].
  unfold dealt in *. rewrite H. exact Hq.
Qed.

(** C2: a round rollover that proceeds into a round (at least two players
    are left after the purge of offline players) returns normally, keeps
    exactly the purged roster, deals the impostor role to exactly one
    player when fewer than 8 players are left and to exactly two players
    (two positions of the roster, hence distinct) when 8 or more are left,
    and deals the innocent role to every other player.  The shuffle may be
    any permutation of the roster positions. *)
Theorem nextRound_deals_impostors self orc x :
  (2 <= length (survivors (players x.1)))%nat ->
  Permutation (rolePerm orc) (seq 0 (length (survivors (players x.1)))) ->
  exists x', nextRound self orc x = Ok x'
    /\ map id (players x'.1) = map id (survivors (players x.1))
    /\ countImpostors (players x'.1) =
         (if (8 <=? length (survivors (players x.1)))%nat then 2 else 1)%nat
    /\ Forall dealt (players x'.1).
Proof.
  intros Hlen Hperm. unfold nextRound.
  cbn -[startWritingPhase Nat.ltb Nat.leb assignImpostors].
  fold (survivors (players x.1)). set (sv := survivors (players x.1)) in *.
  destruct (Nat.ltb_spec (length sv) 2) as [Hlt|_]; [lia|].
  rewrite !length_map.
  set (k := if (8 <=? length sv)%nat then 2%nat else 1%nat).
  set (base := map (set_role (Some innocent)) (map newRoundPlayer sv)).
  assert (Hk : (k <= length sv)%nat).
  { unfold k. destruct (Nat.leb_spec 8 (length sv)); lia. }
  assert (Hbase : forall j, (j < length sv)%nat ->
            exists p, base !! j = Some p /\ role p = Some innocent).
  { intros j Hj. destruct (lookup_lt_is_Some_2 sv j Hj) as [p Hp].
    exists (set_role (Some innocent) (newRoundPlayer p)). split; [|reflexivity].
    unfold base. rewrite !list_lookup_fmap, Hp. reflexivity. }
  destruct (deal_impostors (take k (rolePerm orc)) base) as (Hc & Hd & Hi).
  - apply (sublist_NoDup _ (rolePerm orc)); [|apply sublist_take].
    rewrite Hperm. apply NoDup_seq.
  - intros j Hj. apply Hbase.
    apply elem_of_take in Hj as (i & Hi & _).
    assert (Hin : j ∈ seq 0 (length sv)).
    { rewrite <- Hperm. eapply list_elem_of_lookup_2; eauto. }
    apply elem_of_seq in Hin. lia.
  - unfold base. apply Forall_fmap, Forall_true. intros p. right. reflexivity.
  - match goal with |- context [startWritingPhase self orc ?y] =>
      destruct (startWritingPhase_ok self orc y) as (x' & Hx' & Hr & Hid) end.
    exists x'. split; [exact Hx'|].
    cbn in Hr, Hid. rewrite emits_room in Hr, Hid. cbn in Hr, Hid.
    fold sv in Hr, Hid. fold base in Hr, Hid. unfold assignImpostors in Hr, Hid.
    fold k in Hr, Hid.
    split; [|split].
    + etrans; [exact Hid|]. etrans; [exact Hi|].
      unfold base. rewrite <- !list_fmap_compose.
      apply list_fmap_ext. intros _ p _. reflexivity.
    + rewrite (countImpostors_roles _ _ Hr). etrans; [exact Hc|].
      unfold base. rewrite countImpostors_innocent.
      rewrite length_take, (Permutation_length Hperm), length_seq. lia.
    + eapply dealt_roles; [exact Hr | exact Hd].
Qed.

(** Two players, none offline, identity shuffle. *)
Lemma nextRound_deals_impostors_witness :
  exists x', nextRound 0 (mkOracle [0; 1]%nat [0; 1]%nat)
               (sample_room (take 2 self_vote_roster) RESULTS) = Ok x'
    /\ map id (players x'.1) = ["a"; "b"]
    /\ countImpostors (players x'.1) = 1%nat
    /\ Forall dealt (players x'.1).
Proof.
  apply (nextRound_deals_impostors 0 (mkOracle [0; 1]%nat [0; 1]%nat)
           (sample_room (take 2 self_vote_roster) RESULTS)).
  - vm_compute. lia.
  - vm_compute. reflexivity.
Defined.

(** ** At most one live timer per room *)

Lemma table_grows_refl r e : table_grows r e e.
Proof.
  split.
  - intros h t Ht. exists t. auto.
  - intros h t Ht Hn. congruence.
Qed.

Lemma table_grows_trans r e1 e2 e3 :
  table_grows r e1 e2 -> table_grows r e2 e3 -> table_grows r e1 e3.
Proof.
  intros [A1 B1] [A2 B2]. split.
  - intros h t Ht. destruct (A1 h t Ht) as (t' & Ht' & Ho & Hs).
    destruct (A2 h t' Ht') as (t'' & Ht'' & Ho' & Hs').
    exists t''. split; [exact Ht''|]. split; [congruence|].
    intros Hne. rewrite Hs' by congruence. auto.
  - intros h t Ht Hn. destruct (timers e2 !! h) as [t2|] eqn:H2.
    + destruct (A2 h t2 H2) as (t' & Ht' & Ho & _).
      rewrite Ht in Ht'. injection Ht' as <-. rewrite Ho. eauto.
    + eauto.
Qed.

Lemma keeps_refl r x : keeps r x x.
Proof. intros H. split; [exact H | apply table_grows_refl]. Qed.

Lemma keeps_trans r x y z : keeps r x y -> keeps r y z -> keeps r x z.
Proof.
  intros Hxy Hyz Hx. destruct (Hxy Hx) as [Hy G1]. destruct (Hyz Hy) as [Hz G2].
  split; [exact Hz | eapply table_grows_trans; eauto].
Qed.

Lemma keeps_same r (x x' : St) :
  timerInterval x'.1 = timerInterval x.1 -> timers x'.2 = timers x.2 ->
  keeps r x x'.
Proof.
  intros Hh Ht [Ho Hl]. split; [split|].
  - intros h. rewrite Hh, Ht. apply Ho.
  - intros h t. rewrite Hh, Ht. apply Hl.
  - unfold table_grows. rewrite Ht. apply table_grows_refl.
Qed.

Lemma idle_same r (x x' : St) :
  timerInterval x'.1 = timerInterval x.1 -> timers x'.2 = timers x.2 ->
  room_idle r x -> room_idle r x'.
Proof.
  intros Hh Ht [Ho Hl]. split.
  - intros h. rewrite Hh, Ht. apply Ho.
  - intros h t. rewrite Ht. apply Hl.
Qed.

Lemma clearTimer_idle r x :
  room_timers_ok r x ->
  room_idle r (clearTimer x) /\ table_grows r x.2 (clearTimer x).2.
Proof.
  intros [Ho Hl]. unfold clearTimer.
  destruct (timerInterval x.1) as [h0|] eqn:Hh.
  - destruct (Ho h0 Hh) as (t0 & Ht0 & Hown).
    unfold room_idle, owns_handle, table_grows.
    split; [split|split]; cbn.
    + intros h Hh'. rewrite Hh in Hh'. injection Hh' as <-.
      exists (mkTimer (owner t0) (kind t0) false).
      rewrite list_lookup_alter_eq, Ht0. auto.
    + intros h t Ht Hlive Hr. destruct (decide (h0 = h)) as [->|Hne].
      * rewrite list_lookup_alter_eq, Ht0 in Ht. injection Ht as <-. discriminate.
      * rewrite list_lookup_alter_ne in Ht by exact Hne.
        specialize (Hl h t Ht Hlive Hr). congruence.
    + intros h t Ht. destruct (decide (h0 = h)) as [->|Hne].
      * rewrite list_lookup_alter_eq, Ht. eexists. split; [reflexivity|].
        split; [reflexivity|]. intros Hne. rewrite Ht0 in Ht. congruence.
      * rewrite list_lookup_alter_ne by exact Hne. eauto.
    + intros h t Ht Hn. destruct (decide (h0 = h)) as [->|Hne].
      * rewrite list_lookup_alter_eq, Hn in Ht. discriminate.
      * rewrite list_lookup_alter_ne in Ht by exact Hne. congruence.
  - split; [split|apply table_grows_refl].
    + intros h Hh'. congruence.
    + intros h t Ht Hlive Hr. specialize (Hl h t Ht Hlive Hr). congruence.
Qed.

Lemma armTimer_ok r k x :
  room_idle r x ->
  room_timers_ok r (armTimer r k x) /\ table_grows r x.2 (armTimer r k x).2.
Proof.
  intros [Ho Hl]. unfold armTimer, room_timers_ok, owns_handle, tracks_live, table_grows.
  split; [split|split]; cbn.
  - intros h Hh. injection Hh as <-. eexists.
    rewrite lookup_app_r, Nat.sub_diag by lia. split; reflexivity.
  - intros h t Ht Hlive Hr.
    destruct (decide (h < length (timers x.2))%nat) as [Hlt|Hge].
    + rewrite lookup_app_l in Ht by exact Hlt. destruct (Hl h t Ht Hlive Hr).
    + rewrite lookup_app_r in Ht by lia.
      destruct (h - length (timers x.2))%nat as [|n] eqn:Hn; [|discriminate].
      f_equal. lia.
  - intros h t Ht. exists t. rewrite lookup_app_l by (eapply lookup_lt_Some; eauto).
    auto.
  - intros h t Ht Hn. apply lookup_ge_None in Hn.
    rewrite lookup_app_r in Ht by exact Hn.
    destruct (h - length (timers x.2))%nat as [|n]; [|discriminate].
    injection Ht as <-. reflexivity.
Qed.

Lemma keeps_emit r o x : keeps r x (emit o x).
Proof. apply keeps_same; reflexivity. Qed.

Lemma keeps_on_players r f x : keeps r x (on_players f x).
Proof. apply keeps_same; reflexivity. Qed.

Lemma keeps_on_state r f x : keeps r x (on_state f x).
Proof. apply keeps_same; reflexivity. Qed.

Lemma keeps_set_ownerId r v x : keeps r x (on_room (set_ownerId v) x).
Proof. apply keeps_same; reflexivity. Qed.

Lemma keeps_broadcastState r x : keeps r x (broadcastState x).
Proof. apply keeps_same; reflexivity. Qed.

Lemma keeps_broadcastPlayerList r x : keeps r x (broadcastPlayerList x).
Proof. apply keeps_same; reflexivity. Qed.

Lemma keeps_broadcastPublicRooms r x : keeps r x (broadcastPublicRooms x).
Proof. apply keeps_same; reflexivity. Qed.

Lemma keeps_suspend r self x : keeps r x (suspend self x).
Proof. apply keeps_same; reflexivity. Qed.

Lemma keeps_clearTimer r x : keeps r x (clearTimer x).
Proof.
  intros H. destruct (clearTimer_idle r x H) as [[Ho Hl] G].
  split; [split|exact G]; [exact Ho|].
  intros h t Ht Hlive Hr. destruct (Hl h t Ht Hlive Hr).
Qed.

(** Arming right after cancelling, as [setPhase] and [startTurn] do. *)
Lemma keeps_rearm r k x (f : St -> St) :
  (forall y, timerInterval (f y).1 = timerInterval y.1) ->
  (forall y, timers (f y).2 = timers y.2) ->
  keeps r x (armTimer r k (f (clearTimer x))).
Proof.
  intros Hf1 Hf2 H. destruct (clearTimer_idle r x H) as [Hidle G].
  apply (idle_same r _ (f (clearTimer x))) in Hidle; [|apply Hf1|apply Hf2].
  destruct (armTimer_ok r k _ Hidle) as [Hok G'].
  split; [exact Hok|]. eapply table_grows_trans; [exact G|].
  unfold table_grows in *. rewrite Hf2 in G'. exact G'.
Qed.

Create HintDb keeps.
#[global] Hint Resolve keeps_emit keeps_on_players keeps_on_state keeps_set_ownerId
  keeps_broadcastState keeps_broadcastPlayerList keeps_broadcastPublicRooms
  keeps_suspend keeps_clearTimer : keeps.

(** Peel the outermost call off the target state. *)
Ltac keeps_chain :=
  repeat first
    [ match goal with |- keeps _ ?a ?a => apply keeps_refl end
    | eapply keeps_trans; [| solve [auto 1 with keeps nocore] ] ].

Lemma keeps_setPhase r ph d x : keeps r x (setPhase r ph d x).
Proof.
  unfold setPhase. cbv zeta.
  eapply keeps_trans; [apply keeps_on_state|].
  destruct (0 <? d).
  - destruct (phase_eqb ph LOBBY).
    + apply (keeps_rearm r PhaseTimer _ broadcastState); reflexivity.
    + apply (keeps_rearm r PhaseTimer _
               (fun y => broadcastPublicRooms (broadcastState y))); reflexivity.
  - destruct (phase_eqb ph LOBBY); keeps_chain.
Qed.
#[global] Hint Resolve keeps_setPhase : keeps.

Lemma keeps_startTurn_loop r rest : forall x, keeps r x (startTurn_loop r rest x).
Proof.
  induction rest as [|w rest IH]; intros x; cbn [startTurn_loop]; cbv zeta.
  - keeps_chain.
  - assert (Hskip : keeps r x (startTurn_loop r rest
              (on_state (fun s => set_turnIndex (S (turnIndex s)) s) x))).
    { eapply keeps_trans; [apply keeps_on_state | apply IH]. }
    destruct (List.find (has_id w) (players x.1)) as [cw|]; [|exact Hskip].
    destruct (isOffline cw); [exact Hskip|].
    eapply keeps_trans; [apply keeps_on_state|].
    eapply keeps_trans; [apply keeps_broadcastState|].
    apply (keeps_rearm r TurnTimer _ (fun y => y)); reflexivity.
Qed.
#[global] Hint Resolve keeps_startTurn_loop : keeps.

Lemma keeps_startTurn r x x' : startTurn r x = Ok x' -> keeps r x x'.
Proof.
  unfold startTurn. destruct (turnOrder (state x.1)); [|discriminate].
  intros [= <-]. apply keeps_startTurn_loop.
Qed.

Lemma keeps_advanceTurn r x x' : advanceTurn r x = Ok x' -> keeps r x x'.
Proof.
  unfold advanceTurn. intros H. apply keeps_startTurn in H.
  eapply keeps_trans; [apply keeps_on_state | exact H].
Qed.

Lemma keeps_calculateResults r x : keeps r x (calculateResults r x).
Proof. unfold calculateResults. cbv zeta. keeps_chain. Qed.

Lemma keeps_resetMatch r x : keeps r x (resetMatch x).
Proof. unfold resetMatch. cbv zeta. keeps_chain. Qed.

Lemma keeps_emits {A} r (f : A -> Output) (l : list A) : forall x,
  keeps r x (foldl (fun y a => emit (f a) y) x l).
Proof.
  induction l as [|a l IH]; intros x; cbn; [apply keeps_refl|].
  eapply keeps_trans; [apply keeps_emit | apply IH].
Qed.

Lemma keeps_awardMatchWinners r x : keeps r x (awardMatchWinners x).
Proof.
  unfold awardMatchWinners.
  destruct (winnerAwardSent (state x.1)); [apply keeps_refl|].
  destruct (players x.1) as [|p ps]; [apply keeps_refl|]. cbv zeta.
  destruct (List.filter _ (p :: ps)) as [|q qs]; [apply keeps_refl|].
  apply (keeps_trans _ _ (on_state (set_winnerAwardSent true) x));
    [apply keeps_on_state|].
  generalize (on_state (set_winnerAwardSent true) x). generalize (q :: qs).
  intros l. induction l as [|a l IH]; intros y; cbn [foldl]; [apply keeps_refl|].
  eapply keeps_trans; [|apply IH].
  unfold notifyVecbotWinner. destruct (truthy _); [apply keeps_emit|apply keeps_refl].
Qed.
#[global] Hint Resolve keeps_calculateResults keeps_resetMatch keeps_emits
  keeps_awardMatchWinners : keeps.

Lemma keeps_startWritingPhase r orc x x' :
  startWritingPhase r orc x = Ok x' -> keeps r x x'.
Proof.
  unfold startWritingPhase. cbv zeta. intros H. apply keeps_startTurn in H.
  eapply keeps_trans; [|exact H]. keeps_chain.
Qed.

Lemma keeps_nextRound r orc x x' : nextRound r orc x = Ok x' -> keeps r x x'.
Proof.
  unfold nextRound. cbv zeta.
  destruct (_ <? 2)%nat.
  - intros [= <-]. keeps_chain.
  - intros H. apply keeps_startWritingPhase in H.
    eapply keeps_trans; [|exact H]. keeps_chain.
Qed.

Lemma keeps_startGame r orc x x' : startGame r orc x = Ok x' -> keeps r x x'.
Proof.
  unfold startGame. cbv zeta. destruct (0 <? _).
  - intros [= <-]. keeps_chain.
  - intros H. apply keeps_nextRound in H.
    eapply keeps_trans; [|exact H]. keeps_chain.
Qed.

Lemma keeps_handlePhaseTimeout r orc x x' :
  handlePhaseTimeout r orc x = Ok x' -> keeps r x x'.
Proof.
  unfold handlePhaseTimeout. destruct (phase (state x.1)).
  - apply keeps_startGame.
  - intros [= <-]. apply keeps_refl.
  - apply keeps_advanceTurn.
  - intros [= <-]. keeps_chain.
  - intros [= <-]. keeps_chain.
  - destruct (round_lt _ _).
    + apply keeps_nextRound.
    + intros [= <-]. keeps_chain.
  - intros [= <-]. keeps_chain.
Qed.

Lemma with_room_wf r f w w' :
  (forall x x', f x = Ok x' -> keeps r x x') ->
  timers_wf w -> with_room r f w = Ok w' -> timers_wf w'.
Proof.
  intros Hf [W1 W2]. unfold with_room.
  destruct (heap w !! r) as [room|] eqn:Hr; [|intros [= <-]; split; assumption].
  destruct (f (room, env w)) as [x'|] eqn:Hfx; [|discriminate].
  intros [= <-].
  assert (Hok : room_timers_ok r (room, env w)).
  { split; [apply W1; exact Hr|].
    intros h t Ht Hlive Ho. destruct (W2 h t Ht Hlive) as (room' & Hroom' & Hh).
    rewrite Ho, Hr in Hroom'. injection Hroom' as <-. exact Hh. }
  destruct (Hf _ _ Hfx Hok) as [[Ho Hl] [G1 G2]]. cbn in G1, G2.
  assert (Hlt : (r < length (heap w))%nat) by (eapply lookup_lt_Some; eauto).
  split; cbn.
  - intros r' room' Hr'. destruct (decide (r = r')) as [<-|Hne].
    + rewrite list_lookup_insert_eq in Hr' by exact Hlt. injection Hr' as <-.
      destruct x'. exact Ho.
    + rewrite list_lookup_insert_ne in Hr' by exact Hne.
      intros h Hh. destruct (W1 r' room' Hr' h Hh) as (t & Ht & Hown).
      destruct (G1 h t Ht) as (t' & Ht' & Hown' & _).
      exists t'. split; [exact Ht'|congruence].
  - intros h t' Ht' Hlive. destruct (decide (owner t' = r)) as [Heq|Hne].
    + exists x'.1. rewrite Heq, list_lookup_insert_eq by exact Hlt.
      split; [reflexivity|]. apply (Hl h t' Ht' Hlive Heq).
    + destruct (timers (env w) !! h) as [t|] eqn:Ht.
      * destruct (G1 h t Ht) as (t'' & Ht'' & Hown & Hsame).
        rewrite Ht' in Ht''. injection Ht'' as <-.
        rewrite Hsame in Hlive, Hne |- * by congruence.
        destruct (W2 h t Ht Hlive) as (room' & Hroom' & Hh).
        exists room'. rewrite list_lookup_insert_ne by congruence. auto.
      * destruct Hne. eapply G2; eauto.
Qed.

Lemma timers_wf_same w w' :
  heap w' = heap w -> timers (env w') = timers (env w) ->
  timers_wf w -> timers_wf w'.
Proof.
  intros Hh Ht [W1 W2]. split.
  - intros r room. rewrite Hh. intros Hr h Hi. cbn in *. rewrite Ht.
    apply (W1 r room Hr h Hi).
  - rewrite Hh, Ht. exact W2.
Qed.

Ltac keeps_split H :=
  repeat match type of H with
  | _ => progress cbv beta iota in H
  | Throw = Ok _ => discriminate H
  | bind _ _ = Ok _ => unfold bind in H
  | context [if ?c then _ else _] => destruct c eqn:?
  | context [match ?c with _ => _ end] => destruct c eqn:?
  end.

Ltac keeps_leaf H :=
  first
    [ injection H as <-; keeps_chain
    | eapply keeps_trans;
      [| first [ eapply keeps_advanceTurn; exact H
               | eapply keeps_startGame; exact H
               | eapply keeps_handlePhaseTimeout; exact H
               | eapply keeps_nextRound; exact H ] ];
      keeps_chain ].

Lemma keeps_checkCountdown r x : keeps r x (checkCountdown r x).
Proof.
  unfold checkCountdown. destruct (allReady _); [apply keeps_setPhase|].
  destruct (0 <? _); [apply keeps_setPhase|apply keeps_refl].
Qed.
#[global] Hint Resolve keeps_checkCountdown : keeps.

Lemma keeps_disconnect_room r sock x x' :
  disconnect_room r sock x = Ok x' -> keeps r x x'.
Proof.
  unfold disconnect_room. cbv zeta. unfold bind.
  destruct (phase_eqb (phase (state x.1)) LOBBY).
  - intros H. keeps_split H; keeps_leaf H.
  - destruct (_ && _)%bool.
    + destruct (advanceTurn r _) as [y|] eqn:Hadv; [|discriminate].
      intros H. apply keeps_advanceTurn in Hadv.
      apply (keeps_trans _ _ y).
      { eapply keeps_trans; [|exact Hadv].
        destruct (findIndex (has_id sock) (players x.1)); keeps_chain. }
      keeps_split H; keeps_leaf H.
    + intros H.
      destruct (findIndex (has_id sock) (players x.1));
        keeps_split H; keeps_leaf H.
Qed.

Lemma step_timers_wf orc ev w w' :
  timers_wf w -> step orc ev w = Ok w' -> timers_wf w'.
Proof.
  intros Hwf. destruct ev; cbn [step].
  - (* create_room *)
    unfold create_room. cbv zeta. intros [= <-].
    destruct Hwf as [W1 W2]. split; cbn.
    + intros r room Hr h Hh.
      destruct (decide (r < length (heap w))%nat) as [Hlt|Hge].
      * rewrite lookup_app_l in Hr by exact Hlt. apply (W1 r room Hr h Hh).
      * rewrite lookup_app_r in Hr by lia.
        destruct (r - length (heap w))%nat; [|discriminate].
        injection Hr as <-. discriminate.
    + intros h t Ht Hlive. destruct (W2 h t Ht Hlive) as (room & Hroom & Hh).
      exists room. rewrite lookup_app_l by (eapply lookup_lt_Some; eauto). auto.
  - (* join_room *)
    unfold join_room. destruct (negb (truthy c)).
    { intros [= <-]. revert Hwf. apply timers_wf_same; reflexivity. }
    destruct (rooms_get w (toUpperCase c)); [|discriminate|].
    + apply with_room_wf; [|exact Hwf]. intros x x' H. keeps_split H; keeps_leaf H.
    + intros [= <-]. revert Hwf. apply timers_wf_same; reflexivity.
  - (* get_public_rooms *)
    intros [= <-]. revert Hwf. apply timers_wf_same; reflexivity.
  - (* start_game *)
    unfold start_game. destruct (rooms_get w c); [|discriminate|].
    + apply with_room_wf; [|exact Hwf]. intros x x'. apply keeps_startGame.
    + intros [= <-]. exact Hwf.
  - (* kick_player *)
    unfold kick_player. destruct (rooms_get w c); [|intros [= <-]; exact Hwf..].
    apply with_room_wf; [|exact Hwf]. intros x x' H.
    destruct (negb _); [keeps_leaf H|].
    destruct (String.eqb targetId sock); [keeps_leaf H|].
    destruct (List.find _ _); [|keeps_leaf H].
    unfold bind in H. destruct (_ && _)%bool.
    + destruct (advanceTurn r _) as [y|] eqn:Hadv; [|discriminate].
      apply keeps_advanceTurn in Hadv. injection H as <-.
      apply (keeps_trans _ _ y); [|keeps_chain].
      eapply keeps_trans; [|exact Hadv]. keeps_chain.
    + keeps_leaf H.
  - (* submit_word *)
    unfold submit_word. destruct (rooms_get w c); [|discriminate|].
    + apply with_room_wf; [|exact Hwf]. intros x x' H. keeps_split H; keeps_leaf H.
    + intros [= <-]. exact Hwf.
  - (* submit_vote *)
    unfold submit_vote. destruct (rooms_get w c); [|discriminate|].
    + apply with_room_wf; [|exact Hwf]. intros x x' H. keeps_split H; keeps_leaf H.
    + intros [= <-]. exact Hwf.
  - (* skip_discussion *)
    unfold skip_discussion. destruct (rooms_get w c); [|discriminate|].
    + apply with_room_wf; [|exact Hwf]. intros x x' H. keeps_split H; keeps_leaf H.
    + intros [= <-]. exact Hwf.
  - (* skip_match_end *)
    unfold skip_match_end. destruct (rooms_get w c); [|discriminate|].
    + apply with_room_wf; [|exact Hwf]. intros x x' H. keeps_split H; keeps_leaf H.
    + intros [= <-]. exact Hwf.
  - (* toggle_ready *)
    unfold toggle_ready. destruct (rooms_get w c); [|discriminate|].
    + apply with_room_wf; [|exact Hwf]. intros x x' H. keeps_split H; keeps_leaf H.
    + intros [= <-]. exact Hwf.
  - (* chat_message *)
    unfold chat_message. destruct (truthy c); intros [= <-]; [|exact Hwf].
    revert Hwf. apply timers_wf_same; reflexivity.
  - (* admin_skip_phase *)
    unfold admin_skip_phase. destruct (negb _); [intros [= <-]; exact Hwf|].
    destruct (rooms_get w c); [|discriminate|].
    + apply with_room_wf; [|exact Hwf]. intros x x' H. cbv zeta in H.
      destruct (phase_eqb _ _); keeps_leaf H.
    + intros [= <-]. exact Hwf.
  - (* disconnect *)
    unfold disconnect. destruct (getMyRoom sock w) as [r|]; [|intros [= <-]; exact Hwf].
    unfold bind. destruct (with_room r _ w) as [w1|] eqn:Hw1; [|discriminate].
    apply with_room_wf in Hw1; [|apply keeps_disconnect_room|exact Hwf].
    destruct (heap w1 !! r) as [room|]; [|intros [= <-]; exact Hw1].
    destruct (forallb _ _); intros [= <-]; [|exact Hw1].
    revert Hw1. apply timers_wf_same; reflexivity.
  - (* tick *)
    unfold tick. destruct (timers (env w) !! h) as [t|]; [|intros [= <-]; exact Hwf].
    destruct (negb (live t)); [intros [= <-]; exact Hwf|].
    apply with_room_wf; [|exact Hwf]. intros x x' H. cbv zeta in H.
    destruct (_ <=? 0).
    + destruct (kind t); keeps_leaf H.
    + keeps_leaf H.
  - (* resume *)
    unfold resume. destruct (pending (env w) !! k) as [r|]; [|intros [= <-]; exact Hwf].
    cbv zeta. apply with_room_wf; [intros x x'; apply keeps_nextRound|].
    revert Hwf. apply timers_wf_same; reflexivity.
Qed.

Lemma run_reachable evs : forall w w',
  reachable w -> run evs w = Ok w' -> reachable w'.
Proof.
  induction evs as [|[orc ev] evs IH]; intros w w' Hr; cbn.
  - intros [= <-]. exact Hr.
  - destruct (step orc ev w) as [w1|] eqn:Hs; [|discriminate]. cbn.
    apply IH. eapply reachable_step; eauto.
Qed.

Lemma reachable_timers_wf w : reachable w -> timers_wf w.
Proof.
  induction 1 as [|w orc ev w' _ IH Hstep].
  - split; intros ? ?; cbn; intros H; rewrite lookup_nil in H; discriminate.
  - eapply step_timers_wf; eauto.
Qed.

Lemma liveTimersOf_spec r w h :
  h ∈ liveTimersOf r w <->
  exists t, timers (env w) !! h = Some t /\ live t = true /\ owner t = r.
Proof.
  unfold liveTimersOf. rewrite list_elem_of_In, filter_In, <- list_elem_of_In, elem_of_seq.
  split.
  - intros [_ H]. destruct (timers (env w) !! h) as [t|]; [|discriminate].
    apply andb_prop in H as [Hl Ho]. apply Nat.eqb_eq in Ho. eauto.
  - intros (t & Ht & Hl & Ho). rewrite Ht, Hl. split.
    + apply lookup_lt_Some in Ht. lia.
    + apply Nat.eqb_eq in Ho. rewrite Ho. reflexivity.
Qed.

Lemma NoDup_filter_list {A} (f : A -> bool) l : NoDup l -> NoDup (List.filter f l).
Proof.
  induction 1 as [|a l Ha Hl IH]; cbn; [constructor|].
  destruct (f a); [|exact IH]. constructor; [|exact IH].
  rewrite list_elem_of_In, filter_In, <- list_elem_of_In. tauto.
Qed.

Lemma setPhase_timers self ph d x :
  timers (setPhase self ph d x).2 =
  (match timerInterval x.1 with
   | Some h => alter (fun t => mkTimer (owner t) (kind t) false) h (timers x.2)
   | None => timers x.2
   end ++ if 0 <? d then [mkTimer self PhaseTimer true] else [])%list.
Proof.
  destruct x as [room e]. unfold setPhase, clearTimer, clearInterval. cbn.
  destruct (timerInterval room); destruct (phase_eqb ph LOBBY);
    destruct (0 <? d); cbn; rewrite ?app_nil_r; reflexivity.
Qed.

Lemma setPhase_cancels self ph d x h t :
  timerInterval x.1 = Some h -> (h < length (timers x.2))%nat ->
  timers (setPhase self ph d x).2 !! h = Some t -> live t = false.
Proof.
  intros Hh Hlt. rewrite setPhase_timers, Hh.
  rewrite lookup_app_l by (rewrite length_alter; exact Hlt).
  rewrite list_lookup_alter_eq. destruct (timers x.2 !! h); cbn; [|discriminate].
  intros [= <-]. reflexivity.
Qed.

Lemma startTurn_loop_cancels self rest : forall x h t,
  timerInterval x.1 = Some h -> (h < length (timers x.2))%nat ->
  timers (startTurn_loop self rest x).2 !! h = Some t -> live t = false.
Proof.
  induction rest as [|w rest IH]; intros x h t Hh Hlt; cbn [startTurn_loop]; cbv zeta.
  - apply (setPhase_cancels self DISCUSSING 120 x h t Hh Hlt).
  - assert (Hskip : timers (startTurn_loop self rest
              (on_state (fun s => set_turnIndex (S (turnIndex s)) s) x)).2 !! h
              = Some t -> live t = false) by (apply IH; assumption).
    destruct (List.find (has_id w) (players x.1)) as [cw|]; [|exact Hskip].
    destruct (isOffline cw); [exact Hskip|].
    unfold clearTimer, clearInterval. cbn. rewrite Hh. cbn.
    rewrite lookup_app_l by (rewrite length_alter; exact Hlt).
    rewrite list_lookup_alter_eq. destruct (timers x.2 !! h); cbn; [|discriminate].
    intros [= <-]. reflexivity.
Qed.

(** C3: in every state the server can reach, a room object has either no
    live countdown timer or exactly one, the one whose handle the room
    stores in [timerInterval].  [setPhase] and [startTurn] keep it so
    because they cancel the stored handle before they arm: the timer that
    was stored when either is called is not live when it returns. *)
Theorem one_live_timer_per_room w r :
  reachable w ->
  (liveTimersOf r w = []
   \/ exists room h, heap w !! r = Some room /\ timerInterval room = Some h
                     /\ liveTimersOf r w = [h])
  /\ (forall room ph d h t,
        heap w !! r = Some room -> timerInterval room = Some h ->
        timers (setPhase r ph d (room, env w)).2 !! h = Some t ->
        live t = false)
  /\ (forall room x' h t,
        heap w !! r = Some room -> timerInterval room = Some h ->
        startTurn r (room, env w) = Ok x' ->
        timers x'.2 !! h = Some t -> live t = false).
Proof.
  intros Hr. apply reachable_timers_wf in Hr as [W1 W2].
  assert (Hstored : forall h, h ∈ liveTimersOf r w ->
            exists room, heap w !! r = Some room /\ timerInterval room = Some h).
  { intros h Hh. apply liveTimersOf_spec in Hh as (t & Ht & Hl & <-). eauto. }
  assert (Hin : forall room h, heap w !! r = Some room ->
            timerInterval room = Some h -> (h < length (timers (env w)))%nat).
  { intros room h Hroom Hh. destruct (W1 r room Hroom h Hh) as (t & Ht & _).
    eapply lookup_lt_Some; eauto. }
  split; [|split].
  - assert (Hnd : NoDup (liveTimersOf r w)).
    { apply NoDup_filter_list, NoDup_seq. }
    destruct (liveTimersOf r w) as [|h1 [|h2 l]]; [left; reflexivity| |].
    + right. destruct (Hstored h1) as (room & Hroom & H1); [apply elem_of_cons; auto|].
      exists room, h1. auto.
    + exfalso.
      destruct (Hstored h1) as (room & Hroom & H1); [apply elem_of_cons; auto|].
      destruct (Hstored h2) as (room' & Hroom' & H2).
      { apply elem_of_cons; right; apply elem_of_cons; auto. }
      apply NoDup_cons in Hnd as [Hnot _]. apply Hnot.
      rewrite Hroom in Hroom'. injection Hroom' as <-. rewrite H1 in H2.
      injection H2 as <-. apply elem_of_cons. auto.
  - intros room ph d h t Hroom Hh.
    apply (setPhase_cancels r ph d (room, env w) h t Hh (Hin room h Hroom Hh)).
  - intros room x' h t Hroom Hh. unfold startTurn. cbn [fst].
    destruct (turnOrder (state room)); [|discriminate]. intros [= <-].
    apply (startTurn_loop_cancels r _ (room, env w) h t Hh (Hin room h Hroom Hh)).
Qed.

(** The room of the sample run, in VOTING with its voting timer. *)
Lemma one_live_timer_per_room_witness :
  reachable (after run_voting)
  /\ (liveTimersOf 0 (after run_voting) = []
      \/ exists room h, heap (after run_voting) !! 0%nat = Some room
                        /\ timerInterval room = Some h
                        /\ liveTimersOf 0 (after run_voting) = [h]).
Proof.
  assert (Hr : reachable (after run_voting)).
  { apply (run_reachable run_voting initial); [constructor|].
    vm_compute. reflexivity. }
  split; [exact Hr|].
  exact (proj1 (one_live_timer_per_room (after run_voting) 0 Hr)).
Defined.

(** ** The match-winner award *)

Lemma foldl_max_spec l : forall a,
  a <= foldl Z.max a l
  /\ Forall (fun b => b <= foldl Z.max a l) l
  /\ (foldl Z.max a l = a \/ foldl Z.max a l ∈ l).
Proof.
  induction l as [|b l IH]; intros a; cbn.
  - split; [lia|]. split; [constructor|]. left. reflexivity.
  - destruct (IH (Z.max a b)) as (Hle & Hall & Hin).
    split; [lia|]. split; [constructor; [lia|exact Hall]|].
    destruct Hin as [Heq|Hin].
    + destruct (Z.max_spec a b) as [[_ Hm]|[_ Hm]].
      * right. rewrite Heq, Hm. apply elem_of_cons. auto.
      * left. rewrite Heq, Hm. reflexivity.
    + right. apply elem_of_cons. auto.
Qed.

(** The players the code selects are the players with the highest score. *)
Lemma winners_tied p ps :
  List.filter (fun q => score q =? foldl Z.max (score p) (map score ps)) (p :: ps)
  = List.filter (tiedAtMax (p :: ps)) (p :: ps).
Proof.
  destruct (foldl_max_spec (map score ps) (score p)) as (Hle & Hall & Hin).
  set (M := foldl Z.max (score p) (map score ps)) in *.
  assert (Hbound : forall q, q ∈ p :: ps -> score q <= M).
  { intros q Hq. apply elem_of_cons in Hq as [->|Hq]; [exact Hle|].
    rewrite Forall_forall in Hall. apply Hall. apply list_elem_of_fmap. eauto. }
  assert (Hreached : exists q, q ∈ p :: ps /\ score q = M).
  { destruct Hin as [Heq|Hin].
    - exists p. split; [apply elem_of_cons; auto|]. symmetry. exact Heq.
    - apply list_elem_of_fmap in Hin as (q & Hq & Hin). exists q.
      split; [apply elem_of_cons; auto|]. symmetry. exact Hq. }
  apply filter_ext_in. intros q Hq. apply list_elem_of_In in Hq.
  unfold tiedAtMax. destruct (Z.eqb_spec (score q) M) as [Heq|Hne].
  - symmetry. apply forallb_forall. intros q' Hq'. apply list_elem_of_In in Hq'.
    apply Z.leb_le. rewrite Heq. apply Hbound. exact Hq'.
  - symmetry. apply not_true_is_false. intros Hall'.
    rewrite forallb_forall in Hall'. destruct Hreached as (q' & Hq' & HM).
    apply list_elem_of_In in Hq'. specialize (Hall' q' Hq').
    apply Z.leb_le in Hall'. specialize (Hbound q Hq). lia.
Qed.

Lemma winners_nonempty p ps : List.filter (tiedAtMax (p :: ps)) (p :: ps) <> [].
Proof.
  rewrite <- winners_tied.
  destruct (foldl_max_spec (map score ps) (score p)) as (_ & _ & Hin).
  set (M := foldl Z.max (score p) (map score ps)) in *.
  assert (Hreached : exists q, q ∈ p :: ps /\ score q = M).
  { destruct Hin as [Heq|Hin].
    - exists p. split; [apply elem_of_cons; auto|]. symmetry. exact Heq.
    - apply list_elem_of_fmap in Hin as (q & Hq & Hin). exists q.
      split; [apply elem_of_cons; auto|]. symmetry. exact Hq. }
  destruct Hreached as (q & Hq & HM). intros Hnil.
  assert (Hq' : In q (List.filter (fun q => score q =? M) (p :: ps))).
  { apply filter_In. split; [apply list_elem_of_In; exact Hq|]. apply Z.eqb_eq. exact HM. }
  rewrite Hnil in Hq'. destruct Hq'.
Qed.

Lemma notify_all l : forall x : St,
  foldl (fun y winner => notifyVecbotWinner (trim (username winner)) y) x l
  = (x.1, mkEnv (timers x.2) (pending x.2) (out x.2 ++ notified l)%list).
Proof.
  unfold notified.
  induction l as [|p l IH]; intros [room [ts pd o]]; cbn.
  - rewrite app_nil_r. reflexivity.
  - rewrite IH. unfold notifyVecbotWinner.
    destruct (truthy (trim (username p))); cbn; [|reflexivity].
    rewrite <- app_assoc. reflexivity.
Qed.

Lemma filter_filter_list {A} (f g : A -> bool) l :
  List.filter f (List.filter g l) = List.filter (fun a => (g a && f a)%bool) l.
Proof.
  induction l as [|a l IH]; cbn; [reflexivity|].
  destruct (g a); cbn; [destruct (f a)|]; rewrite IH; reflexivity.
Qed.

Lemma awardMatchWinners_first x :
  winnerAwardSent (state x.1) = false ->
  awardMatchWinners x =
  match players x.1 with
  | [] => x
  | _ =>
      (set_state (set_winnerAwardSent true (state x.1)) x.1,
       mkEnv (timers x.2) (pending x.2)
         (out x.2 ++
          map (fun p => VecbotWin (trim (username p)))
            (List.filter
               (fun p => (tiedAtMax (players x.1) p
                          && truthy (trim (username p)))%bool)
               (players x.1)))%list)
  end.
Proof.
  intros Hsent. unfold awardMatchWinners. rewrite Hsent.
  destruct (players x.1) as [|p ps] eqn:Hps; [reflexivity|]. cbv zeta.
  rewrite winners_tied. pose proof (winners_nonempty p ps) as Hne.
  destruct (List.filter (tiedAtMax (p :: ps)) (p :: ps)) as [|q qs] eqn:Hw;
    [congruence|].
  rewrite notify_all. unfold notified. rewrite <- Hw, filter_filter_list.
  reflexivity.
Qed.




(** ** Joining a room *)










Lemma toUpperCase_idempotent s : toUpperCase (toUpperCase s) = toUpperCase s.
Proof.
  induction s as [|c s IH]; cbn; [reflexivity|]. rewrite IH. f_equal.
  destruct c as [[] [] [] [] [] [] [] []]; reflexivity.
Qed.

(** An upper-cased code never names an inherited member of [rooms]. *)
Lemma proto_key_upper s : proto_key (toUpperCase s) = false.
Proof.
  apply not_true_is_false. intros H. unfold proto_key in H.
  apply existsb_exists in H as (k & Hk & Heq). apply String.eqb_eq in Heq.
  pose proof (toUpperCase_idempotent s) as Hid. rewrite Heq in Hid.
  cbn in Hk. repeat (destruct Hk as [<-|Hk]; [discriminate Hid|]). destruct Hk.
Qed.




Lemma with_room_ok r f w room x' :
  heap w !! r = Some room -> f (room, env w) = Ok x' ->
  with_room r f w = Ok (mkWorld (<[r := x'.1]> (heap w)) (rooms w) x'.2).
Proof. intros Hr Hf. unfold with_room. rewrite Hr, Hf. reflexivity. Qed.



(** The two rejections of a join leave the server as it was, apart from
    the error sent to the requesting connection. *)
Lemma join_room_rejects w sock user c r room :
  truthy c = true ->
  rooms_get w (toUpperCase c) = Own r ->
  heap w !! r = Some room ->
  (12 <= length (players room))%nat \/ isTaken user (players room) = true ->
  exists e,
    join_room sock user c w =
    Ok (mkWorld (heap w) (rooms w)
          (mkEnv (timers (env w)) (pending (env w))
             (out (env w) ++ [EmitError sock e])%list)).
Proof.
  intros Hc Hget Hroom Hrej. unfold join_room, with_room.
  rewrite Hc, Hget, Hroom. cbn [negb fst].
  destruct (Nat.leb_spec 12 (length (players room))) as [Hfull|Hlt].
  - exists ErrRoomFull. cbn. rewrite list_insert_id by exact Hroom. reflexivity.
  - destruct Hrej as [Hfull|Htaken]; [lia|]. rewrite Htaken.
    exists ErrNameTaken. cbn. rewrite list_insert_id by exact Hroom. reflexivity.
Qed.

(** No join touches a timer or the phase state of a room. *)
Lemma join_room_leaves_timers w w' sock user c :
  join_room sock user c w = Ok w' ->
  timers (env w') = timers (env w)
  /\ forall r room', heap w' !! r = Some room' ->
       exists room, heap w !! r = Some room
         /\ state room' = state room
         /\ timerInterval room' = timerInterval room.
Proof.
  unfold join_room. destruct (negb (truthy c)).
  { intros [= <-]. split; [reflexivity|]. eauto. }
  destruct (rooms_get w (toUpperCase c)) as [r| |]; [|discriminate|].
  2:{ intros [= <-]. split; [reflexivity|]. eauto. }
  unfold with_room. destruct (heap w !! r) as [room|] eqn:Hroom.
  2:{ intros [= <-]. split; [reflexivity|]. eauto. }
  cbn [fst].
  assert (Hkeep : forall x' : St,
            timers x'.2 = timers (env w) -> state x'.1 = state room ->
            timerInterval x'.1 = timerInterval room ->
            timers (env (mkWorld (<[r := x'.1]> (heap w)) (rooms w) x'.2))
              = timers (env w)
            /\ forall r0 room', <[r := x'.1]> (heap w) !! r0 = Some room' ->
                 exists room0, heap w !! r0 = Some room0
                   /\ state room' = state room0
                   /\ timerInterval room' = timerInterval room0).
  { intros x' Ht Hs Hi. split; [exact Ht|]. intros r0 room' Hr0.
    destruct (decide (r = r0)) as [<-|Hne].
    - rewrite list_lookup_insert_eq in Hr0 by (eapply lookup_lt_Some; eauto).
      injection Hr0 as <-. eauto.
    - rewrite list_lookup_insert_ne in Hr0 by exact Hne. eauto. }
  destruct (12 <=? _)%nat; [|destruct (isTaken _ _)];
    intros [= <-];
    lazymatch goal with
    | |- timers (env (mkWorld (<[r := ?a]> _) _ ?b)) = _ /\ _ =>
        apply (Hkeep (a, b)); reflexivity
    end.
Qed.

(** C5, the failing input: Bob creates a room under the name "Bob " and a
    second connection joins under the very same name.  The join is
    accepted without an error reply and the room holds two players with
    identical names. *)
Theorem join_room_same_name_accepted :
  exists w, run run_same_name initial = Ok w
    /\ map (fun room => map username (players room)) (heap w) = [["Bob "; "Bob "]]
    /\ errorsOf (out (env w)) = [].
Proof. eexists. split; [vm_compute; reflexivity|]. split; reflexivity. Qed.

(** C7, the failing input: two ready players have the 4-second countdown
    running when a third player joins, not ready.  The countdown is not
    cancelled: the phase is LOBBY with the timer still at 4 and its
    interval live; four ticks later the match starts with the unready
    player dealt in. *)
Theorem join_room_leaves_countdown :
  exists w room,
    run run_countdown_join initial = Ok w
    /\ heap w !! 0%nat = Some room
    /\ phase (state room) = LOBBY
    /\ timer (state room) = 4
    /\ liveTimersOf 0 w = [0%nat]
    /\ map (fun p => (id p, isReady p)) (players room)
       = [("a", true); ("b", true); ("c", false)]
    /\ exists w' room',
         run run_start w = Ok w'
         /\ heap w' !! 0%nat = Some room'
         /\ phase (state room') = WRITING
         /\ map (fun p => (id p, role p)) (players room')
            = [("a", Some innocent); ("b", Some impostor); ("c", Some innocent)].
Proof.
  eexists _, _. split; [vm_compute; reflexivity|].
  split; [reflexivity|]. split; [reflexivity|]. split; [reflexivity|].
  split; [reflexivity|]. split; [reflexivity|].
  eexists _, _. split; [vm_compute; reflexivity|].
  split; [reflexivity|]. split; reflexivity.
Qed.

(** ** Connections that drop or intrude during VOTING *)

Lemma join_room_total sock user c w : exists w', join_room sock user c w = Ok w'.
Proof.
  unfold join_room. destruct (negb (truthy c)); [eauto|].
  unfold rooms_get. rewrite proto_key_upper.
  destruct (reg_lookup (rooms w) (toUpperCase c)) as [r|]; [|eauto].
  unfold with_room. destruct (heap w !! r) as [room|]; [|eauto]. cbn [fst].
  destruct (12 <=? _)%nat; [eauto|]. destruct (isTaken _ _); eauto.
Qed.



Lemma clearTimer_room x : (clearTimer x).1 = x.1.
Proof. unfold clearTimer. destruct (timerInterval x.1); reflexivity. Qed.





(** A vote from a connection that is not in the room throws, whatever
    the target. *)
Lemma submit_vote_non_member w sock c targetId r room :
  rooms_get w c = Own r -> heap w !! r = Some room ->
  phase (state room) = VOTING ->
  findIndex (has_id sock) (players room) = None ->
  submit_vote sock c targetId w = Throw.
Proof.
  intros Hget Hroom Hph Hnone. unfold submit_vote, with_room.
  rewrite Hget, Hroom. cbn [fst]. rewrite Hph, Hnone. reflexivity.
Qed.

(** C9, the failing input: the sample room is in VOTING with players "a"
    and "b"; connection "z", which is in no room, sends submit_vote with
    the room's code.  The handler dereferences the player it did not find
    and throws. *)
Theorem submit_vote_stranger_throws :
  (exists w room,
     run run_voting initial = Ok w
     /\ rooms_get w "ABCDE" = Own 0
     /\ heap w !! 0%nat = Some room
     /\ phase (state room) = VOTING
     /\ map id (players room) = ["a"; "b"]
     /\ submit_vote "z" "ABCDE" (Some "a") w = Throw)
  /\ run run_stranger_vote initial = Throw.
Proof.
  split; [|vm_compute; reflexivity].
  eexists _, _. split; [vm_compute; reflexivity|].
  repeat (split; [reflexivity|]). reflexivity.
Qed.

(** ** Room creation and the registry *)

Lemma reg_lookup_set_eq c r reg : reg_lookup (reg_set c r reg) c = Some r.
Proof.
  unfold reg_lookup. induction reg as [|[c' r'] reg IH]; cbn.
  - rewrite String.eqb_refl. reflexivity.
  - destruct (String.eqb c' c) eqn:E; cbn.
    + rewrite String.eqb_refl. reflexivity.
    + rewrite E. exact IH.
Qed.

Lemma reg_lookup_set_ne c c' r reg :
  c' <> c -> reg_lookup (reg_set c r reg) c' = reg_lookup reg c'.
Proof.
  intros Hne. unfold reg_lookup. induction reg as [|[c0 r0] reg IH]; cbn.
  - destruct (String.eqb_spec c c'); [congruence|reflexivity].
  - destruct (String.eqb_spec c0 c) as [->|Hc0]; cbn.
    + destruct (String.eqb_spec c c'); [congruence|reflexivity].
    + destruct (String.eqb c0 c'); [reflexivity|exact IH].
Qed.

(** C8 as stated fails: the generator returns ABCDE while a room ABCDE,
    with Ann and Bob in it, is registered.  No second code is drawn: the
    registry entry is overwritten with the new room, which holds only Cem,
    and the room of Ann and Bob is no longer registered under any code. *)
Lemma create_room_collision_overwrites :
  exists w1 w2 old new,
    run (take 2 run_collision) initial = Ok w1
    /\ run run_collision initial = Ok w2
    /\ rooms_get w1 "ABCDE" = Own 0 /\ rooms_get w2 "ABCDE" = Own 1
    /\ rooms_get w2 "ABCDE" <> rooms_get w1 "ABCDE"
    /\ rooms w2 = [("ABCDE", 1%nat)]
    /\ heap w1 !! 0%nat = Some old /\ map id (players old) = ["a"; "b"]
    /\ heap w2 !! 1%nat = Some new /\ map id (players new) = ["c"].
Proof.
  eexists _, _, _, _. split; [vm_compute; reflexivity|].
  split; [vm_compute; reflexivity|].
  split; [reflexivity|]. split; [reflexivity|]. split; [discriminate|].
  repeat (split; [reflexivity|]). reflexivity.
Qed.

(** C8, amended: a create-room request draws one code and registers the
    new room, a LOBBY room whose only player is its creator, under that
    code without looking for a collision.  Every registry entry under
    another code and every existing room object is untouched; so no
    existing room is replaced when the drawn code is not yet registered. *)
Theorem create_room_registers sock user isPublic_in rounds_in random w :
  exists w' room,
    create_room sock user isPublic_in rounds_in random w = Ok w'
    /\ rooms_get w' (generateRoomCode random) = Own (length (heap w))
    /\ heap w' !! length (heap w) = Some room
    /\ code room = generateRoomCode random
    /\ players room = [newPlayer sock user true]
    /\ ownerId room = sock
    /\ phase (state room) = LOBBY
    /\ (forall c, c <> generateRoomCode random -> rooms_get w' c = rooms_get w c)
    /\ (forall r old, heap w !! r = Some old -> heap w' !! r = Some old)
    /\ (reg_lookup (rooms w) (generateRoomCode random) = None ->
        forall c r, reg_lookup (rooms w) c = Some r ->
          reg_lookup (rooms w') c = Some r).
Proof.
  unfold create_room. cbv zeta. eexists _, _. split; [reflexivity|].
  split; [|split; [|split; [|split; [|split; [|split; [|split; [|split]]]]]]].
  - unfold rooms_get. cbn [rooms]. rewrite reg_lookup_set_eq. reflexivity.
  - cbn [heap]. rewrite lookup_app_r, Nat.sub_diag by lia. reflexivity.
  - reflexivity.
  - reflexivity.
  - reflexivity.
  - reflexivity.
  - intros c Hc. unfold rooms_get. cbn [rooms].
    rewrite reg_lookup_set_ne by exact Hc. reflexivity.
  - intros r old Hr. cbn [heap]. rewrite lookup_app_l; [exact Hr|].
    eapply lookup_lt_Some; eauto.
  - intros Hfresh c r Hc. cbn [rooms]. rewrite reg_lookup_set_ne; [exact Hc|].
    intros ->. congruence.
Qed.

(** * Further properties *)

(** ** The turn sequencer *)

Lemma setPhase_armed self ph d x :
  0 < d ->
  timers (setPhase self ph d x).2 !! length (timers x.2)
  = Some (mkTimer self PhaseTimer true).
Proof.
  intros Hd. rewrite setPhase_timers.
  destruct (Z.ltb_spec 0 d) as [_|Hle]; [|lia].
  destruct (timerInterval x.1);
    rewrite lookup_app_r; rewrite ?length_alter, ?Nat.sub_diag; try lia; reflexivity.
Qed.

Lemma rearm_armed self k (x : St) :
  timers (armTimer self k (clearTimer x)).2 !! length (timers x.2)
  = Some (mkTimer self k true)
  /\ timerInterval (armTimer self k (clearTimer x)).1 = Some (length (timers x.2)).
Proof.
  unfold armTimer, clearTimer, clearInterval.
  destruct (timerInterval x.1); cbn;
    rewrite lookup_app_r; rewrite ?length_alter, ?Nat.sub_diag; try lia; auto.
Qed.

Lemma clearTimer_armTimer_room self k (x : St) :
  (armTimer self k (clearTimer x)).1
  = set_timerInterval (Some (length (timers x.2))) x.1.
Proof.
  unfold armTimer, clearTimer, clearInterval.
  destruct (timerInterval x.1); cbn; rewrite ?length_alter; reflexivity.
Qed.

Lemma startTurn_loop_sequenced self rest : forall x,
  exists k, sequenced self rest x (startTurn_loop self rest x) k.
Proof.
  induction rest as [|w rest IH]; intros x.
  - exists 0%nat. cbn [startTurn_loop]. cbv zeta. unfold sequenced.
    cbn [broadcastPlayerList emit on_players on_room fst snd players set_players
         state timerInterval timers].
    rewrite setPhase_room, (setPhase_armed self DISCUSSING 120 x) by lia.
    cbn. split; [lia|]. split; [lia|]. split; [reflexivity|].
    split; [intros j w' Hj; lia|]. split; [reflexivity|]. right. auto.
  - cbn [startTurn_loop]. cbv zeta.
    assert (Hskip : seated (players x.1) w = false ->
      exists k, sequenced self (w :: rest) x
        (startTurn_loop self rest
           (on_state (fun s => set_turnIndex (S (turnIndex s)) s) x)) k).
    { intros Hw.
      destruct (IH (on_state (fun s => set_turnIndex (S (turnIndex s)) s) x))
        as (k & Hk & Hidx & Hord & Hbefore & Hint & Hend).
      exists (S k). unfold sequenced. cbn [length]. split; [lia|].
      split; [rewrite Hidx; cbn; lia|]. split; [exact Hord|].
      split.
      { intros [|j] w' Hj Hl; cbn in Hl; [congruence|].
        apply (Hbefore j w'); [lia|exact Hl]. }
      split; [exact Hint|].
      destruct Hend as [(w' & Hl & Hs & Hrest)|(Hlen & Hrest)].
      - left. exists w'. split; [exact Hl|]. split; [exact Hs|]. exact Hrest.
      - right. split; [lia|]. exact Hrest. }
    unfold seated in Hskip.
    destruct (List.find (has_id w) (players x.1)) as [cw|] eqn:Hfind;
      [|apply Hskip; reflexivity].
    destruct (isOffline cw) eqn:Hoff; [apply Hskip; reflexivity|].
    exists 0%nat. unfold sequenced.
    assert (Hseat : seated (players x.1) w = true).
    { unfold seated. rewrite Hfind, Hoff. reflexivity. }
    destruct (rearm_armed self TurnTimer (broadcastState (on_state (set_timer 30) x)))
      as [Harm Hint].
    cbn [broadcastState emit on_state on_room fst snd timers] in Harm, Hint.
    split; [cbn; lia|]. split; [rewrite clearTimer_armTimer_room; cbn; lia|].
    split; [rewrite clearTimer_armTimer_room; reflexivity|].
    split; [intros j w' Hj; lia|]. split; [exact Hint|].
    left. exists w. split; [reflexivity|]. split; [exact Hseat|].
    rewrite !clearTimer_armTimer_room. split; [reflexivity|]. split; [reflexivity|].
    split; [reflexivity|]. exact Harm.
Qed.


Lemma advanceTurn_advances self x order :
  turnOrder (state x.1) = Some order ->
  exists x', advanceTurn self x = Ok x'
    /\ (turnIndex (state x.1) < turnIndex (state x'.1))%nat
    /\ turnOrder (state x'.1) = Some order
    /\ map (set_hasSkippedDiscussion false) (players x'.1)
       = map (set_hasSkippedDiscussion false) (players x.1)
    /\ (phase (state x'.1) = phase (state x.1) \/ phase (state x'.1) = DISCUSSING).
Proof.
  intros Hord. unfold advanceTurn, startTurn.
  cbn [on_state on_room fst state set_state turnOrder set_turnIndex turnIndex].
  rewrite Hord.
  destruct (startTurn_loop_sequenced self (drop (S (turnIndex (state x.1))) order)
              (on_state (fun s => set_turnIndex (S (turnIndex s)) s) x))
    as (k & _ & Hidx & Ho & _ & _ & Hend).
  eexists. split; [reflexivity|]. cbn in Hidx, Ho. split; [lia|].
  split; [congruence|].
  destruct Hend as [(w & _ & _ & Hp & _ & Hps & _)|(_ & Hp & _ & Hps & _)].
  - cbn in Hps, Hp. rewrite Hps. auto.
  - cbn in Hps. rewrite Hps.
    rewrite <- list_fmap_compose. split; [|auto].
    apply list_fmap_ext. intros _ p _. reflexivity.
Qed.




(** ** Player actions: words and kicks *)

Lemma world_eta w : mkWorld (heap w) (rooms w) (env w) = w.
Proof. destruct w. reflexivity. Qed.

Lemma with_room_same r f w room :
  heap w !! r = Some room -> f (room, env w) = Ok (room, env w) ->
  with_room r f w = Ok w.
Proof.
  intros Hr Hf. rewrite (with_room_ok r f w room _ Hr Hf). cbn [fst snd].
  rewrite list_insert_id by exact Hr. rewrite world_eta. reflexivity.
Qed.

Lemma with_room_lookup r f w room x' :
  heap w !! r = Some room -> f (room, env w) = Ok x' ->
  exists w', with_room r f w = Ok w' /\ heap w' !! r = Some x'.1
    /\ env w' = x'.2 /\ rooms w' = rooms w.
Proof.
  intros Hr Hf. rewrite (with_room_ok r f w room _ Hr Hf).
  eexists. split; [reflexivity|]. cbn. split; [|auto].
  apply list_lookup_insert_eq. eapply lookup_lt_Some; eauto.
Qed.

Lemma startTurn_loop_out self rest : forall x,
  exists l, out (startTurn_loop self rest x).2 = (out x.2 ++ l)%list.
Proof.
  induction rest as [|w rest IH]; intros x; cbn [startTurn_loop]; cbv zeta.
  - cbn [broadcastPlayerList emit on_players on_room fst snd out].
    rewrite setPhase_out. rewrite <- app_assoc. eauto.
  - assert (Hskip : exists l, out (startTurn_loop self rest
              (on_state (fun s => set_turnIndex (S (turnIndex s)) s) x)).2
              = (out x.2 ++ l)%list).
    { apply (IH (on_state (fun s => set_turnIndex (S (turnIndex s)) s) x)). }
    destruct (List.find (has_id w) (players x.1)) as [cw|]; [|exact Hskip].
    destruct (isOffline cw); [exact Hskip|].
    unfold armTimer, clearTimer, clearInterval. cbn.
    destruct (timerInterval x.1); cbn; eauto.
Qed.

Lemma advanceTurn_out self x x' :
  advanceTurn self x = Ok x' -> exists l, out x'.2 = (out x.2 ++ l)%list.
Proof.
  unfold advanceTurn, startTurn. cbn -[startTurn_loop].
  destruct (turnOrder (state x.1)); [|discriminate]. intros [= <-].
  apply (startTurn_loop_out self _
           (on_state (fun s => set_turnIndex (S (turnIndex s)) s) x)).
Qed.

Lemma map_word_skipflag ps qs :
  map (set_hasSkippedDiscussion false) ps = map (set_hasSkippedDiscussion false) qs ->
  map word ps = map word qs /\ map id ps = map id qs.
Proof.
  intros H. split.
  - apply (f_equal (map word)) in H. rewrite <- !list_fmap_compose in H. exact H.
  - apply (f_equal (map id)) in H. rewrite <- !list_fmap_compose in H. exact H.
Qed.

(** X2: [submit_word] changes nothing at all when the room is unknown,
    when the room is not in WRITING, when it is another player's turn, or
    when the sender is not in the roster.  From the seated writer it is
    accepted: the word is stored on that player, the roster is otherwise
    the same, and the turn index moves strictly forward, so the same turn
    cannot take a second word. *)
Theorem submit_word_in_turn_only w sock c w_in :
  (rooms_get w c = Absent -> submit_word sock c w_in w = Ok w)
  /\ (forall r room,
        rooms_get w c = Own r -> heap w !! r = Some room ->
        phase (state room) <> WRITING ->
        submit_word sock c w_in w = Ok w)
  /\ (forall r room order,
        rooms_get w c = Own r -> heap w !! r = Some room ->
        phase (state room) = WRITING -> turnOrder (state room) = Some order ->
        order !! turnIndex (state room) <> Some sock
        \/ findIndex (has_id sock) (players room) = None ->
        submit_word sock c w_in w = Ok w)
  /\ (forall r room order i,
        rooms_get w c = Own r -> heap w !! r = Some room ->
        phase (state room) = WRITING -> turnOrder (state room) = Some order ->
        order !! turnIndex (state room) = Some sock ->
        findIndex (has_id sock) (players room) = Some i ->
        exists w' room',
          submit_word sock c w_in w = Ok w'
          /\ heap w' !! r = Some room'
          /\ word <$> players room' !! i = Some w_in
          /\ (forall j, j <> i ->
                word <$> players room' !! j = word <$> players room !! j)
          /\ map id (players room') = map id (players room)
          /\ (turnIndex (state room) < turnIndex (state room'))%nat
          /\ (phase (state room') = WRITING \/ phase (state room') = DISCUSSING)).
Proof.
  unfold submit_word. split; [intros ->; reflexivity|]. split; [|split].
  - intros r room Hget Hroom Hph. rewrite Hget.
    apply (with_room_same r _ w room Hroom). cbn [fst].
    destruct (phase (state room)); try reflexivity. congruence.
  - intros r room order Hget Hroom Hph Hord Hno. rewrite Hget.
    apply (with_room_same r _ w room Hroom). cbn [fst].
    rewrite Hph, Hord. cbn [phase_eqb negb].
    destruct (is_string (order !! turnIndex (state room)) sock) eqn:Hs;
      [|reflexivity].
    apply is_string_true in Hs. destruct Hno as [Hno|Hno]; [congruence|].
    cbn [negb]. rewrite Hno. reflexivity.
  - intros r room order i Hget Hroom Hph Hord Hturn Hi. rewrite Hget.
    destruct (advanceTurn_advances r
                (on_players (alter (set_word w_in) i) (room, env w)) order Hord)
      as (x' & Hadv & Hidx & _ & Hps & Hphase).
    destruct (with_room_lookup r
      (fun x =>
         if negb (phase_eqb (phase (state x.1)) WRITING) then Ok x
         else match turnOrder (state x.1) with
              | None => Throw
              | Some order =>
                  if negb (is_string (order !! turnIndex (state x.1)) sock) then Ok x
                  else match findIndex (has_id sock) (players x.1) with
                       | None => Ok x
                       | Some i => advanceTurn r (on_players (alter (set_word w_in) i) x)
                       end
              end) w room x' Hroom) as (w' & Hw' & Hlook & _).
    { cbn [fst]. rewrite Hph, Hord. cbn [phase_eqb negb].
      rewrite (proj2 (is_string_true _ _) Hturn). cbn [negb]. rewrite Hi. exact Hadv. }
    exists w', x'.1. split; [exact Hw'|]. split; [exact Hlook|].
    apply map_word_skipflag in Hps as [Hword Hid]. cbn in Hword, Hid.
    assert (Hp : exists p, players room !! i = Some p).
    { apply findIndex_Some in Hi as [(p & Hp & _) _]. eauto. }
    destruct Hp as [p Hp].
    assert (Hlk : forall j, word <$> players x'.1 !! j
                   = word <$> alter (set_word w_in) i (players room) !! j).
    { intros j. pose proof (f_equal (fun l => l !! j) Hword) as E. cbn beta in E.
      rewrite !list_lookup_fmap in E. exact E. }
    split; [rewrite Hlk, list_lookup_alter_eq, Hp; reflexivity|].
    split; [intros j Hj; rewrite Hlk, list_lookup_alter_ne by congruence; reflexivity|].
    split.
    { rewrite Hid. clear. generalize (players room). intros ps. revert i.
      induction ps as [|q ps IH]; intros [|i]; cbn; f_equal; auto. }
    split; [exact Hidx|]. cbn in Hphase. rewrite Hph in Hphase. exact Hphase.
Qed.

Lemma submit_word_in_turn_only_witness :
  exists room,
    heap (after run_writing) !! 0%nat = Some room
    /\ phase (state room) = WRITING
    /\ exists w' room',
         submit_word "a" "ABCDE" (Some "sky") (after run_writing) = Ok w'
         /\ heap w' !! 0%nat = Some room'
         /\ word <$> players room' !! 0%nat = Some (Some "sky")
         /\ (forall j, j <> 0%nat ->
               word <$> players room' !! j = word <$> players room !! j)
         /\ map id (players room') = map id (players room)
         /\ (turnIndex (state room) < turnIndex (state room'))%nat
         /\ (phase (state room') = WRITING \/ phase (state room') = DISCUSSING).
Proof.
  eexists. split; [vm_compute; reflexivity|]. split; [reflexivity|].
  eapply (proj2 (proj2 (proj2
            (submit_word_in_turn_only (after run_writing) "a" "ABCDE" (Some "sky")))));
    vm_compute; reflexivity.
Defined.

Lemma map_id_filter t ps :
  map id (List.filter (fun p => negb (has_id t p)) ps)
  = List.filter (fun i => negb (String.eqb i t)) (map id ps).
Proof.
  induction ps as [|p ps IH]; cbn; [reflexivity|].
  unfold has_id at 1. destruct (String.eqb (id p) t); cbn; rewrite IH; reflexivity.
Qed.

Lemma clearTimer_out x : out (clearTimer x).2 = out x.2.
Proof. unfold clearTimer. destruct (timerInterval x.1); reflexivity. Qed.

(** X3: [kick_player] does nothing when the room is unknown, when the
    sender is not the room's owner, when the owner targets itself, or
    when the target is not in the roster.  Otherwise it never throws, in
    whatever phase: every player with the target's id is removed, the
    other players stay in their order, and the target is sent [kicked]. *)
Theorem kick_player_owner_only w sock c targetId :
  (rooms_get w c <> Inherited ->
   (forall r, rooms_get w c = Own r ->
      exists room, heap w !! r = Some room
        /\ (ownerId room <> sock \/ targetId = sock
            \/ List.find (has_id targetId) (players room) = None)) ->
   kick_player sock c targetId w = Ok w)
  /\ (forall r room,
        rooms_get w c = Own r -> heap w !! r = Some room ->
        ownerId room = sock -> targetId <> sock ->
        List.find (has_id targetId) (players room) <> None ->
        exists w' room',
          kick_player sock c targetId w = Ok w'
          /\ heap w' !! r = Some room'
          /\ map id (players room')
             = List.filter (fun i => negb (String.eqb i targetId))
                 (map id (players room))
          /\ (targetId ∉ map id (players room'))
          /\ Kicked targetId ∈ out (env w')).
Proof.
  unfold kick_player. split.
  - intros Hni Hguard. destruct (rooms_get w c) as [r| |]; [|congruence|reflexivity].
    destruct (Hguard r eq_refl) as (room & Hroom & Hg).
    apply (with_room_same r _ w room Hroom). cbn [fst].
    destruct (String.eqb_spec (ownerId room) sock) as [Ho|Ho]; [|reflexivity].
    cbn [negb]. destruct (String.eqb_spec targetId sock) as [Ht|Ht]; [reflexivity|].
    destruct Hg as [Hg|[Hg|Hg]]; [congruence..|]. rewrite Hg. reflexivity.
  - intros r room Hget Hroom Ho Ht Hfind. rewrite Hget.
    unfold with_room. rewrite Hroom. cbn [fst].
    rewrite (proj2 (String.eqb_eq _ _) Ho). cbn [negb].
    rewrite (proj2 (String.eqb_neq _ _) Ht).
    destruct (List.find (has_id targetId) (players room)) as [tp|]; [|congruence].
    set (x2 := on_players (List.filter (fun p => negb (has_id targetId p)))
                 (emit (Kicked targetId) (room, env w))).
    assert (Hids : map id (players x2.1)
              = List.filter (fun i => negb (String.eqb i targetId))
                  (map id (players room))) by apply map_id_filter.
    assert (Hgone : forall l, l = List.filter (fun i => negb (String.eqb i targetId))
                         (map id (players room)) -> targetId ∉ l).
    { intros l -> Hin. apply list_elem_of_In, filter_In in Hin as [_ Hin].
      rewrite String.eqb_refl in Hin. discriminate. }
    assert (Hout : Kicked targetId ∈ out x2.2).
    { cbn. apply elem_of_app. right. apply list_elem_of_here. }
    assert (Hlt : (r < length (heap w))%nat) by (eapply lookup_lt_Some; eauto).
    destruct (phase_eqb (phase (state x2.1)) WRITING
              && is_string (currentWriter x2) targetId)%bool eqn:Hcond.
    + apply andb_prop in Hcond as [_ Hcw]. apply is_string_true in Hcw.
      destruct (turnOrder (state x2.1)) as [order|] eqn:Hord.
      2:{ unfold currentWriter in Hcw. rewrite Hord in Hcw. discriminate. }
      destruct (advanceTurn_advances r (clearTimer x2) order) as
        (y & Hadv & _ & _ & Hps & _).
      { rewrite clearTimer_room. exact Hord. }
      rewrite Hadv. cbn [bind]. eexists _, _. split; [reflexivity|].
      cbn [heap env]. rewrite list_lookup_insert_eq by exact Hlt.
      split; [reflexivity|].
      apply map_word_skipflag in Hps as [_ Hid]. rewrite clearTimer_room in Hid.
      cbn [broadcastPublicRooms broadcastPlayerList emit fst snd out].
      split; [rewrite Hid; exact Hids|]. split; [apply Hgone; rewrite Hid; exact Hids|].
      destruct (advanceTurn_out r _ _ Hadv) as [l Hl]. rewrite Hl, clearTimer_out.
      apply elem_of_app. left. apply elem_of_app. left. apply elem_of_app. left.
      exact Hout.
    + cbn [bind]. eexists _, _. split; [reflexivity|].
      cbn [heap env]. rewrite list_lookup_insert_eq by exact Hlt.
      split; [reflexivity|].
      cbn [broadcastPublicRooms broadcastPlayerList emit fst snd out].
      split; [exact Hids|]. split; [apply Hgone; exact Hids|].
      apply elem_of_app. left. apply elem_of_app. left. exact Hout.
Qed.

Lemma kick_player_owner_only_witness :
  exists room,
    heap (after run_writing) !! 0%nat = Some room
    /\ exists w' room',
         kick_player "a" "ABCDE" "b" (after run_writing) = Ok w'
         /\ heap w' !! 0%nat = Some room'
         /\ map id (players room')
            = List.filter (fun i => negb (String.eqb i "b")) (map id (players room))
         /\ ("b" ∉ map id (players room'))
         /\ Kicked "b" ∈ out (env w').
Proof.
  eexists. split; [vm_compute; reflexivity|].
  eapply (proj2 (kick_player_owner_only (after run_writing) "a" "ABCDE" "b"));
    vm_compute; congruence.
Defined.

(** ** The countdown never runs below zero *)

Lemma settles_refl x : settles x x.
Proof. intros H. exact H. Qed.

Lemma settles_trans x y z : settles x y -> settles y z -> settles x z.
Proof. unfold settles. auto. Qed.

Lemma settles_same (x x' : St) :
  timer (state x'.1) = timer (state x.1) ->
  timerInterval x'.1 = timerInterval x.1 ->
  timers x'.2 = timers x.2 ->
  settles x x'.
Proof.
  intros Ht Hi He [H0 H1]. unfold countdown_ok, stored_live in *.
  rewrite Ht, Hi, He. auto.
Qed.

Lemma stored_live_clearTimer x : stored_live (clearTimer x) = false.
Proof.
  unfold stored_live, clearTimer.
  destruct (timerInterval x.1) as [h|] eqn:Hh; cbn; rewrite Hh; [|reflexivity].
  rewrite list_lookup_alter_eq. destruct (timers x.2 !! h); reflexivity.
Qed.

Lemma stored_live_same (x x' : St) :
  timerInterval x'.1 = timerInterval x.1 -> timers x'.2 = timers x.2 ->
  stored_live x' = stored_live x.
Proof. intros Hi He. unfold stored_live. rewrite Hi, He. reflexivity. Qed.

Lemma countdown_quiet (x : St) :
  0 <= timer (state x.1) -> stored_live x = false -> countdown_ok x.
Proof. intros H0 Hq. split; [exact H0|]. rewrite Hq. discriminate. Qed.

Lemma countdown_armTimer self k (x : St) :
  0 < timer (state x.1) -> countdown_ok (armTimer self k x).
Proof. intros H. split; cbn; [lia|auto]. Qed.

Lemma settles_emit o x : settles x (emit o x).
Proof. apply settles_same; reflexivity. Qed.

Lemma settles_on_players f x : settles x (on_players f x).
Proof. apply settles_same; reflexivity. Qed.

Lemma settles_on_state f x :
  (forall s, timer (f s) = timer s) -> settles x (on_state f x).
Proof. intros Hf. apply settles_same; [apply Hf|reflexivity..]. Qed.

Lemma settles_set_ownerId v x : settles x (on_room (set_ownerId v) x).
Proof. apply settles_same; reflexivity. Qed.

Lemma settles_broadcastState x : settles x (broadcastState x).
Proof. apply settles_same; reflexivity. Qed.

Lemma settles_broadcastPlayerList x : settles x (broadcastPlayerList x).
Proof. apply settles_same; reflexivity. Qed.

Lemma settles_broadcastPublicRooms x : settles x (broadcastPublicRooms x).
Proof. apply settles_same; reflexivity. Qed.

Lemma settles_suspend self x : settles x (suspend self x).
Proof. apply settles_same; reflexivity. Qed.

Lemma settles_clearTimer x : settles x (clearTimer x).
Proof.
  intros [H0 _]. apply countdown_quiet; [|apply stored_live_clearTimer].
  rewrite clearTimer_room. exact H0.
Qed.

(** Whatever the state before, [setPhase] leaves the countdown in order. *)
Lemma countdown_setPhase self ph d x : 0 <= d -> countdown_ok (setPhase self ph d x).
Proof.
  intros Hd. unfold setPhase. cbv zeta.
  set (y := on_state (fun s => set_timer d (set_phase ph s)) x).
  assert (Hq : forall z : St, timer (state z.1) = d ->
            timerInterval z.1 = timerInterval (clearTimer y).1 ->
            timers z.2 = timers (clearTimer y).2 ->
            countdown_ok (if 0 <? d then armTimer self PhaseTimer z else z)).
  { intros z Ht Hi He. destruct (Z.ltb_spec 0 d).
    - apply countdown_armTimer. lia.
    - apply countdown_quiet; [lia|].
      rewrite (stored_live_same (clearTimer y) z Hi He).
      apply stored_live_clearTimer. }
  destruct (phase_eqb ph LOBBY); apply Hq;
    try reflexivity; cbn; rewrite clearTimer_room; reflexivity.
Qed.

Lemma settles_setPhase self ph d x : 0 <= d -> settles x (setPhase self ph d x).
Proof. intros Hd _. apply countdown_setPhase. exact Hd. Qed.

Lemma countdown_startTurn_loop self rest : forall x,
  countdown_ok (startTurn_loop self rest x).
Proof.
  induction rest as [|w rest IH]; intros x; cbn [startTurn_loop]; cbv zeta.
  - generalize (countdown_setPhase self DISCUSSING 120 x ltac:(lia)).
    apply settles_trans with (y := on_players (map (set_hasSkippedDiscussion false))
                                     (setPhase self DISCUSSING 120 x)).
    + apply settles_on_players.
    + apply settles_broadcastPlayerList.
  - destruct (List.find (has_id w) (players x.1)) as [cw|]; [|apply IH].
    destruct (isOffline cw); [apply IH|].
    apply countdown_armTimer. rewrite clearTimer_room. cbn. lia.
Qed.

Lemma settles_startTurn_loop self rest x : settles x (startTurn_loop self rest x).
Proof. intros _. apply countdown_startTurn_loop. Qed.

Lemma countdown_advanceTurn self x x' : advanceTurn self x = Ok x' -> countdown_ok x'.
Proof.
  unfold advanceTurn, startTurn. destruct (turnOrder _); [|discriminate].
  intros [= <-]. apply countdown_startTurn_loop.
Qed.

Lemma settles_emits {A} (f : A -> Output) (l : list A) : forall x,
  settles x (foldl (fun y a => emit (f a) y) x l).
Proof.
  induction l as [|a l IH]; intros x; cbn; [apply settles_refl|].
  eapply settles_trans; [apply settles_emit | apply IH].
Qed.

Create HintDb clock.
#[global] Hint Resolve settles_emit settles_on_players settles_on_state
  settles_set_ownerId settles_broadcastState settles_broadcastPlayerList
  settles_broadcastPublicRooms settles_suspend settles_clearTimer
  settles_setPhase settles_startTurn_loop settles_emits : clock.
#[global] Hint Extern 1 (forall s : State, timer _ = timer s) =>
  intros; reflexivity : clock.
#[global] Hint Extern 1 (0 <= _) => lia : clock.

Ltac settles_chain :=
  repeat first
    [ match goal with |- settles ?a ?a => apply settles_refl end
    | eapply settles_trans; [| solve [auto 2 with clock nocore] ] ].

Lemma settles_calculateResults r x : settles x (calculateResults r x).
Proof. unfold calculateResults. cbv zeta. settles_chain. Qed.

Lemma settles_resetMatch x : settles x (resetMatch x).
Proof. unfold resetMatch. cbv zeta. settles_chain. Qed.

Lemma settles_awardMatchWinners x : settles x (awardMatchWinners x).
Proof.
  unfold awardMatchWinners.
  destruct (winnerAwardSent (state x.1)); [apply settles_refl|].
  destruct (players x.1) as [|p ps]; [apply settles_refl|]. cbv zeta.
  destruct (List.filter _ (p :: ps)) as [|q qs]; [apply settles_refl|].
  apply (settles_trans _ (on_state (set_winnerAwardSent true) x));
    [apply settles_on_state; reflexivity|].
  generalize (on_state (set_winnerAwardSent true) x). generalize (q :: qs).
  intros l. induction l as [|a l IH]; intros y; cbn [foldl]; [apply settles_refl|].
  eapply settles_trans; [|apply IH].
  unfold notifyVecbotWinner. destruct (truthy _); [apply settles_emit|apply settles_refl].
Qed.

Lemma settles_checkCountdown r x : settles x (checkCountdown r x).
Proof.
  unfold checkCountdown. destruct (allReady _); [apply settles_setPhase; lia|].
  destruct (0 <? _); [apply settles_setPhase; lia|apply settles_refl].
Qed.
#[global] Hint Resolve settles_calculateResults settles_resetMatch
  settles_awardMatchWinners settles_checkCountdown : clock.

Lemma settles_nextRound r orc x x' : nextRound r orc x = Ok x' -> settles x x'.
Proof.
  unfold nextRound. cbv zeta. destruct (_ <? 2)%nat.
  - intros [= <-]. settles_chain.
  - unfold startWritingPhase, startTurn. cbv zeta.
    destruct (turnOrder _); [|discriminate]. intros [= <-] _.
    apply countdown_startTurn_loop.
Qed.

Lemma settles_startGame r orc x x' : startGame r orc x = Ok x' -> settles x x'.
Proof.
  unfold startGame. cbv zeta. destruct (0 <? _).
  - intros [= <-]. settles_chain.
  - intros H. apply settles_nextRound in H.
    eapply settles_trans; [|exact H]. settles_chain.
Qed.

Lemma settles_advanceTurn r x x' : advanceTurn r x = Ok x' -> settles x x'.
Proof. intros H _. eapply countdown_advanceTurn; eauto. Qed.

Lemma settles_handlePhaseTimeout r orc x x' :
  handlePhaseTimeout r orc x = Ok x' -> settles x x'.
Proof.
  unfold handlePhaseTimeout. destruct (phase (state x.1)).
  - apply settles_startGame.
  - intros [= <-]. apply settles_refl.
  - apply settles_advanceTurn.
  - intros [= <-]. settles_chain.
  - intros [= <-]. settles_chain.
  - destruct (round_lt _ _).
    + apply settles_nextRound.
    + intros [= <-]. settles_chain.
  - intros [= <-]. settles_chain.
Qed.

Ltac settles_leaf H :=
  first
    [ injection H as <-; settles_chain
    | eapply settles_trans;
      [| first [ eapply settles_advanceTurn; exact H
               | eapply settles_startGame; exact H
               | eapply settles_handlePhaseTimeout; exact H
               | eapply settles_nextRound; exact H ] ];
      settles_chain ].

Lemma settles_disconnect_room r sock x x' :
  disconnect_room r sock x = Ok x' -> settles x x'.
Proof.
  unfold disconnect_room. cbv zeta. unfold bind.
  destruct (phase_eqb (phase (state x.1)) LOBBY).
  - intros H. keeps_split H; settles_leaf H.
  - destruct (_ && _)%bool.
    + destruct (advanceTurn r _) as [y|] eqn:Hadv; [|discriminate].
      intros H. apply settles_advanceTurn in Hadv.
      apply (settles_trans _ y).
      { eapply settles_trans; [|exact Hadv].
        destruct (findIndex (has_id sock) (players x.1)); settles_chain. }
      keeps_split H; settles_leaf H.
    + intros H.
      destruct (findIndex (has_id sock) (players x.1));
        keeps_split H; settles_leaf H.
Qed.

Lemma with_room_clock r f w w' :
  (forall room x', heap w !! r = Some room -> f (room, env w) = Ok x' ->
     keeps r (room, env w) x' /\ settles (room, env w) x') ->
  timers_wf w -> clock_wf w -> with_room r f w = Ok w' -> clock_wf w'.
Proof.
  intros Hf [W1 W2] Hc. unfold with_room.
  destruct (heap w !! r) as [room|] eqn:Hr; [|intros [= <-]; exact Hc].
  specialize (Hf room).
  destruct (f (room, env w)) as [x'|] eqn:Hfx; [|discriminate].
  intros [= <-].
  assert (Hok : room_timers_ok r (room, env w)).
  { split; [apply W1; exact Hr|].
    intros h t Ht Hlive Ho. destruct (W2 h t Ht Hlive) as (room' & Hroom' & Hh).
    rewrite Ho, Hr in Hroom'. injection Hroom' as <-. exact Hh. }
  destruct (Hf x' eq_refl eq_refl) as [Hk Hs].
  destruct (Hk Hok) as [_ [G1 _]]. cbn in G1.
  assert (Hlt : (r < length (heap w))%nat) by (eapply lookup_lt_Some; eauto).
  intros r' room' Hr'. cbn in Hr'. cbn [env].
  destruct (decide (r = r')) as [<-|Hne].
  - rewrite list_lookup_insert_eq in Hr' by exact Hlt. injection Hr' as <-.
    destruct x'. apply Hs. apply (Hc r room Hr).
  - rewrite list_lookup_insert_ne in Hr' by exact Hne.
    destruct (Hc r' room' Hr') as [H0 H1]. split; [exact H0|].
    intros Hlive. apply H1. revert Hlive. unfold stored_live. cbn.
    destruct (timerInterval room') as [h|] eqn:Hh; [|auto].
    destruct (W1 r' room' Hr' h Hh) as (t & Ht & Hown). cbn in Ht.
    destruct (G1 h t Ht) as (t' & Ht' & _ & Hsame).
    rewrite Ht', Ht, Hsame by congruence. auto.
Qed.

Lemma clock_wf_same w w' :
  heap w' = heap w -> timers (env w') = timers (env w) ->
  clock_wf w -> clock_wf w'.
Proof.
  intros Hh Ht Hc r room. rewrite Hh. intros Hr.
  destruct (Hc r room Hr) as [H0 H1]. split; [exact H0|].
  unfold stored_live in *. cbn in *. rewrite Ht. exact H1.
Qed.

Ltac tight H := split; [keeps_split H; keeps_leaf H | keeps_split H; settles_leaf H].

Lemma step_clock_wf orc ev w w' :
  timers_wf w -> clock_wf w -> step orc ev w = Ok w' -> clock_wf w'.
Proof.
  intros Hwf Hc. destruct ev; cbn [step].
  - (* create_room *)
    unfold create_room. cbv zeta. intros [= <-].
    intros r room Hr. cbn in Hr.
    destruct (decide (r < length (heap w))%nat) as [Hlt|Hge].
    + rewrite lookup_app_l in Hr by exact Hlt.
      generalize (Hc r room Hr). apply settles_same; reflexivity.
    + rewrite lookup_app_r in Hr by lia.
      destruct (r - length (heap w))%nat; [|discriminate].
      injection Hr as <-. apply countdown_quiet; [cbn; lia|reflexivity].
  - (* join_room *)
    unfold join_room. destruct (negb (truthy c)).
    { intros [= <-]. revert Hc. apply clock_wf_same; reflexivity. }
    destruct (rooms_get w (toUpperCase c)); [|discriminate|].
    + apply with_room_clock; [|exact Hwf|exact Hc]. intros room x' _ H. tight H.
    + intros [= <-]. revert Hc. apply clock_wf_same; reflexivity.
  - (* get_public_rooms *)
    intros [= <-]. revert Hc. apply clock_wf_same; reflexivity.
  - (* start_game *)
    unfold start_game. destruct (rooms_get w c); [|discriminate|].
    + apply with_room_clock; [|exact Hwf|exact Hc]. intros room x' _ H.
      split; [eapply keeps_startGame|eapply settles_startGame]; exact H.
    + intros [= <-]. exact Hc.
  - (* kick_player *)
    unfold kick_player. destruct (rooms_get w c); [|intros [= <-]; exact Hc..].
    apply with_room_clock; [|exact Hwf|exact Hc]. intros room x' _ H.
    destruct (negb _); [split; [keeps_leaf H|settles_leaf H]|].
    destruct (String.eqb targetId sock); [split; [keeps_leaf H|settles_leaf H]|].
    destruct (List.find _ _); [|split; [keeps_leaf H|settles_leaf H]].
    unfold bind in H. destruct (_ && _)%bool.
    + destruct (advanceTurn r _) as [y|] eqn:Hadv; [|discriminate].
      injection H as <-. split.
      * apply keeps_advanceTurn in Hadv.
        apply (keeps_trans _ _ y); [|keeps_chain].
        eapply keeps_trans; [|exact Hadv]. keeps_chain.
      * apply settles_advanceTurn in Hadv.
        apply (settles_trans _ y); [|settles_chain].
        eapply settles_trans; [|exact Hadv]. settles_chain.
    + split; [keeps_leaf H|settles_leaf H].
  - (* submit_word *)
    unfold submit_word. destruct (rooms_get w c); [|discriminate|].
    + apply with_room_clock; [|exact Hwf|exact Hc]. intros room x' _ H. tight H.
    + intros [= <-]. exact Hc.
  - (* submit_vote *)
    unfold submit_vote. destruct (rooms_get w c); [|discriminate|].
    + apply with_room_clock; [|exact Hwf|exact Hc]. intros room x' _ H. tight H.
    + intros [= <-]. exact Hc.
  - (* skip_discussion *)
    unfold skip_discussion. destruct (rooms_get w c); [|discriminate|].
    + apply with_room_clock; [|exact Hwf|exact Hc]. intros room x' _ H. tight H.
    + intros [= <-]. exact Hc.
  - (* skip_match_end *)
    unfold skip_match_end. destruct (rooms_get w c); [|discriminate|].
    + apply with_room_clock; [|exact Hwf|exact Hc]. intros room x' _ H. tight H.
    + intros [= <-]. exact Hc.
  - (* toggle_ready *)
    unfold toggle_ready. destruct (rooms_get w c); [|discriminate|].
    + apply with_room_clock; [|exact Hwf|exact Hc]. intros room x' _ H. tight H.
    + intros [= <-]. exact Hc.
  - (* chat_message *)
    unfold chat_message. destruct (truthy c); intros [= <-]; [|exact Hc].
    revert Hc. apply clock_wf_same; reflexivity.
  - (* admin_skip_phase *)
    unfold admin_skip_phase. destruct (negb _); [intros [= <-]; exact Hc|].
    destruct (rooms_get w c); [|discriminate|].
    + apply with_room_clock; [|exact Hwf|exact Hc]. intros room x' _ H.
      cbv zeta in H.
      destruct (phase_eqb _ _); split; first [keeps_leaf H|settles_leaf H].
    + intros [= <-]. exact Hc.
  - (* disconnect *)
    unfold disconnect. destruct (getMyRoom sock w) as [r|]; [|intros [= <-]; exact Hc].
    unfold bind. destruct (with_room r _ w) as [w1|] eqn:Hw1; [|discriminate].
    apply with_room_clock in Hw1; [| |exact Hwf|exact Hc].
    2:{ intros room x' _ H.
        split; [eapply keeps_disconnect_room|eapply settles_disconnect_room]; exact H. }
    destruct (heap w1 !! r) as [room|]; [|intros [= <-]; exact Hw1].
    destruct (forallb _ _); intros [= <-]; [|exact Hw1].
    revert Hw1. apply clock_wf_same; reflexivity.
  - (* tick *)
    unfold tick. destruct (timers (env w) !! h) as [t|] eqn:Ht;
      [|intros [= <-]; exact Hc].
    destruct (live t) eqn:Hlive; [|intros [= <-]; exact Hc]. cbn [negb].
    apply with_room_clock; [|exact Hwf|exact Hc]. intros room x' Hroom H.
    cbv zeta in H. split.
    + destruct (_ <=? 0); [destruct (kind t)|]; keeps_leaf H.
    + intros [_ Hpos].
      assert (Hp : 0 < timer (state room)).
      { apply Hpos. destruct Hwf as [_ W2].
        destruct (W2 h t Ht Hlive) as (room' & Hroom' & Hh).
        rewrite Hroom in Hroom'. injection Hroom' as <-.
        unfold stored_live. cbn. rewrite Hh, Ht. cbn. exact Hlive. }
      set (y := on_state (fun s => set_timer (timer s - 1) s) (room, env w)) in H.
      assert (Hy : timer (state y.1) = timer (state room) - 1) by reflexivity.
      destruct (Z.leb_spec (timer (state y.1)) 0) as [Hle|Hgt].
      * assert (Hq : countdown_ok (clearTimer y)).
        { apply countdown_quiet; [|apply stored_live_clearTimer].
          rewrite clearTimer_room. lia. }
        revert Hq. destruct (kind t).
        -- eapply settles_handlePhaseTimeout; exact H.
        -- eapply settles_advanceTurn; exact H.
      * injection H as <-. split; [|intros _]; cbn [emit fst state]; lia.
  - (* resume *)
    unfold resume. destruct (pending (env w) !! k) as [r|]; [|intros [= <-]; exact Hc].
    cbv zeta. apply with_room_clock.
    + intros room x' _ H.
      split; [eapply keeps_nextRound|eapply settles_nextRound]; exact H.
    + revert Hwf. apply timers_wf_same; reflexivity.
    + revert Hc. apply clock_wf_same; reflexivity.
Qed.

Lemma reachable_clock_wf w : reachable w -> clock_wf w.
Proof.
  induction 1 as [|w orc ev w' Hw IH Hstep].
  - intros r room Hr. cbn in Hr. rewrite lookup_nil in Hr. discriminate.
  - eapply step_clock_wf; eauto. apply reachable_timers_wf. exact Hw.
Qed.

Lemma live_timer_positive w r room :
  reachable w -> heap w !! r = Some room -> liveTimersOf r w <> [] ->
  0 < timer (state room).
Proof.
  intros Hw Hroom Hlive. destruct (reachable_clock_wf w Hw r room Hroom) as [_ H1].
  apply H1. destruct (liveTimersOf r w) as [|h l] eqn:Hl; [congruence|].
  assert (Hh : h ∈ liveTimersOf r w) by (rewrite Hl; apply list_elem_of_here).
  apply liveTimersOf_spec in Hh as (t & Ht & Hlv & Ho).
  destruct (reachable_timers_wf w Hw) as [_ W2].
  destruct (W2 h t Ht Hlv) as (room' & Hroom' & Hh).
  rewrite Ho, Hroom in Hroom'. injection Hroom' as <-.
  unfold stored_live. cbn. rewrite Hh, Ht. cbn. exact Hlv.
Qed.

(** X4: in every state the server can reach, no room's timer is
    negative, and a room that has a live interval has a positive timer:
    an interval is cancelled by the very tick that brings the timer to
    zero. *)
Theorem countdown_stays_positive w r room :
  reachable w -> heap w !! r = Some room ->
  0 <= timer (state room)
  /\ (liveTimersOf r w <> [] -> 0 < timer (state room)).
Proof.
  intros Hw Hroom. split.
  - apply (reachable_clock_wf w Hw r room Hroom).
  - apply live_timer_positive; assumption.
Qed.

Lemma countdown_stays_positive_witness :
  exists room,
    reachable (after run_writing)
    /\ heap (after run_writing) !! 0%nat = Some room
    /\ 0 <= timer (state room)
    /\ (liveTimersOf 0 (after run_writing) <> [] -> 0 < timer (state room)).
Proof.
  eexists. split; [|split].
  - apply (run_reachable run_writing initial); [constructor|].
    vm_compute. reflexivity.
  - vm_compute. reflexivity.
  - apply (countdown_stays_positive (after run_writing) 0%nat).
    + apply (run_reachable run_writing initial); [constructor|].
      vm_compute. reflexivity.
    + vm_compute. reflexivity.
Defined.

(** ** The lobby: readiness and the start countdown *)

Lemma checkCountdown_spec self (x : St) :
  0 <= timer (state x.1) -> phase (state x.1) = LOBBY ->
  players (checkCountdown self x).1 = players x.1
  /\ ownerId (checkCountdown self x).1 = ownerId x.1
  /\ phase (state (checkCountdown self x).1) = LOBBY
  /\ if allReady (players x.1)
     then timer (state (checkCountdown self x).1) = 4
          /\ timers (checkCountdown self x).2 !! length (timers x.2)
             = Some (mkTimer self PhaseTimer true)
     else timer (state (checkCountdown self x).1) = 0.
Proof.
  intros H0 Hph. unfold checkCountdown. destruct (allReady (players x.1)).
  - rewrite setPhase_room. cbn. repeat split. apply setPhase_armed. lia.
  - destruct (Z.ltb_spec 0 (timer (state x.1))).
    + rewrite setPhase_room. cbn. auto.
    + repeat split; [exact Hph|lia].
Qed.

Lemma live_timer_listed r w h :
  timers (env w) !! h = Some (mkTimer r PhaseTimer true) -> liveTimersOf r w <> [].
Proof.
  intros Ht Hnil.
  assert (Hh : h ∈ liveTimersOf r w).
  { apply liveTimersOf_spec. eexists. split; [exact Ht|]. auto. }
  rewrite Hnil in Hh. inversion Hh.
Qed.

Lemma no_live_timer_at_zero w r room :
  reachable w -> heap w !! r = Some room -> timer (state room) = 0 ->
  liveTimersOf r w = [].
Proof.
  intros Hw Hroom Ht. destruct (liveTimersOf r w) as [|h l] eqn:Hl; [reflexivity|].
  assert (0 < timer (state room)); [|lia].
  apply (live_timer_positive w r room Hw Hroom). rewrite Hl. discriminate.
Qed.

(** X5: in the lobby a ready toggle flips the sender's flag and nothing
    else in the roster, and then the start countdown runs exactly when
    everybody is ready: with at least two players, all of them ready, the
    timer is (re)started at 4 seconds on a live interval; otherwise the
    timer is 0 and the room has no live interval. *)
Theorem toggle_ready_countdown w sock c r room i :
  reachable w ->
  rooms_get w c = Own r -> heap w !! r = Some room ->
  phase (state room) = LOBBY ->
  findIndex (has_id sock) (players room) = Some i ->
  exists w' room',
    toggle_ready sock c w = Ok w'
    /\ heap w' !! r = Some room'
    /\ players room'
       = alter (fun p => set_isReady (negb (isReady p)) p) i (players room)
    /\ phase (state room') = LOBBY
    /\ if allReady (players room')
       then timer (state room') = 4 /\ liveTimersOf r w' <> []
       else timer (state room') = 0 /\ liveTimersOf r w' = [].
Proof.
  intros Hw Hget Hroom Hph Hi.
  set (x := broadcastPlayerList
              (on_players (alter (fun p => set_isReady (negb (isReady p)) p) i)
                 (room, env w))).
  assert (Hrun : toggle_ready sock c w
                 = Ok (mkWorld (<[r := (checkCountdown r x).1]> (heap w)) (rooms w)
                         (checkCountdown r x).2)).
  { unfold toggle_ready. rewrite Hget. unfold with_room. rewrite Hroom.
    cbn [fst]. rewrite Hph, Hi. reflexivity. }
  assert (Hw' : reachable (mkWorld (<[r := (checkCountdown r x).1]> (heap w))
                             (rooms w) (checkCountdown r x).2)).
  { apply (reachable_step w (mkOracle [] []) (EvToggleReady sock c)); assumption. }
  assert (Hlt : (r < length (heap w))%nat) by (eapply lookup_lt_Some; eauto).
  destruct (checkCountdown_spec r x) as (Hps & _ & Hph' & Hcd).
  { apply (reachable_clock_wf w Hw r room Hroom). }
  { exact Hph. }
  eexists _, _. split; [exact Hrun|]. cbn [heap].
  split; [apply list_lookup_insert_eq; exact Hlt|].
  split; [rewrite Hps; reflexivity|]. split; [exact Hph'|].
  rewrite Hps. destruct (allReady (players x.1)).
  - destruct Hcd as [Ht Harm]. split; [exact Ht|].
    eapply live_timer_listed. exact Harm.
  - split; [exact Hcd|].
    eapply no_live_timer_at_zero; [exact Hw'| |exact Hcd].
    apply list_lookup_insert_eq. exact Hlt.
Qed.

Lemma toggle_ready_countdown_witness :
  exists room,
    heap (after run_countdown) !! 0%nat = Some room
    /\ exists w' room',
         toggle_ready "b" "ABCDE" (after run_countdown) = Ok w'
         /\ heap w' !! 0%nat = Some room'
         /\ players room'
            = alter (fun p => set_isReady (negb (isReady p)) p) 1%nat (players room)
         /\ phase (state room') = LOBBY
         /\ if allReady (players room')
            then timer (state room') = 4 /\ liveTimersOf 0 w' <> []
            else timer (state room') = 0 /\ liveTimersOf 0 w' = [].
Proof.
  eexists. split; [vm_compute; reflexivity|].
  apply (toggle_ready_countdown (after run_countdown) "b" "ABCDE" 0%nat).
  - apply (run_reachable run_countdown initial); [constructor|].
    vm_compute. reflexivity.
  - vm_compute. reflexivity.
  - vm_compute. reflexivity.
  - vm_compute. reflexivity.
  - vm_compute. reflexivity.
Defined.

(** ** Ticks *)

Lemma set_timer_same (room : Room) :
  set_state (set_timer (timer (state room)) (state room)) room = room.
Proof. destruct room as [? ? ? ? ? [] ?]. reflexivity. Qed.

(** X6: while more than [n] seconds are left on a room's timer, [n]
    ticks of its live interval do nothing but count: the timer goes down
    by [n], one [timer_update] is sent per tick with the values counting
    down, and the roster, the phase, the interval table, the registry and
    every other room stay as they are. *)
Theorem ticks_only_count_down orc h t n : forall w room,
  timers (env w) !! h = Some t -> live t = true ->
  heap w !! owner t = Some room ->
  Z.of_nat n < timer (state room) ->
  run (repeat (orc, EvTick h) n) w
  = Ok (mkWorld
          (<[owner t :=
               set_state (set_timer (timer (state room) - Z.of_nat n) (state room))
                 room]> (heap w))
          (rooms w)
          (mkEnv (timers (env w)) (pending (env w))
             (out (env w)
              ++ map (TimerUpdate (code room))
                   (countdownFrom (timer (state room)) n)))).
Proof.
  induction n as [|n IH]; intros w room Ht Hlive Hroom Hn.
  - cbn [repeat run countdownFrom map]. rewrite Z.sub_0_r, set_timer_same.
    rewrite list_insert_id by exact Hroom. rewrite app_nil_r.
    destruct w as [hp rg [ts pd ou]]. reflexivity.
  - cbn [repeat run step]. unfold tick at 1. rewrite Ht, Hlive. cbn [negb].
    unfold with_room. rewrite Hroom. cbv zeta. cbn [on_state on_room fst snd state set_state
      timer set_timer].
    destruct (Z.leb_spec (timer (state room) - 1) 0) as [Hle|Hgt]; [lia|].
    cbn [bind emit fst snd].
    assert (Hlt : (owner t < length (heap w))%nat) by (eapply lookup_lt_Some; eauto).
    set (room1 := set_state (set_timer (timer (state room) - 1) (state room)) room).
    rewrite (IH _ room1); cbn [env heap rooms timers pending out].
    + rewrite list_insert_insert_eq, <- app_assoc.
      cbn [countdownFrom map app].
      replace (timer (state room1) - Z.of_nat n)
        with (timer (state room) - Z.of_nat (S n)) by (cbn; lia).
      reflexivity.
    + exact Ht.
    + exact Hlive.
    + apply list_lookup_insert_eq. exact Hlt.
    + cbn. lia.
Qed.

Lemma ticks_only_count_down_witness :
  exists room,
    heap (after run_countdown) !! 0%nat = Some room
    /\ run (repeat (orc2, EvTick 0%nat) 3) (after run_countdown)
       = Ok (mkWorld
               (<[0%nat :=
                    set_state (set_timer (timer (state room) - 3) (state room)) room]>
                  (heap (after run_countdown)))
               (rooms (after run_countdown))
               (mkEnv (timers (env (after run_countdown)))
                  (pending (env (after run_countdown)))
                  (out (env (after run_countdown))
                   ++ map (TimerUpdate (code room))
                        (countdownFrom (timer (state room)) 3)))).
Proof.
  eexists. split; [vm_compute; reflexivity|].
  apply (ticks_only_count_down orc2 0%nat (mkTimer 0 PhaseTimer true) 3
           (after run_countdown)); vm_compute; reflexivity.
Defined.

(** ** A new round *)

Lemma startTurn_loop_round self rest : forall x,
  currentRound (state (startTurn_loop self rest x).1) = currentRound (state x.1)
  /\ winnerAwardSent (state (startTurn_loop self rest x).1)
     = winnerAwardSent (state x.1)
  /\ ownerId (startTurn_loop self rest x).1 = ownerId x.1.
Proof.
  induction rest as [|w rest IH]; intros x; cbn [startTurn_loop]; cbv zeta.
  - cbn. rewrite setPhase_room. cbn. auto.
  - pose proof (IH (on_state (fun s => set_turnIndex (S (turnIndex s)) s) x)) as Hskip.
    destruct (List.find (has_id w) (players x.1)) as [cw|]; [|exact Hskip].
    destruct (isOffline cw); [exact Hskip|].
    rewrite clearTimer_armTimer_room. cbn. auto.
Qed.

Lemma map_alter_field {B} (proj : Player -> B) (f : Player -> Player) j : forall ps,
  (forall p, proj (f p) = proj p) -> map proj (alter f j ps) = map proj ps.
Proof.
  intros ps Hf. revert j. induction ps as [|q ps IH]; intros [|j]; cbn;
    rewrite ?Hf; f_equal; auto.
Qed.

Lemma foldl_alter_field {B} (proj : Player -> B) (f : Player -> Player) js :
  forall ps, (forall p, proj (f p) = proj p) ->
  map proj (foldl (fun acc j => alter f j acc) ps js) = map proj ps.
Proof.
  induction js as [|j js IH]; intros ps Hf; cbn [foldl]; [reflexivity|].
  rewrite IH by exact Hf. apply map_alter_field. exact Hf.
Qed.

Lemma omap_lookup_seq {A} (l : list A) : omap (fun j => l !! j) (seq 0 (length l)) = l.
Proof.
  induction l as [|a l IH]; [reflexivity|].
  cbn [length seq]. rewrite <- fmap_S_seq. cbn [omap list_omap lookup].
  cbn. f_equal. etrans; [|exact IH].
  generalize (seq 0 (length l)). intros js.
  induction js as [|j js IHjs]; cbn; [reflexivity|]. rewrite IHjs. reflexivity.
Qed.

Lemma seated_online ps w :
  Forall (fun p => isOffline p = false) ps -> w ∈ map id ps -> seated ps w = true.
Proof.
  intros Hall Hin. unfold seated.
  destruct (List.find (has_id w) ps) as [p|] eqn:Hf.
  - apply find_some in Hf as [Hp _]. apply list_elem_of_In in Hp.
    rewrite Forall_forall in Hall. rewrite (Hall p Hp). reflexivity.
  - apply list_elem_of_fmap in Hin as (p & -> & Hp).
    apply list_elem_of_In in Hp.
    pose proof (find_none _ _ Hf p Hp) as Hn. unfold has_id in Hn.
    rewrite String.eqb_refl in Hn. discriminate.
Qed.

Lemma emits_pending {A} (f : A -> Output) (l : list A) : forall x : St,
  pending (foldl (fun y a => emit (f a) y) x l).2 = pending x.2.
Proof. induction l as [|a l IH]; intros x; cbn; [reflexivity|]. rewrite IH. reflexivity. Qed.

Lemma startTurn_loop_pending self rest : forall x,
  pending (startTurn_loop self rest x).2 = pending x.2.
Proof.
  induction rest as [|w rest IH]; intros x; cbn [startTurn_loop]; cbv zeta.
  - cbn. unfold setPhase, clearTimer, clearInterval. cbn.
    destruct (timerInterval x.1); reflexivity.
  - pose proof (IH (on_state (fun s => set_turnIndex (S (turnIndex s)) s) x)) as H.
    destruct (List.find (has_id w) (players x.1)) as [cw|]; [|exact H].
    destruct (isOffline cw); [exact H|].
    unfold armTimer, clearTimer, clearInterval. cbn.
    destruct (timerInterval x.1); reflexivity.
Qed.

(** A rollover that proceeds, up to the call of the turn sequencer. *)
Lemma nextRound_before_turns self orc x :
  (2 <= length (survivors (players x.1)))%nat ->
  exists z0 order,
    nextRound self orc x = Ok (startTurn_loop self order z0)
    /\ order = omap (fun j => map id (survivors (players x.1)) !! j) (turnPerm orc)
    /\ currentRound (state z0.1) = Z.succ <$> currentRound (state x.1)
    /\ winnerAwardSent (state z0.1) = winnerAwardSent (state x.1)
    /\ turnOrder (state z0.1) = Some order
    /\ turnIndex (state z0.1) = 0%nat
    /\ phase (state z0.1) = WRITING
    /\ pending z0.2 = pending x.2
    /\ Forall (fun p => word p = None) (players z0.1)
    /\ forall (B : Type) (proj : Player -> B),
         (forall v p, proj (set_role v p) = proj p) ->
         (forall v p, proj (set_word v p) = proj p) ->
         map proj (players z0.1)
         = map (fun p => proj (newRoundPlayer p)) (survivors (players x.1)).
Proof.
  intros Hlen. unfold nextRound.
  cbn -[startWritingPhase Nat.ltb Nat.leb assignImpostors].
  fold (survivors (players x.1)). set (sv := survivors (players x.1)) in *.
  destruct (Nat.ltb_spec (length sv) 2) as [Hlt|_]; [lia|].
  rewrite !length_map.
  set (k := if (8 <=? length sv)%nat then 2%nat else 1%nat).
  set (base := map (set_role (Some innocent)) (map newRoundPlayer sv)).
  unfold assignImpostors.
  set (deal := foldl (fun acc j => alter (set_role (Some impostor)) j acc) base
                 (take k (rolePerm orc))).
  assert (Hfield : forall {B} (proj : Player -> B),
            (forall v p, proj (set_role v p) = proj p) ->
            map proj deal = map (fun p => proj (newRoundPlayer p)) sv).
  { intros B proj Hp. unfold deal. rewrite foldl_alter_field by (intros; apply Hp).
    unfold base. rewrite <- !list_fmap_compose. apply list_fmap_ext.
    intros _ p _. cbn. apply Hp. }
  unfold startWritingPhase, startTurn. cbv zeta.
  cbn [on_state on_room on_players fst state set_state turnOrder set_turnOrder
       set_turnIndex turnIndex set_players].
  set (order := omap (fun j => id <$> deal !! j) (turnPerm orc)).
  match goal with |- context [startTurn_loop self ?rest ?z] =>
    set (rest0 := rest); set (z0 := z) end.
  assert (Hrest : rest0 = order).
  { unfold rest0. cbn -[order deal]. rewrite !emits_room. reflexivity. }
  clearbody rest0. subst rest0.
  assert (Hz : players z0.1 = map (set_word None) deal
               /\ currentRound (state z0.1) = Z.succ <$> currentRound (state x.1)
               /\ winnerAwardSent (state z0.1) = winnerAwardSent (state x.1)
               /\ turnOrder (state z0.1) = Some order
               /\ turnIndex (state z0.1) = 0%nat
               /\ phase (state z0.1) = WRITING
               /\ pending z0.2 = pending x.2).
  { unfold z0. cbn -[order deal]. rewrite !emits_room, emits_pending.
    cbn -[order deal]. auto 10. }
  destruct Hz as (Hzp & Hzr & Hzw & Hzo & Hzi & Hzph & Hzpd).
  exists z0, order. split; [reflexivity|]. split.
  { unfold order. apply list_omap_ext. apply Forall2_same_length_lookup_2; [reflexivity|].
    intros i a b Ha Hb. rewrite Ha in Hb. injection Hb as <-.
    assert (Hids : map id deal = map id sv) by (apply (Hfield _ id); reflexivity).
    rewrite <- Hids, list_lookup_fmap. reflexivity. }
  repeat (split; [assumption|]).
  split; [rewrite Hzp; apply Forall_fmap, Forall_true; reflexivity|].
  intros B proj H1 H2. rewrite Hzp, <- list_fmap_compose.
  etrans; [|apply (Hfield _ proj H1)].
  apply list_fmap_ext. intros _ p _. apply H2.
Qed.

(** X7: a rollover that finds at least two players online starts a new
    round: it returns, drops the offline players, counts the round up by
    one, carries every score over, clears every word and vote, marks
    everybody ready, and, the turn shuffle being a permutation of the
    roster positions, fixes a turn order that lists every player once
    and gives the first writer of that order a 30-second turn in
    WRITING. *)
Theorem nextRound_new_round self orc x :
  (2 <= length (survivors (players x.1)))%nat ->
  Permutation (turnPerm orc) (seq 0 (length (survivors (players x.1)))) ->
  exists x' order,
    nextRound self orc x = Ok x'
    /\ currentRound (state x'.1) = Z.succ <$> currentRound (state x.1)
    /\ map id (players x'.1) = map id (survivors (players x.1))
    /\ map score (players x'.1) = map score (survivors (players x.1))
    /\ Forall (fun p => word p = None /\ vote p = None /\ isReady p = true)
         (players x'.1)
    /\ turnOrder (state x'.1) = Some order
    /\ Permutation order (map id (survivors (players x.1)))
    /\ turnIndex (state x'.1) = 0%nat
    /\ phase (state x'.1) = WRITING
    /\ timer (state x'.1) = 30.
Proof.
  intros Hlen Hperm.
  destruct (nextRound_before_turns self orc x Hlen)
    as (z0 & order & Hrun & Horder & Hzr & _ & Hzo & Hzi & Hzph & _ & Hword & Hfield).
  set (sv := survivors (players x.1)) in *.
  assert (Hperm' : Permutation order (map id sv)).
  { rewrite Horder, Hperm. rewrite <- (length_map id sv).
    rewrite omap_lookup_seq. reflexivity. }
  assert (Hids0 : map id (players z0.1) = map id sv)
    by (apply (Hfield _ id); reflexivity).
  assert (Hon : Forall (fun p => isOffline p = false) (players z0.1)).
  { apply Forall_lookup. intros i p Hp.
    pose proof (Hfield _ isOffline ltac:(reflexivity) ltac:(reflexivity)) as E.
    apply (f_equal (fun l => l !! i)) in E. rewrite !list_lookup_fmap, Hp in E.
    destruct (sv !! i) as [q|] eqn:Hq; [|discriminate]. cbn in E.
    injection E as ->. apply list_elem_of_lookup_2 in Hq.
    unfold sv, survivors in Hq.
    apply list_elem_of_In, filter_In in Hq as [_ Hq].
    destruct (isOffline q); [discriminate|reflexivity]. }
  destruct (startTurn_loop_sequenced self order z0)
    as (n & Hn & Hidx & Hord & Hbefore & _ & Hend).
  destruct (startTurn_loop_round self order z0) as (Hround & _ & _).
  assert (Hseat : forall j w, order !! j = Some w -> seated (players z0.1) w = true).
  { intros j w Hw. apply seated_online; [exact Hon|].
    rewrite Hids0, <- Hperm'. eapply list_elem_of_lookup_2; eauto. }
  assert (Hne : (0 < length order)%nat).
  { rewrite (Permutation_length Hperm'), length_map. lia. }
  destruct n as [|n].
  2:{ destruct (lookup_lt_is_Some_2 order 0%nat Hne) as [w Hw].
      specialize (Hbefore 0%nat w ltac:(lia) Hw).
      rewrite (Hseat 0%nat w Hw) in Hbefore. discriminate. }
  destruct Hend as [(w & _ & _ & Hph & Htm & Hps & _)|(Hz & _)]; [|lia].
  exists (startTurn_loop self order z0), order.
  split; [exact Hrun|]. rewrite Hround, Hps, Hord, Hph, Htm, Hidx.
  split; [exact Hzr|]. split; [exact Hids0|].
  split; [apply (Hfield _ score); reflexivity|].
  split.
  { apply Forall_lookup. intros i p Hp.
    pose proof (Hfield _ (fun p => (vote p, isReady p))
                  ltac:(reflexivity) ltac:(reflexivity)) as E.
    apply (f_equal (fun l => l !! i)) in E. rewrite !list_lookup_fmap, Hp in E.
    destruct (sv !! i); [|discriminate]. cbn in E. injection E as -> ->.
    split; [|auto]. rewrite Forall_lookup in Hword. apply (Hword i p Hp). }
  split; [exact Hzo|]. split; [exact Hperm'|]. rewrite Hzi. auto.
Qed.

Lemma nextRound_new_round_witness :
  exists x' order,
    nextRound 0 orc2 (sample_room roster_two RESULTS) = Ok x'
    /\ currentRound (state x'.1)
       = Z.succ <$> currentRound (state (sample_room roster_two RESULTS).1)
    /\ map id (players x'.1)
       = map id (survivors (players (sample_room roster_two RESULTS).1))
    /\ map score (players x'.1)
       = map score (survivors (players (sample_room roster_two RESULTS).1))
    /\ Forall (fun p => word p = None /\ vote p = None /\ isReady p = true)
         (players x'.1)
    /\ turnOrder (state x'.1) = Some order
    /\ Permutation order
         (map id (survivors (players (sample_room roster_two RESULTS).1)))
    /\ turnIndex (state x'.1) = 0%nat
    /\ phase (state x'.1) = WRITING
    /\ timer (state x'.1) = 30.
Proof.
  apply (nextRound_new_round 0 orc2 (sample_room roster_two RESULTS)).
  - vm_compute. lia.
  - vm_compute. reflexivity.
Defined.

(** ** Back to the lobby *)

Lemma stored_live_setPhase_zero self ph x : stored_live (setPhase self ph 0 x) = false.
Proof.
  unfold setPhase. cbv zeta. cbn [Z.ltb Z.compare].
  set (y := on_state (fun s => set_timer 0 (set_phase ph s)) x).
  destruct (phase_eqb ph LOBBY).
  - rewrite (stored_live_same (clearTimer y) (broadcastState (clearTimer y)));
      [apply stored_live_clearTimer|reflexivity..].
  - rewrite (stored_live_same (clearTimer y)
               (broadcastPublicRooms (broadcastState (clearTimer y))));
      [apply stored_live_clearTimer|reflexivity..].
Qed.

Lemma reset_to_lobby self x :
  phase (state (resetMatch (setPhase self LOBBY 0 x)).1) = LOBBY
  /\ timer (state (resetMatch (setPhase self LOBBY 0 x)).1) = 0
  /\ currentRound (state (resetMatch (setPhase self LOBBY 0 x)).1) = Some 0
  /\ turnOrder (state (resetMatch (setPhase self LOBBY 0 x)).1) = None
  /\ winnerAwardSent (state (resetMatch (setPhase self LOBBY 0 x)).1) = false
  /\ players (resetMatch (setPhase self LOBBY 0 x)).1
     = map resetPlayer (survivors (players x.1))
  /\ stored_live (resetMatch (setPhase self LOBBY 0 x)) = false.
Proof.
  unfold resetMatch. cbv zeta.
  cbn [broadcastPublicRooms broadcastPlayerList broadcastState emit on_state on_room
       on_players fst snd state set_state players set_players phase timer
       currentRound turnOrder winnerAwardSent].
  rewrite setPhase_room. cbn. repeat split.
  etrans; [|apply (stored_live_setPhase_zero self LOBBY x)].
  unfold stored_live. cbn. rewrite setPhase_room. reflexivity.
Qed.

Lemma resetPlayer_unplayed ps :
  Forall unplayed (map resetPlayer ps)
  /\ map id (map resetPlayer ps) = map id ps
  /\ map username (map resetPlayer ps) = map username ps.
Proof.
  split; [|split].
  - apply Forall_fmap, Forall_true. intros p. repeat split.
  - rewrite <- list_fmap_compose. reflexivity.
  - rewrite <- list_fmap_compose. reflexivity.
Qed.

(** X8: a rollover that finds fewer than two players online abandons the
    match instead of starting a round: the room is back in LOBBY with
    timer 0 and no running interval, the round counter is 0, the offline
    players are gone, and every remaining player has score 0, no role,
    word or vote, and is not ready. *)
Theorem nextRound_too_few self orc x :
  (length (survivors (players x.1)) < 2)%nat ->
  exists x',
    nextRound self orc x = Ok x'
    /\ phase (state x'.1) = LOBBY
    /\ timer (state x'.1) = 0
    /\ stored_live x' = false
    /\ currentRound (state x'.1) = Some 0
    /\ map id (players x'.1) = map id (survivors (players x.1))
    /\ Forall unplayed (players x'.1).
Proof.
  intros Hlen. unfold nextRound. cbv zeta.
  set (y := broadcastPlayerList
              (on_players (List.filter (fun p => negb (isOffline p))) x)).
  assert (Hy : players y.1 = survivors (players x.1)) by reflexivity.
  rewrite Hy.
  destruct (Nat.ltb_spec (length (survivors (players x.1))) 2) as [_|Hge]; [|lia].
  eexists. split; [reflexivity|].
  destruct (reset_to_lobby self y) as (Hph & Ht & Hr & _ & _ & Hps & Hq).
  rewrite Hy in Hps. rewrite Hph, Ht, Hr, Hq, Hps.
  assert (Hs : survivors (survivors (players x.1)) = survivors (players x.1)).
  { unfold survivors. clear. induction (players x.1) as [|p ps IH]; [reflexivity|].
    cbn [List.filter]. destruct (isOffline p) eqn:Hp; cbn [negb List.filter];
      rewrite ?Hp; cbn [negb]; rewrite IH; reflexivity. }
  rewrite Hs. destruct (resetPlayer_unplayed (survivors (players x.1))) as (Hu & Hi & _).
  repeat split; assumption.
Qed.

Lemma nextRound_too_few_witness :
  exists x',
    nextRound 0 orc2 (sample_room blank_roster RESULTS) = Ok x'
    /\ phase (state x'.1) = LOBBY
    /\ timer (state x'.1) = 0
    /\ stored_live x' = false
    /\ currentRound (state x'.1) = Some 0
    /\ map id (players x'.1)
       = map id (survivors (players (sample_room blank_roster RESULTS).1))
    /\ Forall unplayed (players x'.1).
Proof.
  apply (nextRound_too_few 0 orc2 (sample_room blank_roster RESULTS)).
  vm_compute. lia.
Defined.

(** ** The start of a match *)

Lemma delete_last {A} (l : list A) a : delete (length l) (l ++ [a])%list = l.
Proof. induction l as [|b l IH]; cbn; [reflexivity|]. f_equal. exact IH. Qed.

Lemma map_upto {B} (proj : Player -> B) (g : Player -> Player) ps qs :
  (forall p, proj (g p) = proj p) -> map g ps = map g qs -> map proj ps = map proj qs.
Proof.
  intros Hg H. apply (f_equal (map proj)) in H. rewrite <- !list_fmap_compose in H.
  etrans; [|etrans; [exact H|]]; apply list_fmap_ext; intros; cbn; rewrite ?Hg;
    reflexivity.
Qed.

(** X24: [start_game] asks neither who sends it nor which phase the room
    is in nor whether the players are ready.  On a room with a positive
    number of rounds it resets the round counter, clears the award flag
    and suspends; when it is resumed with at least two players online,
    the room is in round 1: the offline players are dropped, every
    remaining player keeps its score, and the first turn is under way
    (or, nobody being seated, the discussion). *)
Theorem start_game_begins_round_one orc orc' c w r room :
  rooms_get w c = Own r -> heap w !! r = Some room ->
  0 < rounds room ->
  (2 <= length (survivors (players room)))%nat ->
  exists w1 room1 w2 room2,
    start_game orc c w = Ok w1
    /\ pending (env w1) = (pending (env w) ++ [r])%list
    /\ heap w1 !! r = Some room1
    /\ players room1 = players room
    /\ phase (state room1) = phase (state room)
    /\ resume orc' (length (pending (env w))) w1 = Ok w2
    /\ pending (env w2) = pending (env w)
    /\ heap w2 !! r = Some room2
    /\ currentRound (state room2) = Some 1
    /\ winnerAwardSent (state room2) = false
    /\ map id (players room2) = map id (survivors (players room))
    /\ map score (players room2) = map score (survivors (players room))
    /\ (phase (state room2) = WRITING \/ phase (state room2) = DISCUSSING).
Proof.
  intros Hget Hroom Hrounds Hlen.
  assert (Hlt : (r < length (heap w))%nat) by (eapply lookup_lt_Some; eauto).
  set (x1 := suspend r
               (on_state (fun s => set_winnerAwardSent false
                                     (set_currentRound (Some 0) s)) (room, env w))).
  set (w1 := mkWorld (<[r := x1.1]> (heap w)) (rooms w) x1.2).
  assert (Hstart : start_game orc c w = Ok w1).
  { unfold start_game. rewrite Hget.
    apply (with_room_ok r _ w room x1 Hroom).
    unfold startGame. cbv zeta. cbn [on_state on_room fst rounds set_state].
    destruct (Z.eqb_spec (rounds room) 0) as [E|_]; [lia|].
    destruct (Z.ltb_spec 0 (rounds room)) as [_|E]; [reflexivity|lia]. }
  assert (Hroom1 : heap w1 !! r = Some x1.1).
  { cbn [w1 heap]. apply list_lookup_insert_eq. exact Hlt. }
  destruct (nextRound_before_turns r orc' (x1.1, mkEnv (timers x1.2)
              (delete (length (pending (env w))) (pending x1.2)) (out x1.2)))
    as (z0 & order & Hrun & _ & Hzr & Hzw & _ & _ & Hzph & Hzpd & _ & Hfield).
  { exact Hlen. }
  set (x2 := startTurn_loop r order z0) in *.
  assert (Hresume : resume orc' (length (pending (env w))) w1
                    = Ok (mkWorld (<[r := x2.1]> (heap w1)) (rooms w1) x2.2)).
  { unfold resume.
    change (pending (env w1)) with (pending (env w) ++ [r])%list.
    rewrite lookup_app_r, Nat.sub_diag by lia. cbn [lookup list_lookup]. cbv zeta.
    set (W := mkWorld (heap w1) (rooms w1)
                (mkEnv (timers (env w1))
                   (delete (length (pending (env w))) (pending (env w1)))
                   (out (env w1)))).
    assert (HW : heap W !! r = Some x1.1) by (cbn [W heap]; exact Hroom1).
    change (with_room r (nextRound r orc') W
            = Ok (mkWorld (<[r := x2.1]> (heap W)) (rooms W) x2.2)).
    apply (with_room_ok r (nextRound r orc') W x1.1 x2 HW). exact Hrun. }
  destruct (startTurn_loop_sequenced r order z0)
    as (n & _ & _ & _ & _ & _ & Hend).
  destruct (startTurn_loop_round r order z0) as (Hround & Haward & _).
  pose proof (startTurn_loop_players r order z0) as Hps.
  exists w1, x1.1, (mkWorld (<[r := x2.1]> (heap w1)) (rooms w1) x2.2), x2.1.
  split; [exact Hstart|]. split; [reflexivity|]. split; [exact Hroom1|].
  split; [reflexivity|]. split; [reflexivity|]. split; [exact Hresume|].
  split.
  { cbn [env]. unfold x2. rewrite startTurn_loop_pending, Hzpd.
    cbn [snd pending]. apply delete_last. }
  split.
  { cbn [heap]. apply list_lookup_insert_eq. cbn [w1 heap].
    rewrite length_insert. exact Hlt. }
  split; [unfold x2; rewrite Hround, Hzr; reflexivity|].
  split; [unfold x2; rewrite Haward, Hzw; reflexivity|].
  split.
  { etrans; [apply (map_upto id (set_hasSkippedDiscussion false) _ _
                      ltac:(reflexivity) Hps)|].
    apply (Hfield _ id); reflexivity. }
  split.
  { etrans; [apply (map_upto score (set_hasSkippedDiscussion false) _ _
                      ltac:(reflexivity) Hps)|].
    apply (Hfield _ score); reflexivity. }
  destruct Hend as [(w0 & _ & _ & Hph & _)|(_ & Hph & _)]; [left|right; exact Hph].
  unfold x2. rewrite Hph. exact Hzph.
Qed.

(** Ann and Bob are in the lobby, neither of them ready. *)
Lemma start_game_begins_round_one_witness :
  exists w1 w2 room2,
    start_game orc2 "ABCDE" (after (take 2 run_countdown)) = Ok w1
    /\ resume orc2 0 w1 = Ok w2
    /\ heap w2 !! 0%nat = Some room2
    /\ currentRound (state room2) = Some 1
    /\ winnerAwardSent (state room2) = false.
Proof.
  destruct (start_game_begins_round_one orc2 orc2 "ABCDE"
              (after (take 2 run_countdown)) 0%nat
              (default (sample_room [] LOBBY).1
                 (heap (after (take 2 run_countdown)) !! 0%nat)))
    as (w1 & room1 & w2 & room2 & H1 & _ & _ & _ & _ & H2 & _ & H3 & H4 & H5 & _).
  - vm_compute. reflexivity.
  - vm_compute. reflexivity.
  - vm_compute. reflexivity.
  - vm_compute. lia.
  - exists w1, w2, room2. auto.
Defined.

(** ** Skips and votes: the quorum *)

Lemma quorum_cases {A} (f : Player -> bool) (l : list Player) (a b : A) :
  (if ((0 <? length l)%nat && forallb f l)%bool then a
   else if (length l =? 0)%nat then a else b)
  = if forallb f l then a else b.
Proof.
  destruct l as [|p l]; cbn; [reflexivity|].
  destruct (f p && forallb f l)%bool; reflexivity.
Qed.

Lemma findIndex_alter_id (f : Player -> Player) sock i ps :
  (forall p, id (f p) = id p) ->
  findIndex (has_id sock) (alter f i ps) = findIndex (has_id sock) ps.
Proof.
  intros Hf. revert i. induction ps as [|p ps IH]; intros [|i]; cbn;
    unfold has_id; rewrite ?Hf; try reflexivity.
  rewrite IH. reflexivity.
Qed.

(** X9: in DISCUSSING, the first skip of a player of the room sets that
    player's flag and nothing else in the roster; the discussion ends,
    with 30 seconds of VOTING, exactly when after it every online player
    holding a role has skipped, and otherwise the phase state is
    untouched.  A second skip from the same player is ignored. *)
Theorem skip_discussion_quorum w sock c r room i :
  rooms_get w c = Own r -> heap w !! r = Some room ->
  phase (state room) = DISCUSSING ->
  findIndex (has_id sock) (players room) = Some i ->
  hasSkippedDiscussion <$> players room !! i = Some false ->
  exists w' room',
    skip_discussion sock c w = Ok w'
    /\ heap w' !! r = Some room'
    /\ players room' = alter (set_hasSkippedDiscussion true) i (players room)
    /\ (if forallb hasSkippedDiscussion (activeOnlinePlayers (players room'))
        then phase (state room') = VOTING /\ timer (state room') = 30
        else state room' = state room)
    /\ skip_discussion sock c w' = Ok w'.
Proof.
  intros Hget Hroom Hph Hi Hflag.
  assert (Hlt : (r < length (heap w))%nat) by (eapply lookup_lt_Some; eauto).
  set (ps' := alter (set_hasSkippedDiscussion true) i (players room)).
  set (x := broadcastPlayerList
              (on_players (alter (set_hasSkippedDiscussion true) i) (room, env w))).
  set (x' := if forallb hasSkippedDiscussion (activeOnlinePlayers ps')
             then setPhase r VOTING 30 x else x).
  assert (Hrun : skip_discussion sock c w
                 = Ok (mkWorld (<[r := x'.1]> (heap w)) (rooms w) x'.2)).
  { unfold skip_discussion. rewrite Hget. unfold with_room. rewrite Hroom.
    cbn [fst]. rewrite Hph, Hi, Hflag. cbn [phase_eqb negb default]. cbv zeta.
    rewrite quorum_cases. fold x.
    change (players (on_players _ (room, env w)).1) with ps'.
    unfold x'. destruct (forallb _ _); reflexivity. }
  assert (Hps : players x'.1 = ps').
  { unfold x'. destruct (forallb _ _); [rewrite setPhase_players|]; reflexivity. }
  exists (mkWorld (<[r := x'.1]> (heap w)) (rooms w) x'.2), x'.1.
  split; [exact Hrun|]. cbn [heap].
  split; [apply list_lookup_insert_eq; exact Hlt|].
  split; [exact Hps|]. split.
  - rewrite Hps. unfold x'. destruct (forallb _ _).
    + rewrite setPhase_room. cbn. auto.
    + reflexivity.
  - unfold skip_discussion.
    replace (rooms_get (mkWorld (<[r := x'.1]> (heap w)) (rooms w) x'.2) c)
      with (Own r) by (symmetry; exact Hget).
    apply (with_room_same r _ _ x'.1).
    { cbn [heap]. apply list_lookup_insert_eq. exact Hlt. }
    cbn [fst env]. destruct (phase_eqb (phase (state x'.1)) DISCUSSING);
      [|destruct x'; reflexivity].
    cbn [negb]. rewrite Hps. unfold ps'.
    rewrite findIndex_alter_id by reflexivity. rewrite Hi.
    rewrite list_lookup_alter_eq.
    destruct (players room !! i) as [p|]; [|discriminate].
    cbn. destruct x'; reflexivity.
Qed.

Lemma skip_discussion_quorum_witness :
  exists w' room',
    skip_discussion "a" "ABCDE"
      (after (run_writing ++ [ (orc2, EvSubmitWord "a" "ABCDE" (Some "sky"));
                               (orc2, EvSubmitWord "b" "ABCDE" (Some "sea")) ])%list)
    = Ok w'
    /\ heap w' !! 0%nat = Some room'
    /\ phase (state room') = DISCUSSING
    /\ skip_discussion "a" "ABCDE" w' = Ok w'.
Proof.
  set (w := after (run_writing ++ [ (orc2, EvSubmitWord "a" "ABCDE" (Some "sky"));
                               (orc2, EvSubmitWord "b" "ABCDE" (Some "sea")) ])%list).
  destruct (skip_discussion_quorum w "a" "ABCDE" 0%nat
              (default (sample_room [] LOBBY).1 (heap w !! 0%nat)) 0%nat)
    as (w' & room' & Hrun & Hroom' & Hps & Hq & Hagain); try (vm_compute; reflexivity).
  exists w', room'. split; [exact Hrun|]. split; [exact Hroom'|].
  split; [|exact Hagain].
  rewrite Hps in Hq. vm_compute in Hq. exact (f_equal phase Hq).
Defined.

Lemma survivors_alter_ids (f : Player -> Player) i ps :
  (forall p, id (f p) = id p) -> (forall p, isOffline (f p) = isOffline p) ->
  map id (survivors (alter f i ps)) = map id (survivors ps).
Proof.
  intros Hid Hoff. unfold survivors. revert i.
  induction ps as [|p ps IH]; intros [|i]; cbn [alter list_alter List.filter];
    try reflexivity.
  - rewrite Hoff. destruct (isOffline p); cbn; rewrite ?Hid; reflexivity.
  - destruct (isOffline p); cbn; rewrite IH; reflexivity.
Qed.

(** X10: in MATCH_END, the first skip of a player of the room is
    recorded; when after it every online player holding a role has
    skipped, the match is reset at once: LOBBY, timer 0, round counter
    0, the offline players removed and every remaining player with score
    0, no role, word or vote and not ready.  Otherwise only the sender's
    flag changes. *)
Theorem skip_match_end_quorum w sock c r room i :
  rooms_get w c = Own r -> heap w !! r = Some room ->
  phase (state room) = MATCH_END ->
  findIndex (has_id sock) (players room) = Some i ->
  hasSkipped <$> players room !! i = Some false ->
  exists w' room',
    skip_match_end sock c w = Ok w'
    /\ heap w' !! r = Some room'
    /\ if forallb hasSkipped
            (activeOnlinePlayers (alter (set_hasSkipped true) i (players room)))
       then phase (state room') = LOBBY
            /\ timer (state room') = 0
            /\ currentRound (state room') = Some 0
            /\ map id (players room') = map id (survivors (players room))
            /\ Forall unplayed (players room')
       else players room' = alter (set_hasSkipped true) i (players room)
            /\ state room' = state room.
Proof.
  intros Hget Hroom Hph Hi Hflag.
  assert (Hlt : (r < length (heap w))%nat) by (eapply lookup_lt_Some; eauto).
  set (ps' := alter (set_hasSkipped true) i (players room)).
  set (x := broadcastPlayerList
              (on_players (alter (set_hasSkipped true) i) (room, env w))).
  set (x' := if forallb hasSkipped (activeOnlinePlayers ps')
             then resetMatch (setPhase r LOBBY 0 x) else x).
  assert (Hrun : skip_match_end sock c w
                 = Ok (mkWorld (<[r := x'.1]> (heap w)) (rooms w) x'.2)).
  { unfold skip_match_end. rewrite Hget. unfold with_room. rewrite Hroom.
    cbn [fst]. rewrite Hph, Hi, Hflag. cbn [phase_eqb negb default]. cbv zeta.
    rewrite quorum_cases. fold x.
    change (players (on_players _ (room, env w)).1) with ps'.
    unfold x'. destruct (forallb _ _); reflexivity. }
  exists (mkWorld (<[r := x'.1]> (heap w)) (rooms w) x'.2), x'.1.
  split; [exact Hrun|]. cbn [heap].
  split; [apply list_lookup_insert_eq; exact Hlt|].
  unfold x'. destruct (forallb _ _).
  - destruct (reset_to_lobby r x) as (Hp & Ht & Hr & _ & _ & Hps & _).
    rewrite Hp, Ht, Hr, Hps.
    change (players x.1) with ps'.
    destruct (resetPlayer_unplayed (survivors ps')) as (Hu & Hids & _).
    rewrite Hids. unfold ps'. rewrite survivors_alter_ids by reflexivity.
    repeat split; assumption.
  - split; reflexivity.
Qed.

Lemma skip_match_end_quorum_witness :
  exists w' room',
    skip_match_end "a" "ABCDE"
      (mkWorld [(sample_room roster_two MATCH_END).1] [("ABCDE", 0%nat)]
         (mkEnv [] [] []))
    = Ok w'
    /\ heap w' !! 0%nat = Some room'
    /\ players room' = alter (set_hasSkipped true) 0%nat roster_two
    /\ state room' = state (sample_room roster_two MATCH_END).1.
Proof.
  destruct (skip_match_end_quorum
              (mkWorld [(sample_room roster_two MATCH_END).1] [("ABCDE", 0%nat)]
                 (mkEnv [] [] []))
              "a" "ABCDE" 0%nat (sample_room roster_two MATCH_END).1 0%nat)
    as (w' & room' & Hrun & Hroom' & Hq); try (vm_compute; reflexivity).
  exists w', room'. split; [exact Hrun|]. split; [exact Hroom'|]. exact Hq.
Defined.

(** X11: in VOTING, a vote from a player of the room replaces whatever
    that player had voted before; the round is resolved at once, with
    the scores of [calculateResults] and 5 seconds of RESULTS, exactly
    when after it every online player holding a role has a (non-empty)
    vote, and otherwise nothing but the sender's vote changes. *)
Theorem submit_vote_quorum w sock c targetId r room i :
  rooms_get w c = Own r -> heap w !! r = Some room ->
  phase (state room) = VOTING ->
  findIndex (has_id sock) (players room) = Some i ->
  exists w' room',
    submit_vote sock c targetId w = Ok w'
    /\ heap w' !! r = Some room'
    /\ vote <$> alter (set_vote targetId) i (players room) !! i = Some targetId
    /\ if forallb vote_cast
            (activeOnlinePlayers (alter (set_vote targetId) i (players room)))
       then phase (state room') = RESULTS
            /\ timer (state room') = 5
            /\ players room'
               = scoreRound (alter (set_vote targetId) i (players room))
       else players room' = alter (set_vote targetId) i (players room)
            /\ state room' = state room.
Proof.
  intros Hget Hroom Hph Hi.
  assert (Hlt : (r < length (heap w))%nat) by (eapply lookup_lt_Some; eauto).
  set (ps' := alter (set_vote targetId) i (players room)).
  set (x := on_players (alter (set_vote targetId) i) (room, env w)).
  set (x' := if forallb vote_cast (activeOnlinePlayers ps')
             then calculateResults r x else x).
  assert (Hrun : submit_vote sock c targetId w
                 = Ok (mkWorld (<[r := x'.1]> (heap w)) (rooms w) x'.2)).
  { unfold submit_vote. rewrite Hget. unfold with_room. rewrite Hroom.
    cbn [fst]. rewrite Hph, Hi. cbn [phase_eqb negb]. cbv zeta.
    rewrite quorum_cases. fold x.
    change (players x.1) with ps'.
    unfold x'. destruct (forallb _ _); reflexivity. }
  exists (mkWorld (<[r := x'.1]> (heap w)) (rooms w) x'.2), x'.1.
  split; [exact Hrun|]. cbn [heap].
  split; [apply list_lookup_insert_eq; exact Hlt|].
  split.
  { apply findIndex_Some in Hi as [(p & Hp & _) _].
    unfold ps'. rewrite list_lookup_alter_eq, Hp. reflexivity. }
  unfold x'. destruct (forallb _ _).
  - rewrite calculateResults_room. cbn. auto.
  - split; reflexivity.
Qed.

Lemma submit_vote_quorum_witness :
  exists w' room',
    submit_vote "a" "ABCDE" (Some "b") (after run_voting) = Ok w'
    /\ heap w' !! 0%nat = Some room'
    /\ phase (state room') = VOTING.
Proof.
  destruct (submit_vote_quorum (after run_voting) "a" "ABCDE" (Some "b") 0%nat
              (default (sample_room [] LOBBY).1 (heap (after run_voting) !! 0%nat))
              0%nat)
    as (w' & room' & Hrun & Hroom' & _ & Hq); try (vm_compute; reflexivity).
  exists w', room'. split; [exact Hrun|]. split; [exact Hroom'|].
  vm_compute in Hq. exact (f_equal phase (proj2 Hq)).
Defined.

(** ** Looking rooms up *)

Lemma insert_key_perm k l : insert_key k l ≡ₚ k :: l.
Proof.
  induction l as [|k' l IH]; cbn; [reflexivity|].
  destruct (k.1 <? k'.1)%N; [reflexivity|].
  rewrite IH. apply Permutation_swap.
Qed.

Lemma foldl_insert_key_perm l : forall acc,
  foldl (fun acc k => insert_key k acc) acc l ≡ₚ (l ++ acc)%list.
Proof.
  induction l as [|k l IH]; intros acc; cbn [foldl]; [reflexivity|].
  rewrite IH, insert_key_perm. cbn. symmetry. apply Permutation_middle.
Qed.

(** [Object.keys] lists every own property once. *)
Lemma object_keys_perm reg : object_keys reg ≡ₚ map fst reg.
Proof.
  unfold object_keys. cbv zeta. rewrite foldl_insert_key_perm, app_nil_r.
  induction (map fst reg) as [|k ks IH]; [reflexivity|].
  cbn [omap list_omap List.filter]. fold (@omap list _).
  destruct (array_index k) as [n|] eqn:Hk; cbn.
  - rewrite <- IH at 3. reflexivity.
  - rewrite <- IH at 3. symmetry. apply Permutation_middle.
Qed.

Lemma reg_lookup_Some reg c r : reg_lookup reg c = Some r -> c ∈ map fst reg.
Proof.
  unfold reg_lookup. destruct (List.find _ reg) as [e|] eqn:Hf; [|discriminate].
  intros _. apply find_some in Hf as [Hin He]. apply String.eqb_eq in He.
  subst c. apply list_elem_of_fmap. exists e. split; [reflexivity|].
  apply list_elem_of_In. exact Hin.
Qed.

Lemma existsb_has_id sock ps : existsb (has_id sock) ps = true <-> sock ∈ map id ps.
Proof.
  rewrite existsb_exists, list_elem_of_fmap. unfold has_id. split.
  - intros (p & Hin & Hp). apply String.eqb_eq in Hp. exists p.
    split; [auto|]. apply list_elem_of_In. exact Hin.
  - intros (p & -> & Hin). exists p. split; [apply list_elem_of_In; exact Hin|].
    apply String.eqb_refl.
Qed.

(** X12: as long as no room is registered under the empty code (for
    which [code ? rooms[code] : null] answers null), [getMyRoom] finds a
    room exactly when some registered room lists the socket as a player,
    and the room it returns is a registered room that lists the socket;
    rooms that are no longer registered are never returned. *)
Theorem getMyRoom_finds_membership sock w :
  reg_lookup (rooms w) "" = None ->
  match getMyRoom sock w with
  | Some r =>
      exists c room, reg_lookup (rooms w) c = Some r /\ heap w !! r = Some room
        /\ sock ∈ map id (players room)
  | None => forall c, ~ member_of w sock c
  end.
Proof.
  intros _. unfold getMyRoom. cbv zeta.
  match goal with |- context [List.find ?m _] => set (member := m) end.
  assert (Hm : forall c, member c = true <-> member_of w sock c).
  { intros c. unfold member, member_of.
    destruct (reg_lookup (rooms w) c) as [r|]; cbn.
    - destruct (heap w !! r) as [room|] eqn:Hroom.
      + rewrite existsb_has_id. split; [eauto|].
        intros (r' & room' & E1 & E2 & H). injection E1 as <-.
        rewrite Hroom in E2. injection E2 as <-. exact H.
      + split; [discriminate|]. intros (r' & room' & E1 & E2 & _).
        injection E1 as <-. rewrite Hroom in E2. discriminate.
    - split; [discriminate|]. intros (r' & room' & H & _). discriminate. }
  destruct (List.find member (object_keys (rooms w))) as [c|] eqn:Hf; cbn.
  - apply find_some in Hf as [_ Hc].
    apply (proj1 (Hm c)) in Hc as (r & room & Hr & Hroom & Hin).
    rewrite Hr. eauto.
  - intros c Hc. pose proof Hc as (r & room & Hr & _).
    apply reg_lookup_Some in Hr. rewrite <- object_keys_perm in Hr.
    apply list_elem_of_In in Hr. apply (find_none _ _ Hf) in Hr.
    apply (proj2 (Hm c)) in Hc. congruence.
Qed.

Lemma getMyRoom_finds_membership_witness :
  exists c room,
    reg_lookup (rooms (after run_voting)) c = Some 0%nat
    /\ heap (after run_voting) !! 0%nat = Some room
    /\ "b" ∈ map id (players room).
Proof.
  apply (getMyRoom_finds_membership "b" (after run_voting)).
  vm_compute. reflexivity.
Defined.




(** ** What the calls leave alone *)

Lemma survivors_idem ps : survivors (survivors ps) = survivors ps.
Proof.
  unfold survivors. induction ps as [|p ps IH]; [reflexivity|].
  cbn [List.filter]. destruct (isOffline p) eqn:Hp; cbn [negb List.filter];
    rewrite ?Hp; cbn [negb]; rewrite IH; reflexivity.
Qed.

Lemma survivors_map_ids (f : Player -> Player) ps :
  (forall p, id (f p) = id p) -> (forall p, isOffline (f p) = isOffline p) ->
  map id (survivors (map f ps)) = map id (survivors ps).
Proof.
  intros Hid Hoff. unfold survivors.
  induction ps as [|p ps IH]; cbn [map List.filter]; [reflexivity|].
  rewrite Hoff. destruct (isOffline p); cbn; rewrite ?Hid, IH; reflexivity.
Qed.

Lemma survivors_foldl_alter_ids (f : Player -> Player) js : forall ps,
  (forall p, id (f p) = id p) -> (forall p, isOffline (f p) = isOffline p) ->
  map id (survivors (foldl (fun acc j => alter f j acc) ps js))
  = map id (survivors ps).
Proof.
  induction js as [|j js IH]; intros ps Hid Hoff; cbn [foldl]; [reflexivity|].
  rewrite IH by assumption. apply survivors_alter_ids; assumption.
Qed.

Lemma survivors_scoreRound_ids ps :
  map id (survivors (scoreRound ps)) = map id (survivors ps).
Proof.
  unfold scoreRound. destruct (caught ps).
  - apply survivors_map_ids; intros p; destruct (theImpostor ps); try reflexivity;
      destruct (is_string _ _); reflexivity.
  - destruct (impostorIndex ps); [|reflexivity].
    apply survivors_alter_ids; reflexivity.
Qed.

Ltac roster_side :=
  intros;
  first
    [ reflexivity
    | apply survivors_idem
    | apply survivors_scoreRound_ids
    | apply survivors_map_ids; intros; reflexivity
    | apply survivors_alter_ids; intros; reflexivity
    | apply survivors_foldl_alter_ids; intros; reflexivity
    | rewrite survivors_idem; reflexivity ].

Create HintDb frame.

Section Frame.

Context {B : Type} (proj : Room -> B).
Hypothesis proj_state : forall s r, proj (set_state s r) = proj r.
Hypothesis proj_timerInterval : forall h r, proj (set_timerInterval h r) = proj r.
Hypothesis proj_roster : forall ps r,
  map id (survivors ps) = map id (survivors (players r)) ->
  proj (set_players ps r) = proj r.

Lemma framed_refl x : framed proj x x.
Proof. reflexivity. Qed.

Lemma framed_trans x y z : framed proj x y -> framed proj y z -> framed proj x z.
Proof. unfold framed. congruence. Qed.

Lemma framed_emit o x : framed proj x (emit o x).
Proof. reflexivity. Qed.

Lemma framed_on_state f x : framed proj x (on_state f x).
Proof. apply proj_state. Qed.

Lemma framed_on_players f x :
  (forall ps, map id (survivors (f ps)) = map id (survivors ps)) ->
  framed proj x (on_players f x).
Proof. intros Hf. apply proj_roster, Hf. Qed.

Lemma framed_broadcastState x : framed proj x (broadcastState x).
Proof. reflexivity. Qed.

Lemma framed_broadcastPlayerList x : framed proj x (broadcastPlayerList x).
Proof. reflexivity. Qed.

Lemma framed_broadcastPublicRooms x : framed proj x (broadcastPublicRooms x).
Proof. reflexivity. Qed.

Lemma framed_suspend self x : framed proj x (suspend self x).
Proof. reflexivity. Qed.

Lemma framed_clearTimer x : framed proj x (clearTimer x).
Proof. unfold framed. rewrite clearTimer_room. reflexivity. Qed.

Lemma framed_armTimer self k x : framed proj x (armTimer self k x).
Proof. apply proj_timerInterval. Qed.

Lemma framed_emits {A} (f : A -> Output) (l : list A) x :
  framed proj x (foldl (fun y a => emit (f a) y) x l).
Proof. unfold framed. rewrite emits_room. reflexivity. Qed.

#[local] Hint Resolve framed_emit framed_on_state framed_broadcastState
  framed_broadcastPlayerList framed_broadcastPublicRooms framed_suspend
  framed_clearTimer framed_armTimer framed_emits : frame.
#[local] Hint Extern 1 (framed _ _ (on_players _ _)) =>
  apply framed_on_players; roster_side : frame.

Ltac framed_chain :=
  repeat first
    [ match goal with |- framed _ ?a ?a => apply framed_refl end
    | eapply framed_trans; [| solve [auto 1 with frame nocore] ] ].

Lemma framed_setPhase self ph d x : framed proj x (setPhase self ph d x).
Proof.
  unfold setPhase. cbv zeta.
  destruct (0 <? d); destruct (phase_eqb ph LOBBY); framed_chain.
Qed.
#[local] Hint Resolve framed_setPhase : frame.

Lemma framed_startTurn_loop self rest : forall x,
  framed proj x (startTurn_loop self rest x).
Proof.
  induction rest as [|w rest IH]; intros x; cbn [startTurn_loop]; cbv zeta.
  - framed_chain.
  - assert (Hskip : framed proj x (startTurn_loop self rest
              (on_state (fun s => set_turnIndex (S (turnIndex s)) s) x))).
    { eapply framed_trans; [apply framed_on_state | apply IH]. }
    destruct (List.find (has_id w) (players x.1)) as [cw|]; [|exact Hskip].
    destruct (isOffline cw); [exact Hskip|]. framed_chain.
Qed.
#[local] Hint Resolve framed_startTurn_loop : frame.

Lemma framed_startTurn self x x' : startTurn self x = Ok x' -> framed proj x x'.
Proof.
  unfold startTurn. destruct (turnOrder (state x.1)); [|discriminate].
  intros [= <-]. apply framed_startTurn_loop.
Qed.

Lemma framed_advanceTurn self x x' : advanceTurn self x = Ok x' -> framed proj x x'.
Proof.
  unfold advanceTurn. intros H. apply framed_startTurn in H.
  eapply framed_trans; [apply framed_on_state | exact H].
Qed.

Lemma framed_calculateResults self x : framed proj x (calculateResults self x).
Proof. unfold calculateResults. cbv zeta. framed_chain. Qed.

Lemma framed_resetMatch x : framed proj x (resetMatch x).
Proof. unfold resetMatch. cbv zeta. framed_chain. Qed.

Lemma framed_awardMatchWinners x : framed proj x (awardMatchWinners x).
Proof.
  unfold awardMatchWinners.
  destruct (winnerAwardSent (state x.1)); [apply framed_refl|].
  destruct (players x.1) as [|p ps]; [apply framed_refl|]. cbv zeta.
  destruct (List.filter _ (p :: ps)) as [|q qs]; [apply framed_refl|].
  apply (framed_trans _ (on_state (set_winnerAwardSent true) x));
    [apply framed_on_state|].
  generalize (on_state (set_winnerAwardSent true) x). generalize (q :: qs).
  intros l. induction l as [|a l IH]; intros y; cbn [foldl]; [apply framed_refl|].
  eapply framed_trans; [|apply IH].
  unfold notifyVecbotWinner. destruct (truthy _); [apply framed_emit|apply framed_refl].
Qed.

Lemma framed_checkCountdown self x : framed proj x (checkCountdown self x).
Proof.
  unfold checkCountdown. destruct (allReady _); [apply framed_setPhase|].
  destruct (0 <? _); [apply framed_setPhase|apply framed_refl].
Qed.
#[local] Hint Resolve framed_calculateResults framed_resetMatch
  framed_awardMatchWinners framed_checkCountdown : frame.

Lemma framed_nextRound self orc x x' : nextRound self orc x = Ok x' -> framed proj x x'.
Proof.
  unfold nextRound. cbv zeta. destruct (_ <? 2)%nat.
  - intros [= <-]. framed_chain.
  - unfold startWritingPhase. cbv zeta. intros H. apply framed_startTurn in H.
    eapply framed_trans; [|exact H]. unfold assignImpostors. framed_chain.
Qed.

Lemma framed_startGame self orc x x' : startGame self orc x = Ok x' -> framed proj x x'.
Proof.
  unfold startGame. cbv zeta. destruct (0 <? _).
  - intros [= <-]. framed_chain.
  - intros H. apply framed_nextRound in H.
    eapply framed_trans; [|exact H]. framed_chain.
Qed.

Lemma framed_handlePhaseTimeout self orc x x' :
  handlePhaseTimeout self orc x = Ok x' -> framed proj x x'.
Proof.
  unfold handlePhaseTimeout. destruct (phase (state x.1)).
  - apply framed_startGame.
  - intros [= <-]. apply framed_refl.
  - apply framed_advanceTurn.
  - intros [= <-]. framed_chain.
  - intros [= <-]. framed_chain.
  - destruct (round_lt _ _).
    + apply framed_nextRound.
    + intros [= <-]. framed_chain.
  - intros [= <-]. framed_chain.
Qed.

Ltac framed_leaf H :=
  first
    [ injection H as <-; framed_chain
    | eapply framed_trans;
      [| first [ eapply framed_advanceTurn; exact H
               | eapply framed_startGame; exact H
               | eapply framed_handlePhaseTimeout; exact H
               | eapply framed_nextRound; exact H ] ];
      framed_chain ].

(** A world step that runs a framed call on one room. *)
Lemma with_room_framed r f w w' :
  (forall x x', f x = Ok x' -> framed proj x x') ->
  with_room r f w = Ok w' ->
  forall r0 room, heap w !! r0 = Some room ->
    exists room', heap w' !! r0 = Some room' /\ proj room' = proj room.
Proof.
  intros Hf. unfold with_room.
  destruct (heap w !! r) as [room1|] eqn:Hr; [|intros [= <-]; eauto].
  destruct (f (room1, env w)) as [x'|] eqn:Hfx; [|discriminate].
  intros [= <-] r0 room Hroom. cbn [heap].
  assert (Hlt : (r < length (heap w))%nat) by (eapply lookup_lt_Some; eauto).
  destruct (decide (r = r0)) as [<-|Hne].
  - rewrite list_lookup_insert_eq by exact Hlt. eexists. split; [reflexivity|].
    rewrite Hr in Hroom. injection Hroom as <-. apply (Hf _ _ Hfx).
  - rewrite list_lookup_insert_ne by exact Hne. eauto.
Qed.

Lemma step_framed_quiet orc ev w w' :
  roster_event ev = false -> step orc ev w = Ok w' ->
  forall r room, heap w !! r = Some room ->
    exists room', heap w' !! r = Some room' /\ proj room' = proj room.
Proof.
  intros Hev. destruct ev; try discriminate Hev; cbn [step].
  - (* create_room *)
    unfold create_room. cbv zeta. intros [= <-] r room Hr. cbn [heap].
    exists room. split; [|reflexivity].
    rewrite lookup_app_l; [exact Hr|]. eapply lookup_lt_Some; eauto.
  - (* get_public_rooms *)
    intros [= <-]. eauto.
  - (* start_game *)
    unfold start_game. destruct (rooms_get w c); [|discriminate|].
    + apply with_room_framed. intros x x'. apply framed_startGame.
    + intros [= <-]. eauto.
  - (* submit_word *)
    unfold submit_word. destruct (rooms_get w c); [|discriminate|].
    + apply with_room_framed. intros x x' H. keeps_split H; framed_leaf H.
    + intros [= <-]. eauto.
  - (* submit_vote *)
    unfold submit_vote. destruct (rooms_get w c); [|discriminate|].
    + apply with_room_framed. intros x x' H. keeps_split H; framed_leaf H.
    + intros [= <-]. eauto.
  - (* skip_discussion *)
    unfold skip_discussion. destruct (rooms_get w c); [|discriminate|].
    + apply with_room_framed. intros x x' H. keeps_split H; framed_leaf H.
    + intros [= <-]. eauto.
  - (* skip_match_end *)
    unfold skip_match_end. destruct (rooms_get w c); [|discriminate|].
    + apply with_room_framed. intros x x' H. keeps_split H; framed_leaf H.
    + intros [= <-]. eauto.
  - (* toggle_ready *)
    unfold toggle_ready. destruct (rooms_get w c); [|discriminate|].
    + apply with_room_framed. intros x x' H. keeps_split H; framed_leaf H.
    + intros [= <-]. eauto.
  - (* chat_message *)
    unfold chat_message. destruct (truthy c); intros [= <-]; eauto.
  - (* admin_skip_phase *)
    unfold admin_skip_phase. destruct (negb _); [intros [= <-]; eauto|].
    destruct (rooms_get w c); [|discriminate|].
    + apply with_room_framed. intros x x' H. cbv zeta in H.
      destruct (phase_eqb _ _); framed_leaf H.
    + intros [= <-]. eauto.
  - (* tick *)
    unfold tick. destruct (timers (env w) !! h) as [t|]; [|intros [= <-]; eauto].
    destruct (negb (live t)); [intros [= <-]; eauto|].
    apply with_room_framed. intros x x' H. cbv zeta in H.
    destruct (_ <=? 0).
    + destruct (kind t); framed_leaf H.
    + framed_leaf H.
  - (* resume *)
    unfold resume. destruct (pending (env w) !! k) as [r|]; [|intros [= <-]; eauto].
    cbv zeta. intros H r0 room Hr0.
    eapply (with_room_framed r _ _ w'); [|exact H|exact Hr0].
    intros x x'. apply framed_nextRound.
Qed.

(** The three events that change a roster leave alone what does not
    depend on the roster or the owner. *)
Hypothesis proj_players : forall ps r, proj (set_players ps r) = proj r.
Hypothesis proj_ownerId : forall v r, proj (set_ownerId v r) = proj r.

Lemma framed_on_players_any f x : framed proj x (on_players f x).
Proof. apply proj_players. Qed.

Lemma framed_set_ownerId v x : framed proj x (on_room (set_ownerId v) x).
Proof. apply proj_ownerId. Qed.

#[local] Hint Resolve framed_on_players_any framed_set_ownerId : frame.

Lemma framed_disconnect_room r sock x x' :
  disconnect_room r sock x = Ok x' -> framed proj x x'.
Proof.
  unfold disconnect_room. cbv zeta. unfold bind.
  destruct (phase_eqb (phase (state x.1)) LOBBY).
  - intros H. keeps_split H; framed_leaf H.
  - destruct (_ && _)%bool.
    + destruct (advanceTurn r _) as [y|] eqn:Hadv; [|discriminate].
      intros H. apply framed_advanceTurn in Hadv.
      apply (framed_trans _ y).
      { eapply framed_trans; [|exact Hadv].
        destruct (findIndex (has_id sock) (players x.1)); framed_chain. }
      keeps_split H; framed_leaf H.
    + intros H.
      destruct (findIndex (has_id sock) (players x.1));
        keeps_split H; framed_leaf H.
Qed.

Lemma step_framed orc ev w w' :
  step orc ev w = Ok w' ->
  forall r room, heap w !! r = Some room ->
    exists room', heap w' !! r = Some room' /\ proj room' = proj room.
Proof.
  destruct (roster_event ev) eqn:Hev; [|apply step_framed_quiet; exact Hev].
  destruct ev; try discriminate Hev; cbn [step].
  - (* join_room *)
    unfold join_room. destruct (negb (truthy c)); [intros [= <-]; eauto|].
    destruct (rooms_get w (toUpperCase c)); [|discriminate|intros [= <-]; eauto].
    apply with_room_framed. intros x x' H. keeps_split H; framed_leaf H.
  - (* kick_player *)
    unfold kick_player. destruct (rooms_get w c); [|intros [= <-]; eauto..].
    apply with_room_framed. intros x x' H.
    destruct (negb _); [framed_leaf H|].
    destruct (String.eqb targetId sock); [framed_leaf H|].
    destruct (List.find _ _); [|framed_leaf H].
    unfold bind in H. destruct (_ && _)%bool.
    + destruct (advanceTurn r _) as [y|] eqn:Hadv; [|discriminate].
      apply framed_advanceTurn in Hadv. injection H as <-.
      apply (framed_trans _ y); [|framed_chain].
      eapply framed_trans; [|exact Hadv]. framed_chain.
    + framed_leaf H.
  - (* disconnect *)
    unfold disconnect. destruct (getMyRoom sock w) as [r|]; [|intros [= <-]; eauto].
    unfold bind. destruct (with_room r _ w) as [w1|] eqn:Hw1; [|discriminate].
    intros H r0 room Hr0.
    destruct (with_room_framed r _ w w1 (framed_disconnect_room r sock) Hw1 r0 room Hr0)
      as (room' & Hroom' & Hp).
    exists room'. split; [|exact Hp].
    destruct (heap w1 !! r) as [room1|]; [|injection H as <-; exact Hroom'].
    destruct (forallb _ _); injection H as <-; exact Hroom'.
Qed.

End Frame.

(** X14: a room's code, its privacy flag and its number of rounds are
    fixed when the room is created: whatever socket events, ticks and
    resumptions follow, and whether or not they succeed on other rooms,
    the room object keeps all three. *)
Theorem room_config_is_fixed evs : forall w w' r room,
  run evs w = Ok w' -> heap w !! r = Some room ->
  exists room', heap w' !! r = Some room'
    /\ code room' = code room /\ isPublic room' = isPublic room
    /\ rounds room' = rounds room.
Proof.
  induction evs as [|[orc ev] evs IH]; intros w w' r room; cbn [run].
  - intros [= <-] Hr. exists room. auto.
  - destruct (step orc ev w) as [w1|] eqn:Hs; [|discriminate]. cbn [bind].
    intros Hrun Hr.
    destruct (step_framed config ltac:(reflexivity) ltac:(reflexivity)
                ltac:(reflexivity) ltac:(reflexivity) ltac:(reflexivity)
                orc ev w w1 Hs r room Hr) as (room1 & Hr1 & Hc).
    destruct (IH w1 w' r room1 Hrun Hr1) as (room' & Hr' & H1 & H2 & H3).
    exists room'. split; [exact Hr'|]. unfold config in Hc.
    injection Hc as Hc1 Hc2 Hc3. repeat split; congruence.
Qed.

Lemma room_config_is_fixed_witness :
  exists room room',
    heap (after run_countdown) !! 0%nat = Some room
    /\ heap (after run_voting) !! 0%nat = Some room'
    /\ code room' = code room /\ isPublic room' = isPublic room
    /\ rounds room' = rounds room.
Proof.
  destruct (room_config_is_fixed
              [ (orc2, EvTick 0%nat); (orc2, EvTick 0%nat); (orc2, EvTick 0%nat);
                (orc2, EvTick 0%nat); (orc2, EvResume 0%nat);
                (orc2, EvSubmitWord "a" "ABCDE" (Some "sky"));
                (orc2, EvSubmitWord "b" "ABCDE" (Some "sea"));
                (orc2, EvSkipDiscussion "a" "ABCDE");
                (orc2, EvSkipDiscussion "b" "ABCDE") ]
              (after run_countdown) (after run_voting) 0%nat
              (default (sample_room [] LOBBY).1 (heap (after run_countdown) !! 0%nat)))
    as (room' & Hr' & H); try (vm_compute; reflexivity).
  eexists _, room'. split; [vm_compute; reflexivity|]. split; [exact Hr'|exact H].
Defined.

Lemma proj_owner_online_roster ps r :
  map id (survivors ps) = map id (survivors (players r)) ->
  (ownerId (set_players ps r), onlineIds (set_players ps r))
  = (ownerId r, onlineIds r).
Proof.
  intros H. unfold onlineIds. cbn [players set_players ownerId].
  rewrite H. reflexivity.
Qed.

(** X15: only [join_room], [kick_player] and [disconnect] change who
    owns a room or which of its players are online: every other event,
    the purge of offline players at a rollover or a match reset included,
    leaves the owner and the list of online players of every room as
    they were. *)
Theorem owner_and_online_players_kept orc ev w w' r room :
  roster_event ev = false -> step orc ev w = Ok w' ->
  heap w !! r = Some room ->
  exists room', heap w' !! r = Some room'
    /\ ownerId room' = ownerId room /\ onlineIds room' = onlineIds room.
Proof.
  intros Hev Hs Hr.
  destruct (step_framed_quiet (fun r => (ownerId r, onlineIds r))
              ltac:(reflexivity) ltac:(reflexivity) proj_owner_online_roster
              orc ev w w' Hev Hs r room Hr) as (room' & Hr' & Hp).
  exists room'. split; [exact Hr'|]. injection Hp as H1 H2. auto.
Qed.

Lemma owner_and_online_players_kept_witness :
  exists room room',
    heap (after run_writing) !! 0%nat = Some room
    /\ step orc2 (EvSubmitWord "a" "ABCDE" (Some "sky")) (after run_writing)
       = Ok (after (run_writing ++ [(orc2, EvSubmitWord "a" "ABCDE" (Some "sky"))])%list)
    /\ heap (after (run_writing ++ [(orc2, EvSubmitWord "a" "ABCDE" (Some "sky"))])%list)
         !! 0%nat = Some room'
    /\ ownerId room' = ownerId room /\ onlineIds room' = onlineIds room.
Proof.
  destruct (owner_and_online_players_kept orc2
              (EvSubmitWord "a" "ABCDE" (Some "sky")) (after run_writing)
              (after (run_writing ++ [(orc2, EvSubmitWord "a" "ABCDE" (Some "sky"))])%list)
              0%nat
              (default (sample_room [] LOBBY).1 (heap (after run_writing) !! 0%nat)))
    as (room' & Hr' & H); try (vm_compute; reflexivity).
  eexists _, room'. split; [vm_compute; reflexivity|].
  split; [vm_compute; reflexivity|]. split; [exact Hr'|exact H].
Defined.

(** ** The registry stays consistent *)

Lemma with_room_rooms r f w w' : with_room r f w = Ok w' -> rooms w' = rooms w.
Proof.
  unfold with_room. destruct (heap w !! r); [|intros [= <-]; reflexivity].
  destruct (f _); [|discriminate]. intros [= <-]. reflexivity.
Qed.

(** How each event changes the registry. *)
Lemma step_rooms orc ev w w' :
  step orc ev w = Ok w' ->
  match ev with
  | EvCreateRoom _ _ _ _ random =>
      rooms w' = reg_set (generateRoomCode random) (length (heap w)) (rooms w)
  | EvDisconnect sock =>
      rooms w' = rooms w
      \/ exists r room', getMyRoom sock w = Some r /\ heap w' !! r = Some room'
           /\ forallb isOffline (players room') = true
           /\ rooms w' = reg_delete (code room') (rooms w)
  | _ => rooms w' = rooms w
  end.
Proof.
  destruct ev; cbn [step].
  - unfold create_room. cbv zeta. intros [= <-]. reflexivity.
  - unfold join_room. destruct (negb _); [intros [= <-]; reflexivity|].
    destruct (rooms_get _ _); [apply with_room_rooms|discriminate|].
    intros [= <-]. reflexivity.
  - intros [= <-]. reflexivity.
  - unfold start_game. destruct (rooms_get _ _);
      [apply with_room_rooms|discriminate|intros [= <-]; reflexivity].
  - unfold kick_player. destruct (rooms_get _ _);
      [apply with_room_rooms|intros [= <-]; reflexivity..].
  - unfold submit_word. destruct (rooms_get _ _);
      [apply with_room_rooms|discriminate|intros [= <-]; reflexivity].
  - unfold submit_vote. destruct (rooms_get _ _);
      [apply with_room_rooms|discriminate|intros [= <-]; reflexivity].
  - unfold skip_discussion. destruct (rooms_get _ _);
      [apply with_room_rooms|discriminate|intros [= <-]; reflexivity].
  - unfold skip_match_end. destruct (rooms_get _ _);
      [apply with_room_rooms|discriminate|intros [= <-]; reflexivity].
  - unfold toggle_ready. destruct (rooms_get _ _);
      [apply with_room_rooms|discriminate|intros [= <-]; reflexivity].
  - unfold chat_message. destruct (truthy _); intros [= <-]; reflexivity.
  - unfold admin_skip_phase. destruct (negb _); [intros [= <-]; reflexivity|].
    destruct (rooms_get _ _);
      [apply with_room_rooms|discriminate|intros [= <-]; reflexivity].
  - unfold disconnect. destruct (getMyRoom sock w) as [r|] eqn:Hmy;
      [|intros [= <-]; left; reflexivity].
    unfold bind. destruct (with_room r _ w) as [w1|] eqn:Hw1; [|discriminate].
    apply with_room_rooms in Hw1.
    destruct (heap w1 !! r) as [room1|] eqn:Hr1; [|intros [= <-]; left; exact Hw1].
    destruct (forallb _ _) eqn:Hall; intros [= <-]; [|left; exact Hw1].
    right. exists r, room1. cbn. rewrite Hw1. auto.
  - unfold tick. destruct (timers (env w) !! h); [|intros [= <-]; reflexivity].
    destruct (negb _); [intros [= <-]; reflexivity|]. apply with_room_rooms.
  - unfold resume. destruct (pending (env w) !! k); [|intros [= <-]; reflexivity].
    cbv zeta. intros H. apply with_room_rooms in H. exact H.
Qed.

Lemma reg_set_keys c r reg k :
  k ∈ map fst (reg_set c r reg) -> k = c \/ k ∈ map fst reg.
Proof.
  induction reg as [|[c' r'] reg IH]; cbn.
  - intros H. apply list_elem_of_singleton in H. auto.
  - destruct (String.eqb_spec c' c) as [->|Hne]; cbn.
    + intros H. apply elem_of_cons in H as [->|H]; [auto|].
      right. apply elem_of_cons. auto.
    + intros H. apply elem_of_cons in H as [->|H].
      * right. apply elem_of_cons. auto.
      * destruct (IH H) as [->|H']; [auto|]. right. apply elem_of_cons. auto.
Qed.

Lemma reg_set_NoDup c r reg : NoDup (map fst reg) -> NoDup (map fst (reg_set c r reg)).
Proof.
  induction reg as [|[c' r'] reg IH]; cbn.
  - intros _. apply NoDup_singleton.
  - intros Hnd. apply NoDup_cons in Hnd as [Hc' Hnd].
    destruct (String.eqb_spec c' c) as [->|Hne]; cbn.
    + apply NoDup_cons. auto.
    + apply NoDup_cons. split; [|auto].
      intros Hin. apply reg_set_keys in Hin as [->|Hin]; [congruence|auto].
Qed.

Lemma reg_delete_NoDup c reg : NoDup (map fst reg) -> NoDup (map fst (reg_delete c reg)).
Proof.
  unfold reg_delete. induction reg as [|[c' r'] reg IH]; cbn; [auto|].
  intros Hnd. apply NoDup_cons in Hnd as [Hc' Hnd].
  destruct (String.eqb c' c); cbn; [auto|].
  apply NoDup_cons. split; [|auto].
  intros Hin. apply Hc'. apply list_elem_of_fmap in Hin as ([c1 r1] & -> & Hin).
  apply list_elem_of_In, filter_In in Hin as [Hin _].
  apply list_elem_of_fmap. exists (c1, r1). split; [reflexivity|].
  apply list_elem_of_In. exact Hin.
Qed.

Lemma reg_lookup_delete c0 reg c r :
  reg_lookup (reg_delete c0 reg) c = Some r -> c <> c0 /\ reg_lookup reg c = Some r.
Proof.
  unfold reg_lookup, reg_delete. induction reg as [|[c' r'] reg IH]; cbn;
    [discriminate|].
  destruct (String.eqb_spec c' c0) as [->|Hne]; cbn.
  - intros H. destruct (IH H) as [Hc Hl]. split; [exact Hc|].
    destruct (String.eqb_spec c0 c); [congruence|exact Hl].
  - destruct (String.eqb_spec c' c) as [->|Hne'].
    + intros [= <-]. auto.
    + exact IH.
Qed.

Lemma step_registry_ok orc ev w w' :
  registry_ok w -> step orc ev w = Ok w' -> registry_ok w'.
Proof.
  intros [Hnd Hb] Hs. pose proof (step_rooms orc ev w w' Hs) as Hrooms.
  assert (Hcode : forall r room, heap w !! r = Some room ->
            exists room', heap w' !! r = Some room' /\ code room' = code room).
  { apply (step_framed code ltac:(reflexivity) ltac:(reflexivity)
             ltac:(reflexivity) ltac:(reflexivity) ltac:(reflexivity)
             orc ev w w' Hs). }
  assert (Hsame : rooms w' = rooms w -> registry_ok w').
  { intros E. split; rewrite E; [exact Hnd|].
    intros c r Hr. destruct (Hb c r Hr) as (room & Hroom & Hc).
    destruct (Hcode r room Hroom) as (room' & Hroom' & Hc').
    exists room'. split; [exact Hroom'|congruence]. }
  destruct ev; try (apply Hsame; exact Hrooms).
  - (* create_room *)
    split; rewrite Hrooms; [apply reg_set_NoDup; exact Hnd|].
    intros c r Hr. destruct (String.eqb_spec c (generateRoomCode random)) as [->|Hne].
    + rewrite reg_lookup_set_eq in Hr. injection Hr as <-.
      cbn [step] in Hs. unfold create_room in Hs. cbv zeta in Hs.
      injection Hs as <-. cbn [heap]. eexists. split.
      * rewrite lookup_app_r by lia. rewrite Nat.sub_diag. reflexivity.
      * reflexivity.
    + rewrite reg_lookup_set_ne in Hr by exact Hne.
      destruct (Hb c r Hr) as (room & Hroom & Hc).
      destruct (Hcode r room Hroom) as (room' & Hroom' & Hc').
      exists room'. split; [exact Hroom'|congruence].
  - (* disconnect *)
    destruct Hrooms as [E|(r & room' & _ & _ & _ & E)]; [apply Hsame; exact E|].
    split; rewrite E; [apply reg_delete_NoDup; exact Hnd|].
    intros c r0 Hr. apply reg_lookup_delete in Hr as [_ Hr].
    destruct (Hb c r0 Hr) as (room & Hroom & Hc).
    destruct (Hcode r0 room Hroom) as (room0 & Hroom0 & Hc').
    exists room0. split; [exact Hroom0|congruence].
Qed.

Lemma reachable_registry_ok w : reachable w -> registry_ok w.
Proof.
  induction 1 as [|w orc ev w' _ IH Hstep].
  - split; [constructor|]. intros c r H. discriminate.
  - eapply step_registry_ok; eauto.
Qed.

(** X16: in every state the server can reach, the registry is
    consistent: no code is registered twice, and every registered code
    is bound to a room object that carries this very code, so that a
    look-up by code, as [join_room] and the other handlers do, never
    lands in a room that goes by another code. *)
Theorem registry_is_consistent w :
  reachable w ->
  NoDup (map fst (rooms w))
  /\ forall c r, rooms_get w c = Own r ->
       exists room, heap w !! r = Some room /\ code room = c.
Proof.
  intros Hw. destruct (reachable_registry_ok w Hw) as [Hnd Hb].
  split; [exact Hnd|]. intros c r Hget. apply Hb.
  unfold rooms_get in Hget. destruct (reg_lookup (rooms w) c); [congruence|].
  destruct (proto_key c); discriminate.
Qed.

Lemma registry_is_consistent_witness :
  NoDup (map fst (rooms (after run_collision)))
  /\ forall c r, rooms_get (after run_collision) c = Own r ->
       exists room, heap (after run_collision) !! r = Some room /\ code room = c.
Proof.
  apply (registry_is_consistent (after run_collision)).
  apply (run_reachable run_collision initial); [constructor|].
  vm_compute. reflexivity.
Defined.

(** ** The owner stays in the room *)

Lemma online_spec o ps :
  o ∈ map id (survivors ps) <-> exists p, p ∈ ps /\ id p = o /\ isOffline p = false.
Proof.
  unfold survivors. rewrite list_elem_of_fmap. split.
  - intros (p & -> & Hp). apply list_elem_of_In, filter_In in Hp as [Hin Hon].
    exists p. rewrite list_elem_of_In. destruct (isOffline p); [discriminate|auto].
  - intros (p & Hin & <- & Hon). exists p. split; [reflexivity|].
    apply list_elem_of_In, filter_In. rewrite <- list_elem_of_In, Hon. auto.
Qed.

Lemma online_filter_id o sock ps :
  o <> sock -> o ∈ map id (survivors ps) ->
  o ∈ map id (survivors (List.filter (fun p => negb (has_id sock p)) ps)).
Proof.
  intros Hne. rewrite !online_spec. intros (p & Hin & Hid & Hon).
  exists p. split; [|auto]. apply list_elem_of_In, filter_In.
  rewrite <- list_elem_of_In. split; [exact Hin|].
  unfold has_id. rewrite Hid. apply negb_true_iff, String.eqb_neq. exact Hne.
Qed.

Lemma online_set_offline o sock i ps :
  o <> sock -> findIndex (has_id sock) ps = Some i ->
  o ∈ map id (survivors ps) ->
  o ∈ map id (survivors (alter (set_isOffline true) i ps)).
Proof.
  intros Hne Hi. rewrite !online_spec. intros (p & Hin & Hid & Hon).
  exists p. split; [|auto].
  apply list_elem_of_lookup in Hin as [k Hk]. apply list_elem_of_lookup. exists k.
  rewrite list_lookup_alter_ne; [exact Hk|]. intros ->.
  apply findIndex_Some in Hi as [(q & Hq & Hs) _]. rewrite Hk in Hq.
  injection Hq as <-. unfold has_id in Hs. apply String.eqb_eq in Hs. congruence.
Qed.

Lemma findIndex_online_None ps :
  findIndex (fun p => negb (isOffline p)) ps = None -> forallb isOffline ps = true.
Proof.
  induction ps as [|p ps IH]; cbn; [reflexivity|].
  destruct (isOffline p); cbn; [|discriminate].
  destruct (findIndex _ ps); [discriminate|]. intros _. apply IH. reflexivity.
Qed.

Lemma onlineIds_framed x x' :
  framed (fun r => (ownerId r, onlineIds r)) x x' ->
  ownerId x'.1 = ownerId x.1 /\ onlineIds x'.1 = onlineIds x.1.
Proof. intros H. injection H as H1 H2. auto. Qed.

Lemma advanceTurn_owner self x x' :
  advanceTurn self x = Ok x' ->
  ownerId x'.1 = ownerId x.1 /\ onlineIds x'.1 = onlineIds x.1.
Proof.
  intros H. apply onlineIds_framed.
  apply (framed_advanceTurn (fun r => (ownerId r, onlineIds r)) ltac:(reflexivity) ltac:(reflexivity)
           proj_owner_online_roster self x x' H).
Qed.

Lemma checkCountdown_owner self x :
  ownerId (checkCountdown self x).1 = ownerId x.1
  /\ onlineIds (checkCountdown self x).1 = onlineIds x.1.
Proof.
  apply onlineIds_framed.
  apply (framed_checkCountdown (fun r => (ownerId r, onlineIds r)) ltac:(reflexivity) ltac:(reflexivity) self x).
Qed.

(** A disconnect that leaves somebody online leaves the room an owner
    who is online. *)
Lemma disconnect_room_owner r sock x x' :
  owner_seated x.1 -> disconnect_room r sock x = Ok x' ->
  forallb isOffline (players x'.1) = false -> owner_seated x'.1.
Proof.
  intros Hown. unfold disconnect_room. cbv zeta.
  match goal with |- bind ?m _ = _ -> _ => destruct m as [y|] eqn:Hy end;
    [|discriminate].
  cbn [bind].
  assert (Hy' : ownerId y.1 = ownerId x.1
                /\ forall o, o <> sock -> o ∈ onlineIds x.1 -> o ∈ onlineIds y.1).
  { destruct (phase_eqb (phase (state x.1)) LOBBY).
    - injection Hy as <-.
      destruct (checkCountdown_owner r
                  (on_players (List.filter (fun p => negb (has_id sock p))) x))
        as [Ho Hi].
      rewrite Ho, Hi. split; [reflexivity|].
      intros o Hne Hin. apply online_filter_id; assumption.
    - set (x1 := match findIndex (has_id sock) (players x.1) with
                 | Some i => on_players (alter (set_isOffline true) i) x
                 | None => x
                 end) in Hy.
      assert (H1 : ownerId x1.1 = ownerId x.1
                   /\ forall o, o <> sock -> o ∈ onlineIds x.1 -> o ∈ onlineIds x1.1).
      { unfold x1. destruct (findIndex (has_id sock) (players x.1)) as [i|] eqn:Hi;
          [|auto].
        split; [reflexivity|]. intros o Hne Hin.
        apply (online_set_offline o sock i _ Hne Hi Hin). }
      destruct (_ && _)%bool.
      + apply advanceTurn_owner in Hy as [Ho Hi]. rewrite clearTimer_room in Ho, Hi.
        rewrite Ho, Hi. exact H1.
      + injection Hy as <-. exact H1. }
  destruct Hy' as [Hoy Hiy].
  destruct (findIndex (fun p => negb (isOffline p)) (players y.1)) as [j|] eqn:Hj.
  - intros [= <-] _. unfold owner_seated.
    cbn [broadcastPublicRooms broadcastPlayerList emit fst].
    apply findIndex_Some in Hj as [(pj & Hpj & Hon) _].
    destruct (String.eqb_spec (ownerId y.1) sock) as [Hs|Hs].
    + assert (Hin : id pj ∈ onlineIds y.1).
      { apply online_spec. exists pj. split; [eapply list_elem_of_lookup_2; eauto|].
        destruct (isOffline pj); [discriminate|auto]. }
      rewrite Hpj. cbn [fmap option_fmap option_map default from_option].
      unfold Datatypes.id.
      set (z := on_players (alter (set_isOwner true) j)
                  (on_room (set_ownerId (id pj)) y)).
      assert (Hz : ownerId z.1 = id pj /\ onlineIds z.1 = onlineIds y.1).
      { split; [reflexivity|]. unfold onlineIds. cbn.
        apply survivors_alter_ids; reflexivity. }
      destruct (findIndex (has_id sock) (players x.1)) as [i|];
        [destruct (phase_eqb (phase (state x.1)) LOBBY)|].
      * destruct Hz as [-> ->]. exact Hin.
      * cbn [on_players on_room fst ownerId set_players]. unfold onlineIds.
        cbn [players set_players]. rewrite survivors_alter_ids by reflexivity.
        destruct Hz as [Hz1 Hz2]. unfold onlineIds in Hz2. rewrite Hz2.
        change (ownerId z.1 ∈ onlineIds y.1). rewrite Hz1. exact Hin.
      * destruct Hz as [-> ->]. exact Hin.
    + rewrite Hoy. apply Hiy; [congruence|exact Hown].
  - intros [= <-] Hall. cbn [broadcastPublicRooms emit fst] in Hall.
    apply findIndex_online_None in Hj. congruence.
Qed.

Lemma with_room_pres (P : Room -> Prop) r f w w' :
  (forall x x', P x.1 -> f x = Ok x' -> P x'.1) ->
  with_room r f w = Ok w' ->
  forall r0 room room',
    heap w !! r0 = Some room -> P room -> heap w' !! r0 = Some room' -> P room'.
Proof.
  intros Hf. unfold with_room.
  destruct (heap w !! r) as [room1|] eqn:Hr.
  2:{ intros [= <-] r0 room room' H1 HP H2. congruence. }
  destruct (f (room1, env w)) as [x'|] eqn:Hfx; [|discriminate].
  intros [= <-] r0 room room' H1 HP. cbn [heap].
  assert (Hlt : (r < length (heap w))%nat) by (eapply lookup_lt_Some; eauto).
  destruct (decide (r = r0)) as [<-|Hne].
  - rewrite list_lookup_insert_eq by exact Hlt. intros [= <-].
    rewrite Hr in H1. injection H1 as <-. apply (Hf (room1, env w) x' HP Hfx).
  - rewrite list_lookup_insert_ne by exact Hne. congruence.
Qed.

Lemma join_room_owner sock user c (x x' : St) :
  owner_seated x.1 ->
  (if (12 <=? length (players x.1))%nat then Ok (emit (EmitError sock ErrRoomFull) x)
   else if isTaken user (players x.1) then Ok (emit (EmitError sock ErrNameTaken) x)
   else
     let x := on_players (fun ps => (ps ++ [newPlayer sock user false])%list) x in
     let x := emit (RoomJoined sock c user (players x.1) false) x in
     let x := broadcastPlayerList x in
     let x := broadcastPublicRooms x in
     Ok (broadcastState x)) = Ok x' ->
  owner_seated x'.1.
Proof.
  intros Hown. destruct (12 <=? _)%nat; [intros [= <-]; exact Hown|].
  destruct (isTaken _ _); intros [= <-]; [exact Hown|].
  unfold owner_seated, onlineIds, survivors in *. cbn.
  rewrite List.filter_app, map_app. apply elem_of_app. left. exact Hown.
Qed.

Lemma kick_player_owner r sock targetId (x x' : St) :
  owner_seated x.1 ->
  (if negb (String.eqb (ownerId x.1) sock) then Ok x
   else if String.eqb targetId sock then Ok x
   else
     match List.find (has_id targetId) (players x.1) with
     | None => Ok x
     | Some targetPlayer =>
         let x := emit (Kicked targetId) x in
         let x :=
           on_players (List.filter (fun p => negb (has_id targetId p))) x in
         bind
           (if (phase_eqb (phase (state x.1)) WRITING
                && is_string (currentWriter x) targetId)%bool
            then advanceTurn r (clearTimer x)
            else Ok x)
           (fun x => Ok (broadcastPublicRooms (broadcastPlayerList x)))
     end) = Ok x' ->
  owner_seated x'.1.
Proof.
  intros Hown. destruct (String.eqb_spec (ownerId x.1) sock) as [Ho|Ho];
    [|intros [= <-]; exact Hown].
  cbn [negb]. destruct (String.eqb_spec targetId sock) as [Ht|Ht];
    [intros [= <-]; exact Hown|].
  destruct (List.find _ _); [|intros [= <-]; exact Hown]. cbv zeta.
  set (y := on_players (List.filter (fun p => negb (has_id targetId p)))
              (emit (Kicked targetId) x)).
  assert (Hy : owner_seated y.1).
  { unfold owner_seated, onlineIds. cbn.
    apply online_filter_id; [congruence|exact Hown]. }
  destruct (_ && _)%bool.
  - destruct (advanceTurn r (clearTimer y)) as [z|] eqn:Hadv; [|discriminate].
    intros [= <-]. apply advanceTurn_owner in Hadv as [H1 H2].
    rewrite clearTimer_room in H1, H2. unfold owner_seated. cbn.
    rewrite H1, H2. exact Hy.
  - intros [= <-]. exact Hy.
Qed.

Lemma step_owners_seated orc ev w w' :
  registry_ok w -> owners_seated w -> step orc ev w = Ok w' -> owners_seated w'.
Proof.
  intros [Hnd Hb] Hown Hs.
  assert (Hquiet : roster_event ev = false -> rooms w' = rooms w -> owners_seated w').
  { intros Hev E c r room' Hr Hroom'. rewrite E in Hr.
    destruct (Hb c r Hr) as (room & Hroom & _).
    destruct (step_framed_quiet (fun r => (ownerId r, onlineIds r))
                ltac:(reflexivity) ltac:(reflexivity) proj_owner_online_roster
                orc ev w w' Hev Hs r room Hroom) as (room'' & Hr'' & Hp).
    rewrite Hroom' in Hr''. injection Hr'' as <-.
    injection Hp as H1 H2. unfold owner_seated. rewrite H1, H2.
    apply (Hown c r room Hr Hroom). }
  assert (Hroster : forall r1 f,
            (forall x x', owner_seated x.1 -> f x = Ok x' -> owner_seated x'.1) ->
            with_room r1 f w = Ok w' -> owners_seated w').
  { intros r1 f Hf Hw c r room' Hr Hroom'.
    rewrite (with_room_rooms _ _ _ _ Hw) in Hr.
    destruct (Hb c r Hr) as (room & Hroom & _).
    apply (with_room_pres owner_seated r1 f w w' Hf Hw r room room' Hroom);
      [|exact Hroom'].
    apply (Hown c r room Hr Hroom). }
  pose proof (step_rooms orc ev w w' Hs) as Hrooms.
  destruct ev; try (apply Hquiet; [reflexivity|exact Hrooms]); cbn [step] in Hs.
  - (* create_room *)
    intros c r room' Hr Hroom'. rewrite Hrooms in Hr.
    unfold create_room in Hs. cbv zeta in Hs. injection Hs as <-. cbn [heap] in Hroom'.
    destruct (String.eqb_spec c (generateRoomCode random)) as [->|Hne].
    + rewrite reg_lookup_set_eq in Hr. injection Hr as <-.
      rewrite lookup_app_r in Hroom' by lia. rewrite Nat.sub_diag in Hroom'.
      injection Hroom' as <-. unfold owner_seated, onlineIds. cbn.
      apply list_elem_of_here.
    + rewrite reg_lookup_set_ne in Hr by exact Hne.
      destruct (Hb c r Hr) as (room & Hroom & _).
      rewrite lookup_app_l in Hroom' by (eapply lookup_lt_Some; eauto).
      rewrite Hroom in Hroom'. injection Hroom' as <-.
      apply (Hown c r room Hr Hroom).
  - (* join_room *)
    unfold join_room in Hs. destruct (negb (truthy c)).
    { injection Hs as <-. intros c0 r room'. apply Hown. }
    destruct (rooms_get w (toUpperCase c)) as [r1| |]; [|discriminate|].
    + apply (Hroster r1 _ (join_room_owner sock user (toUpperCase c)) Hs).
    + injection Hs as <-. intros c0 r room'. apply Hown.
  - (* kick_player *)
    unfold kick_player in Hs.
    destruct (rooms_get w c) as [r1| |]; [|injection Hs as <-; exact Hown..].
    apply (Hroster r1 _ (kick_player_owner r1 sock targetId) Hs).
  - (* disconnect *)
    unfold disconnect in Hs.
    destruct (getMyRoom sock w) as [r1|]; [|injection Hs as <-; exact Hown].
    unfold bind in Hs. destruct (with_room r1 _ w) as [w1|] eqn:Hw1; [|discriminate].
    pose proof (with_room_rooms _ _ _ _ Hw1) as Hrooms1.
    assert (Hcode : forall r room, heap w !! r = Some room ->
              exists room', heap w1 !! r = Some room' /\ code room' = code room).
    { apply (with_room_framed code r1 (disconnect_room r1 sock) w w1); [|exact Hw1].
      intros x x'. apply (framed_disconnect_room code); reflexivity. }
    assert (Hheap : heap w' = heap w1 /\
              ((rooms w' = rooms w1
                /\ forall room1, heap w1 !! r1 = Some room1 ->
                     forallb isOffline (players room1) = false)
               \/ exists room1, heap w1 !! r1 = Some room1
                    /\ rooms w' = reg_delete (code room1) (rooms w1))).
    { destruct (heap w1 !! r1) as [room1|] eqn:Hr1.
      - destruct (forallb isOffline (players room1)) eqn:Hall; injection Hs as <-.
        + split; [reflexivity|]. right. exists room1. auto.
        + split; [reflexivity|]. left. split; [reflexivity|].
          intros room1' [= <-]. exact Hall.
      - injection Hs as <-. split; [reflexivity|]. left. split; [reflexivity|].
        intros room1 H. discriminate. }
    destruct Hheap as [Hh Hreg]. clear Hs Hrooms.
    intros c r room' Hr Hroom'. rewrite Hh in Hroom'.
    assert (Hr0 : reg_lookup (rooms w) c = Some r
                  /\ (r = r1 -> forallb isOffline (players room') = false)).
    { destruct Hreg as [[E Hall]|(room1 & Hr1 & E)]; rewrite E in Hr.
      - rewrite Hrooms1 in Hr. split; [exact Hr|]. intros ->. apply Hall, Hroom'.
      - apply reg_lookup_delete in Hr as [Hne Hr]. rewrite Hrooms1 in Hr.
        split; [exact Hr|]. intros ->. exfalso. apply Hne.
        rewrite Hroom' in Hr1. injection Hr1 as <-.
        destruct (Hb c r1 Hr) as (room & Hroom & Hc).
        destruct (Hcode r1 room Hroom) as (room'' & Hr'' & Hc'').
        rewrite Hroom' in Hr''. injection Hr'' as <-. congruence. }
    destruct Hr0 as [Hr0 Hall].
    destruct (Hb c r Hr0) as (room & Hroom & _).
    pose proof (Hown c r room Hr0 Hroom) as Hseat.
    revert Hw1. unfold with_room.
    destruct (heap w !! r1) as [room1|] eqn:Hr1; [|intros [= <-]; congruence].
    destruct (disconnect_room r1 sock (room1, env w)) as [x'|] eqn:Hd; [|discriminate].
    intros [= <-]. cbn [heap] in Hroom'.
    assert (Hlt : (r1 < length (heap w))%nat) by (eapply lookup_lt_Some; eauto).
    destruct (decide (r1 = r)) as [->|Hne].
    + rewrite list_lookup_insert_eq in Hroom' by exact Hlt. injection Hroom' as <-.
      rewrite Hr1 in Hroom. injection Hroom as <-.
      apply (disconnect_room_owner r sock (room1, env w) x' Hseat Hd).
      apply Hall. reflexivity.
    + rewrite list_lookup_insert_ne in Hroom' by exact Hne. congruence.
Qed.

Lemma reachable_owners_seated w : reachable w -> owners_seated w.
Proof.
  induction 1 as [|w orc ev w' Hw IH Hstep].
  - intros c r room H. discriminate.
  - eapply step_owners_seated; eauto. apply reachable_registry_ok. exact Hw.
Qed.

(** X17: in every state the server can reach, every registered room has
    an owner who is one of its players and is online: ownership is handed
    to the first online player when the owner disconnects, and a room
    that is left with no online player is taken out of the registry.  So
    the lobby listing names a player of the room as the owner of every
    room it shows. *)
Theorem registered_room_has_online_owner w c r room :
  reachable w -> rooms_get w c = Own r -> heap w !! r = Some room ->
  (exists p, p ∈ players room /\ id p = ownerId room /\ isOffline p = false)
  /\ exists o, List.find (has_id (ownerId room)) (players room) = Some o
       /\ PublicRoom.ownerName (publicRoom room) = username o.
Proof.
  intros Hw Hget Hroom.
  assert (Hr : reg_lookup (rooms w) c = Some r).
  { unfold rooms_get in Hget. destruct (reg_lookup (rooms w) c); [congruence|].
    destruct (proto_key c); discriminate. }
  pose proof (reachable_owners_seated w Hw c r room Hr Hroom) as Hseat.
  apply online_spec in Hseat as (p & Hin & Hid & Hon).
  split; [eauto|]. unfold publicRoom. cbv zeta.
  destruct (List.find (has_id (ownerId room)) (players room)) as [o|] eqn:Hf.
  - exists o. auto.
  - apply list_elem_of_In in Hin. apply (find_none _ _ Hf) in Hin.
    unfold has_id in Hin. rewrite Hid, String.eqb_refl in Hin. discriminate.
Qed.

Lemma registered_room_has_online_owner_witness :
  exists room,
    heap (after run_voting_left) !! 0%nat = Some room
    /\ (exists p, p ∈ players room /\ id p = ownerId room /\ isOffline p = false)
    /\ exists o, List.find (has_id (ownerId room)) (players room) = Some o
         /\ PublicRoom.ownerName (publicRoom room) = username o.
Proof.
  eexists. split; [vm_compute; reflexivity|].
  apply (registered_room_has_online_owner (after run_voting_left) "ABCDE" 0%nat).
  - apply (run_reachable run_voting_left initial); [constructor|].
    vm_compute. reflexivity.
  - vm_compute. reflexivity.
  - vm_compute. reflexivity.
Defined.

(** ** Leaving *)

Lemma forallb_upto (f : Player -> bool) (g : Player -> Player) ps qs :
  (forall p, f (g p) = f p) -> map g ps = map g qs -> forallb f ps = forallb f qs.
Proof.
  intros Hf. revert qs. induction ps as [|p ps IH]; intros [|q qs] H;
    try discriminate; [reflexivity|].
  injection H as Hp Hps. cbn. rewrite <- (Hf p), Hp, Hf. f_equal. apply IH. exact Hps.
Qed.

Lemma allReady_upto (g : Player -> Player) ps qs :
  (forall p, isReady (g p) = isReady p) -> map g ps = map g qs ->
  allReady ps = allReady qs.
Proof.
  intros Hg H. unfold allReady. rewrite (forallb_upto isReady g ps qs Hg H).
  apply (f_equal length) in H. rewrite !length_map in H. rewrite H. reflexivity.
Qed.

(** [disconnect] works in two stages: the departure, and the hand-over of
    the ownership, which leaves the room as it finds it, ownership apart. *)
Lemma disconnect_room_split r sock x x' :
  disconnect_room r sock x = Ok x' ->
  exists y,
    (if phase_eqb (phase (state x.1)) LOBBY then
       Ok (checkCountdown r
             (on_players (List.filter (fun p => negb (has_id sock p))) x))
     else
       let x1 :=
         match findIndex (has_id sock) (players x.1) with
         | Some i => on_players (alter (set_isOffline true) i) x
         | None => x
         end in
       if (phase_eqb (phase (state x1.1)) WRITING
           && is_string (currentWriter x1) sock)%bool
       then advanceTurn r (clearTimer x1)
       else Ok x1) = Ok y
    /\ state x'.1 = state y.1 /\ code x'.1 = code y.1
    /\ timerInterval x'.1 = timerInterval y.1 /\ timers x'.2 = timers y.2
    /\ map (set_isOwner false) (players x'.1) = map (set_isOwner false) (players y.1).
Proof.
  unfold disconnect_room. cbv zeta.
  match goal with |- bind ?m _ = _ -> _ => destruct m as [y|] eqn:Hy end;
    [|discriminate].
  cbn [bind]. intros [= <-]. exists y. split; [reflexivity|]. clear Hy.
  destruct (findIndex (fun p => negb (isOffline p)) (players y.1)) as [j|];
    [|cbn; auto].
  destruct (String.eqb (ownerId y.1) sock); [|cbn; auto].
  destruct (findIndex (has_id sock) (players x.1)) as [i|];
    [destruct (phase_eqb (phase (state x.1)) LOBBY)|]; cbn;
    rewrite ?(map_alter_field (set_isOwner false)) by reflexivity; auto.
Qed.

Lemma disconnect_room_lobby r sock (x : St) :
  phase (state x.1) = LOBBY -> 0 <= timer (state x.1) ->
  exists x',
    disconnect_room r sock x = Ok x'
    /\ code x'.1 = code x.1
    /\ map (set_isOwner false) (players x'.1)
       = map (set_isOwner false)
           (List.filter (fun p => negb (has_id sock p)) (players x.1))
    /\ phase (state x'.1) = LOBBY
    /\ timer (state x'.1) = if allReady (players x'.1) then 4 else 0.
Proof.
  intros Hph H0.
  destruct (disconnect_room r sock x) as [x'|] eqn:Hd.
  2:{ unfold disconnect_room in Hd. cbv zeta in Hd. rewrite Hph in Hd.
      discriminate Hd. }
  apply disconnect_room_split in Hd as (y & Hy & Hs & Hc & _ & _ & Hp).
  rewrite Hph in Hy. cbn [phase_eqb] in Hy. injection Hy as <-.
  set (x0 := on_players (List.filter (fun p => negb (has_id sock p))) x) in *.
  destruct (checkCountdown_spec r x0 H0 Hph) as (Hps & _ & Hph' & Hcd).
  exists x'. split; [reflexivity|]. rewrite Hs, Hc, Hp, Hps, Hph'.
  split.
  { unfold checkCountdown. destruct (allReady _); [rewrite setPhase_room|];
      [reflexivity|]. destruct (0 <? _); [rewrite setPhase_room|]; reflexivity. }
  split; [reflexivity|]. split; [reflexivity|].
  rewrite (allReady_upto (set_isOwner false) (players x'.1) (players x0.1))
    by (try reflexivity; rewrite Hp, Hps; reflexivity).
  destruct (allReady (players x0.1)); [apply Hcd|exact Hcd].
Qed.

(** X18: as long as no room is registered under the empty code, when a
    socket whose room is in LOBBY disconnects in a reachable state, every
    player with its id is removed from the roster and the other players
    stay in their order; the room stays in LOBBY, with the start
    countdown at 4 if at least two players are left and all are ready and
    the timer at 0 otherwise; and the room is taken out of the registry
    exactly when no online player is left. *)
Theorem disconnect_in_lobby_leaves w sock r room :
  reachable w -> reg_lookup (rooms w) "" = None ->
  getMyRoom sock w = Some r -> heap w !! r = Some room ->
  phase (state room) = LOBBY ->
  exists w' room',
    disconnect sock w = Ok w'
    /\ heap w' !! r = Some room'
    /\ map id (players room')
       = List.filter (fun i => negb (String.eqb i sock)) (map id (players room))
    /\ phase (state room') = LOBBY
    /\ timer (state room') = (if allReady (players room') then 4 else 0)
    /\ rooms w' = (if forallb isOffline (players room')
                   then reg_delete (code room) (rooms w) else rooms w).
Proof.
  intros Hw _ Hmy Hroom Hph. unfold disconnect. rewrite Hmy.
  destruct (disconnect_room_lobby r sock (room, env w) Hph)
    as (x' & Hx' & Hc & Hp & Hph' & Ht).
  { apply (reachable_clock_wf w Hw r room Hroom). }
  rewrite (with_room_ok r _ w room x' Hroom Hx'). cbn [bind heap].
  assert (Hlook : <[r := x'.1]> (heap w) !! r = Some x'.1).
  { apply list_lookup_insert_eq. eapply lookup_lt_Some; eauto. }
  rewrite Hlook.
  assert (Hids : map id (players x'.1)
            = List.filter (fun i => negb (String.eqb i sock)) (map id (players room))).
  { apply (f_equal (map id)) in Hp. rewrite <- !list_fmap_compose in Hp.
    etrans; [exact Hp|]. apply map_id_filter. }
  cbn [fst] in Hc.
  destruct (forallb isOffline (players x'.1)) eqn:Hall; eexists _, x'.1;
    (split; [reflexivity|]); cbn [heap rooms]; rewrite ?Hc, Hall;
    repeat split; assumption.
Qed.

Lemma disconnect_in_lobby_leaves_witness :
  exists w' room',
    disconnect "b" (after run_countdown) = Ok w'
    /\ heap w' !! 0%nat = Some room'
    /\ map id (players room') = ["a"]
    /\ phase (state room') = LOBBY
    /\ timer (state room') = (if allReady (players room') then 4 else 0).
Proof.
  destruct (disconnect_in_lobby_leaves (after run_countdown) "b" 0%nat
              (default (sample_room [] LOBBY).1 (heap (after run_countdown) !! 0%nat)))
    as (w' & room' & Hrun & Hroom' & Hids & Hph & Ht & _);
    try (vm_compute; reflexivity).
  { apply (run_reachable run_countdown initial); [constructor|].
    vm_compute. reflexivity. }
  exists w', room'. auto.
Defined.

Lemma disconnect_room_after r sock x y :
  (if phase_eqb (phase (state x.1)) LOBBY then
     Ok (checkCountdown r
           (on_players (List.filter (fun p => negb (has_id sock p))) x))
   else
     let x1 :=
       match findIndex (has_id sock) (players x.1) with
       | Some i => on_players (alter (set_isOffline true) i) x
       | None => x
       end in
     if (phase_eqb (phase (state x1.1)) WRITING
         && is_string (currentWriter x1) sock)%bool
     then advanceTurn r (clearTimer x1)
     else Ok x1) = Ok y ->
  exists x',
    disconnect_room r sock x = Ok x'
    /\ state x'.1 = state y.1 /\ code x'.1 = code y.1
    /\ timerInterval x'.1 = timerInterval y.1 /\ timers x'.2 = timers y.2
    /\ map (set_isOwner false) (players x'.1) = map (set_isOwner false) (players y.1).
Proof.
  intros Hy. destruct (disconnect_room r sock x) as [x'|] eqn:Hd.
  - apply disconnect_room_split in Hd as (y' & Hy' & H).
    cbv zeta in Hy, Hy'. rewrite Hy in Hy'. injection Hy' as <-. exists x'. auto.
  - exfalso. unfold disconnect_room in Hd. cbv zeta in Hd, Hy. rewrite Hy in Hd.
    discriminate Hd.
Qed.

(** X19: as long as no room is registered under the empty code, when a
    player disconnects during WRITING the player stays in the roster,
    marked offline, and every id, score and word is kept.  If it was this
    player's turn the turn passes at once: the turn index moves strictly
    forward and the room is still in WRITING or has entered DISCUSSING.
    If it was somebody else's turn, the phase state and the running turn
    timer are untouched. *)
Theorem disconnect_in_writing w sock r room order i :
  reg_lookup (rooms w) "" = None ->
  getMyRoom sock w = Some r -> heap w !! r = Some room ->
  phase (state room) = WRITING -> turnOrder (state room) = Some order ->
  findIndex (has_id sock) (players room) = Some i ->
  exists w' room',
    disconnect sock w = Ok w'
    /\ heap w' !! r = Some room'
    /\ isOffline <$> players room' !! i = Some true
    /\ map id (players room') = map id (players room)
    /\ map score (players room') = map score (players room)
    /\ map word (players room') = map word (players room)
    /\ if is_string (order !! turnIndex (state room)) sock
       then (turnIndex (state room) < turnIndex (state room'))%nat
            /\ (phase (state room') = WRITING \/ phase (state room') = DISCUSSING)
       else state room' = state room
            /\ timerInterval room' = timerInterval room
            /\ timers (env w') = timers (env w).
Proof.
  intros _ Hmy Hroom Hph Hord Hi. unfold disconnect. rewrite Hmy.
  set (x1 := on_players (alter (set_isOffline true) i) (room, env w)).
  assert (Hstage : exists y,
            (if phase_eqb (phase (state (room, env w).1)) LOBBY then
               Ok (checkCountdown r
                     (on_players (List.filter (fun p => negb (has_id sock p)))
                        (room, env w)))
             else
               let x1 :=
                 match findIndex (has_id sock) (players (room, env w).1) with
                 | Some i => on_players (alter (set_isOffline true) i) (room, env w)
                 | None => (room, env w)
                 end in
               if (phase_eqb (phase (state x1.1)) WRITING
                   && is_string (currentWriter x1) sock)%bool
               then advanceTurn r (clearTimer x1)
               else Ok x1) = Ok y
            /\ map (set_hasSkippedDiscussion false) (players y.1)
               = map (set_hasSkippedDiscussion false) (players x1.1)
            /\ if is_string (order !! turnIndex (state room)) sock
               then (turnIndex (state room) < turnIndex (state y.1))%nat
                    /\ (phase (state y.1) = WRITING \/ phase (state y.1) = DISCUSSING)
               else state y.1 = state room
                    /\ timerInterval y.1 = timerInterval room
                    /\ timers y.2 = timers (env w)).
  { cbn [fst]. rewrite Hph, Hi. cbn [phase_eqb]. cbv zeta. fold x1.
    change (phase (state x1.1)) with (phase (state room)). rewrite Hph.
    cbn [phase_eqb andb].
    change (currentWriter x1) with (turnOrder (state room) ≫= (.!! turnIndex (state room))).
    rewrite Hord. cbn [mbind option_bind].
    destruct (is_string (order !! turnIndex (state room)) sock).
    - destruct (advanceTurn_advances r (clearTimer x1) order)
        as (y & Hy & Hidx & _ & Hps & Hphase).
      { rewrite clearTimer_room. exact Hord. }
      rewrite clearTimer_room in Hidx, Hps, Hphase.
      exists y. split; [exact Hy|]. split; [exact Hps|]. split; [exact Hidx|].
      change (phase (state x1.1)) with (phase (state room)) in Hphase.
      rewrite Hph in Hphase. exact Hphase.
    - exists x1. auto. }
  destruct Hstage as (y & Hy & Hps & Hturn).
  destruct (disconnect_room_after r sock (room, env w) y Hy)
    as (x' & Hx' & Hs & Hc & Hti & Htm & Hp).
  rewrite (with_room_ok r _ w room x' Hroom Hx'). cbn [bind heap].
  assert (Hlook : <[r := x'.1]> (heap w) !! r = Some x'.1).
  { apply list_lookup_insert_eq. eapply lookup_lt_Some; eauto. }
  rewrite Hlook.
  assert (Hfield : forall {B} (proj : Player -> B),
            (forall b p, proj (set_isOwner b p) = proj p) ->
            (forall b p, proj (set_hasSkippedDiscussion b p) = proj p) ->
            map proj (players x'.1)
            = map proj (alter (set_isOffline true) i (players room))).
  { intros B proj H1 H2.
    apply (f_equal (map proj)) in Hp. rewrite <- !list_fmap_compose in Hp.
    apply (f_equal (map proj)) in Hps. rewrite <- !list_fmap_compose in Hps.
    etrans; [|etrans; [exact Hps|]].
    - etrans; [|etrans; [exact Hp|]]; apply list_fmap_ext; intros; cbn;
        rewrite ?H1, ?H2; reflexivity.
    - apply list_fmap_ext; intros; cbn; rewrite ?H2; reflexivity. }
  assert (Hfacts : isOffline <$> players x'.1 !! i = Some true
            /\ map id (players x'.1) = map id (players room)
            /\ map score (players x'.1) = map score (players room)
            /\ map word (players x'.1) = map word (players room)
            /\ if is_string (order !! turnIndex (state room)) sock
               then (turnIndex (state room) < turnIndex (state x'.1))%nat
                    /\ (phase (state x'.1) = WRITING \/ phase (state x'.1) = DISCUSSING)
               else state x'.1 = state room
                    /\ timerInterval x'.1 = timerInterval room
                    /\ timers x'.2 = timers (env w)).
  { split.
    { pose proof (Hfield _ isOffline ltac:(reflexivity) ltac:(reflexivity)) as E.
      apply (f_equal (fun l => l !! i)) in E. rewrite !list_lookup_fmap in E.
      rewrite E, list_lookup_alter_eq.
      apply findIndex_Some in Hi as [(p & Hpi & _) _]. rewrite Hpi. reflexivity. }
    split.
    { rewrite (Hfield _ id) by reflexivity. apply map_alter_field. reflexivity. }
    split.
    { rewrite (Hfield _ score) by reflexivity. apply map_alter_field. reflexivity. }
    split.
    { rewrite (Hfield _ word) by reflexivity. apply map_alter_field. reflexivity. }
    rewrite Hs, Hti, Htm. exact Hturn. }
  destruct (forallb isOffline (players x'.1)); eexists _, x'.1;
    (split; [reflexivity|]); cbn [heap env]; (split; [exact Hlook|exact Hfacts]).
Qed.

Lemma disconnect_in_writing_witness :
  exists w' room',
    disconnect "a" (after run_writing) = Ok w'
    /\ heap w' !! 0%nat = Some room'
    /\ isOffline <$> players room' !! 0%nat = Some true
    /\ map id (players room') = ["a"; "b"].
Proof.
  destruct (disconnect_in_writing (after run_writing) "a" 0%nat
              (default (sample_room [] LOBBY).1 (heap (after run_writing) !! 0%nat))
              ["a"; "b"] 0%nat)
    as (w' & room' & Hrun & Hroom' & Hoff & Hids & _);
    try (vm_compute; reflexivity).
  exists w', room'. auto.
Defined.

(** ** Creating and joining *)





(** ** The end of the match *)

(** X22: when the RESULTS countdown runs out and the round counter has
    reached the room's number of rounds, the match ends: the interval is
    cancelled, the room enters MATCH_END with 30 seconds, the winners are
    marked as awarded if there is any player, every id and score is kept
    and every match-end skip flag is cleared. *)
Theorem results_timeout_ends_match orc h t room w :
  timers (env w) !! h = Some t -> live t = true -> kind t = PhaseTimer ->
  heap w !! owner t = Some room -> timerInterval room = Some h ->
  phase (state room) = RESULTS -> timer (state room) <= 1 ->
  round_lt (currentRound (state room)) (rounds room) = false ->
  exists w' room',
    tick orc h w = Ok w'
    /\ heap w' !! owner t = Some room'
    /\ phase (state room') = MATCH_END
    /\ timer (state room') = 30
    /\ map id (players room') = map id (players room)
    /\ map score (players room') = map score (players room)
    /\ Forall (fun p => hasSkipped p = false) (players room')
    /\ (players room <> [] -> winnerAwardSent (state room') = true)
    /\ live <$> timers (env w') !! h = Some false.
Proof.
  intros Ht Hlive Hkind Hroom Hstored Hph Htimer Hlast.
  unfold tick. rewrite Ht, Hlive. cbn [negb].
  set (y := clearTimer (on_state (fun s => set_timer (timer s - 1) s) (room, env w))).
  set (z := awardMatchWinners y).
  set (x' := on_players (map (set_hasSkipped false)) (setPhase (owner t) MATCH_END 30 z)).
  assert (Hy : y.1 = set_state (set_timer (timer (state room) - 1) (state room)) room).
  { unfold y. rewrite clearTimer_room. reflexivity. }
  rewrite (with_room_ok (owner t) _ w room x' Hroom).
  2:{ cbv zeta.
      assert (Hle : (timer (state (on_state (fun s => set_timer (timer s - 1) s)
                                     (room, env w)).1) <=? 0) = true).
      { cbn. apply Z.leb_le. lia. }
      rewrite Hle, Hkind. unfold handlePhaseTimeout. fold y. rewrite Hy.
      cbn [state set_state phase set_timer rounds currentRound].
      rewrite Hph, Hlast. reflexivity. }
  assert (Hz : players z.1 = players room
               /\ (players room <> [] -> winnerAwardSent (state z.1) = true)
               /\ timers z.2 = timers y.2 /\ timerInterval z.1 = timerInterval y.1).
  { assert (Hyp : players y.1 = players room) by (rewrite Hy; reflexivity).
    unfold z. destruct (winnerAwardSent (state y.1)) eqn:Hsent.
    - unfold awardMatchWinners. rewrite Hsent. auto.
    - rewrite (awardMatchWinners_first y Hsent). rewrite Hyp.
      destruct (players room) as [|p ps] eqn:Hps.
      + split; [exact Hyp|]. split; [congruence|]. split; reflexivity.
      + cbn. rewrite Hyp. auto. }
  destruct Hz as (Hzp & Hzs & Hzt & Hzi).
  assert (Hlt : (owner t < length (heap w))%nat) by (eapply lookup_lt_Some; eauto).
  exists (mkWorld (<[owner t := x'.1]> (heap w)) (rooms w) x'.2), x'.1.
  split; [reflexivity|]. cbn [heap env].
  split; [apply list_lookup_insert_eq; exact Hlt|].
  unfold x'. cbn [on_players on_room fst snd players set_players state].
  rewrite setPhase_room. cbn [state set_timer set_phase phase timer players
    winnerAwardSent].
  split; [reflexivity|]. split; [reflexivity|].
  rewrite Hzp, <- !list_fmap_compose.
  split; [reflexivity|]. split; [reflexivity|].
  split; [apply Forall_fmap, Forall_true; reflexivity|].
  split; [exact Hzs|].
  rewrite setPhase_timers, Hzi, Hzt. unfold y.
  rewrite clearTimer_room. cbn [on_state on_room fst timerInterval set_state].
  rewrite Hstored. unfold clearTimer. cbn [on_state on_room fst snd timerInterval
    set_state]. rewrite Hstored. cbn [snd clearInterval timers].
  apply lookup_lt_Some in Ht as Hh.
  rewrite lookup_app_l by (rewrite !length_alter; exact Hh).
  rewrite !list_lookup_alter_eq, Ht. reflexivity.
Qed.

Lemma results_timeout_ends_match_witness :
  exists w' room',
    tick orc2 5%nat (after run_last_round) = Ok w'
    /\ heap w' !! 0%nat = Some room'
    /\ phase (state room') = MATCH_END
    /\ timer (state room') = 30.
Proof.
  destruct (results_timeout_ends_match orc2 5%nat (mkTimer 0 PhaseTimer true)
              (default (sample_room [] LOBBY).1 (heap (after run_last_round) !! 0%nat))
              (after run_last_round))
    as (w' & room' & Hrun & Hroom' & Hph & Ht & _).
  - vm_compute. reflexivity.
  - reflexivity.
  - reflexivity.
  - vm_compute. reflexivity.
  - vm_compute. reflexivity.
  - vm_compute. reflexivity.
  - vm_compute. discriminate.
  - vm_compute. reflexivity.
  - exists w', room'. auto.
Defined.

(** ** Twelve players at most, and no negative score *)

Lemma tames_refl x : tames x x.
Proof. intros H. exact H. Qed.

Lemma tames_trans x y z : tames x y -> tames y z -> tames x z.
Proof. unfold tames. auto. Qed.

Lemma tames_same (x x' : St) : players x'.1 = players x.1 -> tames x x'.
Proof. intros H. unfold tames. rewrite H. auto. Qed.

Lemma sound_filter (f : Player -> bool) ps : sound ps -> sound (List.filter f ps).
Proof.
  intros [Hl Hs]. split.
  - etrans; [|exact Hl]. clear. induction ps as [|p ps IH]; cbn; [lia|].
    destruct (f p); cbn; lia.
  - apply Forall_forall. intros p Hp. rewrite Forall_forall in Hs. apply Hs.
    apply list_elem_of_In, filter_In in Hp as [Hp _]. apply list_elem_of_In. exact Hp.
Qed.

Lemma sound_map (g : Player -> Player) ps :
  (forall p, 0 <= score p -> 0 <= score (g p)) -> sound ps -> sound (map g ps).
Proof.
  intros Hg [Hl Hs]. split; [rewrite length_map; exact Hl|].
  apply Forall_fmap. eapply Forall_impl; [exact Hs|]. exact Hg.
Qed.

Lemma sound_alter (g : Player -> Player) i ps :
  (forall p, 0 <= score p -> 0 <= score (g p)) -> sound ps -> sound (alter g i ps).
Proof.
  intros Hg [Hl Hs]. split; [rewrite length_alter; exact Hl|].
  apply Forall_alter; [exact Hs|]. intros p _. apply Hg.
Qed.

Lemma sound_foldl_alter (g : Player -> Player) js : forall ps,
  (forall p, 0 <= score p -> 0 <= score (g p)) -> sound ps ->
  sound (foldl (fun acc j => alter g j acc) ps js).
Proof.
  induction js as [|j js IH]; intros ps Hg Hs; cbn [foldl]; [exact Hs|].
  apply IH; [exact Hg|]. apply sound_alter; assumption.
Qed.

Lemma sound_scoreRound ps : sound ps -> sound (scoreRound ps).
Proof.
  intros Hs. unfold scoreRound. destruct (caught ps).
  - apply sound_map; [|exact Hs]. intros p Hp.
    destruct (theImpostor ps); [|exact Hp].
    destruct (is_string _ _); [cbn; lia|exact Hp].
  - destruct (impostorIndex ps); [|exact Hs].
    apply sound_alter; [|exact Hs]. intros p Hp. cbn. lia.
Qed.

Ltac sound_side :=
  intros;
  first
    [ assumption
    | apply sound_filter; assumption
    | apply sound_scoreRound; assumption
    | apply sound_map; [intros ? ?; cbn; first [assumption | lia]|assumption]
    | apply sound_alter; [intros ? ?; cbn; first [assumption | lia]|assumption]
    | apply sound_foldl_alter; [intros ? ?; cbn; first [assumption | lia]|assumption] ].

Lemma tames_on_players f x :
  (forall ps, sound ps -> sound (f ps)) -> tames x (on_players f x).
Proof. intros Hf H. apply Hf, H. Qed.

Lemma tames_emit o x : tames x (emit o x).
Proof. apply tames_same; reflexivity. Qed.

Lemma tames_on_state f x : tames x (on_state f x).
Proof. apply tames_same; reflexivity. Qed.

Lemma tames_set_ownerId v x : tames x (on_room (set_ownerId v) x).
Proof. apply tames_same; reflexivity. Qed.

Lemma tames_broadcastState x : tames x (broadcastState x).
Proof. apply tames_same; reflexivity. Qed.

Lemma tames_broadcastPlayerList x : tames x (broadcastPlayerList x).
Proof. apply tames_same; reflexivity. Qed.

Lemma tames_broadcastPublicRooms x : tames x (broadcastPublicRooms x).
Proof. apply tames_same; reflexivity. Qed.

Lemma tames_suspend self x : tames x (suspend self x).
Proof. apply tames_same; reflexivity. Qed.

Lemma tames_clearTimer x : tames x (clearTimer x).
Proof. apply tames_same. rewrite clearTimer_room. reflexivity. Qed.

Lemma tames_setPhase self ph d x : tames x (setPhase self ph d x).
Proof. apply tames_same. apply setPhase_players. Qed.

Lemma tames_emits {A} (f : A -> Output) (l : list A) x :
  tames x (foldl (fun y a => emit (f a) y) x l).
Proof. apply tames_same. rewrite emits_room. reflexivity. Qed.

Create HintDb tame.
#[global] Hint Resolve tames_emit tames_on_state tames_set_ownerId
  tames_broadcastState tames_broadcastPlayerList tames_broadcastPublicRooms
  tames_suspend tames_clearTimer tames_setPhase tames_emits : tame.
#[global] Hint Extern 1 (tames _ (on_players _ _)) =>
  apply tames_on_players; sound_side : tame.

Ltac tames_chain :=
  repeat first
    [ match goal with |- tames ?a ?a => apply tames_refl end
    | eapply tames_trans; [| solve [auto 1 with tame nocore] ] ].

Lemma tames_startTurn_loop self rest : forall x, tames x (startTurn_loop self rest x).
Proof.
  induction rest as [|w rest IH]; intros x; cbn [startTurn_loop]; cbv zeta.
  - tames_chain.
  - assert (Hskip : tames x (startTurn_loop self rest
              (on_state (fun s => set_turnIndex (S (turnIndex s)) s) x))).
    { eapply tames_trans; [apply tames_on_state | apply IH]. }
    destruct (List.find (has_id w) (players x.1)) as [cw|]; [|exact Hskip].
    destruct (isOffline cw); [exact Hskip|].
    apply tames_same. rewrite clearTimer_armTimer_room. reflexivity.
Qed.
#[global] Hint Resolve tames_startTurn_loop : tame.

Lemma tames_advanceTurn self x x' : advanceTurn self x = Ok x' -> tames x x'.
Proof.
  unfold advanceTurn, startTurn. cbn [on_state on_room fst state set_state turnOrder
    set_turnIndex]. destruct (turnOrder (state x.1)); [|discriminate].
  intros [= <-]. tames_chain.
Qed.

Lemma tames_calculateResults self x : tames x (calculateResults self x).
Proof. unfold calculateResults. cbv zeta. tames_chain. Qed.

Lemma tames_resetMatch x : tames x (resetMatch x).
Proof. unfold resetMatch. cbv zeta. tames_chain. Qed.

Lemma tames_awardMatchWinners x : tames x (awardMatchWinners x).
Proof.
  apply tames_same. destruct (winnerAwardSent (state x.1)) eqn:Hs.
  - unfold awardMatchWinners. rewrite Hs. reflexivity.
  - rewrite (awardMatchWinners_first x Hs). destruct (players x.1) eqn:E; [exact E|].
    rewrite <- E. reflexivity.
Qed.

Lemma tames_checkCountdown self x : tames x (checkCountdown self x).
Proof.
  unfold checkCountdown. destruct (allReady _); [apply tames_setPhase|].
  destruct (0 <? _); [apply tames_setPhase|apply tames_refl].
Qed.
#[global] Hint Resolve tames_calculateResults tames_resetMatch
  tames_awardMatchWinners tames_checkCountdown : tame.

Lemma tames_nextRound self orc x x' : nextRound self orc x = Ok x' -> tames x x'.
Proof.
  unfold nextRound. cbv zeta. destruct (_ <? 2)%nat.
  - intros [= <-]. tames_chain.
  - unfold startWritingPhase, startTurn. cbv zeta.
    destruct (turnOrder _); [|discriminate]. intros [= <-].
    unfold assignImpostors. tames_chain.
Qed.

Lemma tames_startGame self orc x x' : startGame self orc x = Ok x' -> tames x x'.
Proof.
  unfold startGame. cbv zeta. destruct (0 <? _).
  - intros [= <-]. tames_chain.
  - intros H. apply tames_nextRound in H.
    eapply tames_trans; [|exact H]. tames_chain.
Qed.

Lemma tames_handlePhaseTimeout self orc x x' :
  handlePhaseTimeout self orc x = Ok x' -> tames x x'.
Proof.
  unfold handlePhaseTimeout. destruct (phase (state x.1)).
  - apply tames_startGame.
  - intros [= <-]. apply tames_refl.
  - apply tames_advanceTurn.
  - intros [= <-]. tames_chain.
  - intros [= <-]. tames_chain.
  - destruct (round_lt _ _).
    + apply tames_nextRound.
    + intros [= <-]. tames_chain.
  - intros [= <-]. tames_chain.
Qed.

Ltac tames_leaf H :=
  first
    [ injection H as <-; tames_chain
    | eapply tames_trans;
      [| first [ eapply tames_advanceTurn; exact H
               | eapply tames_startGame; exact H
               | eapply tames_handlePhaseTimeout; exact H
               | eapply tames_nextRound; exact H ] ];
      tames_chain ].

Lemma tames_disconnect_room r sock x x' :
  disconnect_room r sock x = Ok x' -> tames x x'.
Proof.
  unfold disconnect_room. cbv zeta. unfold bind.
  destruct (phase_eqb (phase (state x.1)) LOBBY).
  - intros H. keeps_split H; tames_leaf H.
  - destruct (_ && _)%bool.
    + destruct (advanceTurn r _) as [y|] eqn:Hadv; [|discriminate].
      intros H. apply tames_advanceTurn in Hadv.
      apply (tames_trans _ y).
      { eapply tames_trans; [|exact Hadv].
        destruct (findIndex (has_id sock) (players x.1)); tames_chain. }
      keeps_split H; tames_leaf H.
    + intros H.
      destruct (findIndex (has_id sock) (players x.1));
        keeps_split H; tames_leaf H.
Qed.

Lemma sound_join ps p : (length ps < 12)%nat -> score p = 0 -> sound ps -> sound (ps ++ [p]).
Proof.
  intros Hlt Hp [Hl Hs]. split.
  - rewrite length_app. cbn. lia.
  - apply Forall_app. split; [exact Hs|]. constructor; [lia|constructor].
Qed.

Lemma with_room_sound r f w w' :
  (forall x x', f x = Ok x' -> tames x x') ->
  rosters_sound w -> with_room r f w = Ok w' -> rosters_sound w'.
Proof.
  intros Hf Hs. unfold with_room.
  destruct (heap w !! r) as [room1|] eqn:Hr; [|intros [= <-]; exact Hs].
  destruct (f (room1, env w)) as [x'|] eqn:Hfx; [|discriminate].
  intros [= <-] r0 room'. cbn [heap].
  assert (Hlt : (r < length (heap w))%nat) by (eapply lookup_lt_Some; eauto).
  destruct (decide (r = r0)) as [<-|Hne].
  - rewrite list_lookup_insert_eq by exact Hlt. intros [= <-].
    apply (Hf _ _ Hfx). apply (Hs r room1 Hr).
  - rewrite list_lookup_insert_ne by exact Hne. apply Hs.
Qed.

Lemma step_rosters_sound orc ev w w' :
  rosters_sound w -> step orc ev w = Ok w' -> rosters_sound w'.
Proof.
  intros Hs. destruct ev; cbn [step].
  - (* create_room *)
    unfold create_room. cbv zeta. intros [= <-] r room Hr. cbn [heap] in Hr.
    destruct (decide (r < length (heap w))%nat) as [Hlt|Hge].
    + rewrite lookup_app_l in Hr by exact Hlt. apply (Hs r room Hr).
    + rewrite lookup_app_r in Hr by lia.
      destruct (r - length (heap w))%nat; [|discriminate].
      injection Hr as <-. split; cbn; [lia|]. constructor; [cbn; lia|constructor].
  - (* join_room *)
    unfold join_room. destruct (negb (truthy c)); [intros [= <-]; exact Hs|].
    destruct (rooms_get w (toUpperCase c)); [|discriminate|intros [= <-]; exact Hs].
    apply with_room_sound; [|exact Hs]. intros x x'.
    destruct (Nat.leb_spec 12 (length (players x.1))) as [_|Hlt];
      [intros [= <-]; apply tames_emit|].
    destruct (isTaken _ _); intros [= <-]; [apply tames_emit|].
    intros Hx. cbn. apply sound_join; [exact Hlt|reflexivity|exact Hx].
  - (* get_public_rooms *)
    intros [= <-]. exact Hs.
  - (* start_game *)
    unfold start_game. destruct (rooms_get w c); [|discriminate|intros [= <-]; exact Hs].
    apply with_room_sound; [|exact Hs]. intros x x'. apply tames_startGame.
  - (* kick_player *)
    unfold kick_player. destruct (rooms_get w c); [|intros [= <-]; exact Hs..].
    apply with_room_sound; [|exact Hs]. intros x x' H.
    destruct (negb _); [tames_leaf H|].
    destruct (String.eqb targetId sock); [tames_leaf H|].
    destruct (List.find _ _); [|tames_leaf H].
    unfold bind in H. destruct (_ && _)%bool.
    + destruct (advanceTurn r _) as [y|] eqn:Hadv; [|discriminate].
      apply tames_advanceTurn in Hadv. injection H as <-.
      apply (tames_trans _ y); [|tames_chain].
      eapply tames_trans; [|exact Hadv]. tames_chain.
    + tames_leaf H.
  - (* submit_word *)
    unfold submit_word. destruct (rooms_get w c); [|discriminate|intros [= <-]; exact Hs].
    apply with_room_sound; [|exact Hs]. intros x x' H. keeps_split H; tames_leaf H.
  - (* submit_vote *)
    unfold submit_vote. destruct (rooms_get w c); [|discriminate|intros [= <-]; exact Hs].
    apply with_room_sound; [|exact Hs]. intros x x' H. keeps_split H; tames_leaf H.
  - (* skip_discussion *)
    unfold skip_discussion.
    destruct (rooms_get w c); [|discriminate|intros [= <-]; exact Hs].
    apply with_room_sound; [|exact Hs]. intros x x' H. keeps_split H; tames_leaf H.
  - (* skip_match_end *)
    unfold skip_match_end.
    destruct (rooms_get w c); [|discriminate|intros [= <-]; exact Hs].
    apply with_room_sound; [|exact Hs]. intros x x' H. keeps_split H; tames_leaf H.
  - (* toggle_ready *)
    unfold toggle_ready. destruct (rooms_get w c); [|discriminate|intros [= <-]; exact Hs].
    apply with_room_sound; [|exact Hs]. intros x x' H. keeps_split H; tames_leaf H.
  - (* chat_message *)
    unfold chat_message. destruct (truthy c); intros [= <-]; exact Hs.
  - (* admin_skip_phase *)
    unfold admin_skip_phase. destruct (negb _); [intros [= <-]; exact Hs|].
    destruct (rooms_get w c); [|discriminate|intros [= <-]; exact Hs].
    apply with_room_sound; [|exact Hs]. intros x x' H. cbv zeta in H.
    destruct (phase_eqb _ _); tames_leaf H.
  - (* disconnect *)
    unfold disconnect. destruct (getMyRoom sock w) as [r|]; [|intros [= <-]; exact Hs].
    unfold bind. destruct (with_room r _ w) as [w1|] eqn:Hw1; [|discriminate].
    apply with_room_sound in Hw1; [|apply tames_disconnect_room|exact Hs].
    destruct (heap w1 !! r) as [room|]; [|intros [= <-]; exact Hw1].
    destruct (forallb _ _); intros [= <-]; exact Hw1.
  - (* tick *)
    unfold tick. destruct (timers (env w) !! h) as [t|]; [|intros [= <-]; exact Hs].
    destruct (negb (live t)); [intros [= <-]; exact Hs|].
    apply with_room_sound; [|exact Hs]. intros x x' H. cbv zeta in H.
    destruct (_ <=? 0).
    + destruct (kind t); tames_leaf H.
    + tames_leaf H.
  - (* resume *)
    unfold resume. destruct (pending (env w) !! k) as [r|]; [|intros [= <-]; exact Hs].
    cbv zeta. apply with_room_sound; [intros x x'; apply tames_nextRound|].
    exact Hs.
Qed.

Lemma reachable_rosters_sound w : reachable w -> rosters_sound w.
Proof.
  induction 1 as [|w orc ev w' _ IH Hstep].
  - intros r room H. cbn in H. rewrite lookup_nil in H. discriminate.
  - eapply step_rosters_sound; eauto.
Qed.

(** X25: in every state the server can reach, no room has more than
    twelve players: [join_room] is the only call that adds a player to an
    existing room, and it refuses when twelve are in it. *)
Theorem room_never_exceeds_twelve w r room :
  reachable w -> heap w !! r = Some room -> (length (players room) <= 12)%nat.
Proof.
  intros Hw Hroom. apply (reachable_rosters_sound w Hw r room Hroom).
Qed.

Lemma room_never_exceeds_twelve_witness :
  exists room,
    heap (after run_voting_left) !! 0%nat = Some room
    /\ (length (players room) <= 12)%nat.
Proof.
  eexists. split; [vm_compute; reflexivity|].
  apply (room_never_exceeds_twelve (after run_voting_left) 0%nat).
  - apply (run_reachable run_voting_left initial); [constructor|].
    vm_compute. reflexivity.
  - vm_compute. reflexivity.
Defined.

(** X26: in every state the server can reach, no player has a negative
    score: a score starts at 0, a round adds 20 or 30 plus 10 per player
    to it or leaves it alone, and a match reset puts it back to 0. *)
Theorem score_never_negative w r room p :
  reachable w -> heap w !! r = Some room -> p ∈ players room -> 0 <= score p.
Proof.
  intros Hw Hroom Hp.
  destruct (reachable_rosters_sound w Hw r room Hroom) as [_ Hs].
  rewrite Forall_forall in Hs. apply Hs, Hp.
Qed.

Lemma score_never_negative_witness :
  exists room p,
    heap (after run_last_round) !! 0%nat = Some room
    /\ players room !! 1%nat = Some p
    /\ 0 <= score p.
Proof.
  eexists _, _. split; [vm_compute; reflexivity|]. split; [vm_compute; reflexivity|].
  apply (score_never_negative (after run_last_round) 0%nat
           (default (sample_room [] LOBBY).1 (heap (after run_last_round) !! 0%nat))).
  - apply (run_reachable run_last_round initial); [constructor|].
    vm_compute. reflexivity.
  - vm_compute. reflexivity.
  - vm_compute. apply elem_of_cons. right. apply list_elem_of_here.
Defined.
